(** * pywal ("wal" 0.1.6): palette mapping, caching, sequences and exports

    A shallow embedding of [pywal/__init__.py].  Python [str] values are
    lists of Unicode code points, Python [int]s are [Z], the cache
    directory is a finite map from paths to file contents, and the
    class-level lists of [ColorType] are one shared record that every
    renderer appends to. *)

From Stdlib Require Import ZArith NArith Ascii String DecimalString.
From stdpp Require Import base option list gmap.

Local Open Scope N_scope.

(** ** Python strings *)

(** A [str] is a sequence of code points; a [bytes] value is a sequence of
    octets.  Both are lists of [N]. *)
Abbreviation pystr := (list N) (only parsing).
Abbreviation pybytes := (list N) (only parsing).

Definition lit (s : string) : pystr :=
  map N_of_ascii (list_ascii_of_string s).
Arguments lit s%_string : simpl never.

(** [sep.join(parts)] *)
Fixpoint join (sep : pystr) (parts : list pystr) : pystr :=
  match parts with
  | [] => []
  | [p] => p
  | p :: rest => p ++ sep ++ join sep rest
  end.

(** [str(n)] for a Python [int]. *)
Definition str_int (z : Z) : pystr :=
  lit (NilEmpty.string_of_int (Z.to_int z)).

Arguments str_int : simpl never.

(** [s.replace(a, b)] for one-character [a] and [b]. *)
Definition replace_char (a b : N) (s : pystr) : pystr :=
  map (fun c => if c =? a then b else c) s.

(** ** Exceptions and fallible computations *)

Inductive exn : Set :=
| IndexError
| ValueError
| AttributeError
| OSError
| UnicodeEncodeError
| UnicodeDecodeError.

Inductive result (A : Type) : Type :=
| Ok (a : A)
| Raise (e : exn).
Arguments Ok {A} a.
Arguments Raise {A} e.

#[global] Instance result_ret : MRet result := fun _ a => Ok a.
#[global] Instance result_bind : MBind result := fun _ _ f r =>
  match r with
  | Ok a => f a
  | Raise e => Raise e
  end.

#[global] Instance result_fmap : FMap result := fun _ _ f r =>
  match r with
  | Ok a => Ok (f a)
  | Raise e => Raise e
  end.

(** [seq[i]] for a literal, non-negative index [i]. *)
Definition getitem {A} (l : list A) (i : nat) : result A :=
  match l !! i with
  | Some x => Ok x
  | None => Raise IndexError
  end.

(** [d.get(k, default)] on a dict with [int] keys. *)
Definition dict_get {V} (d : gmap Z V) (k : Z) (dflt : V) : V :=
  default dflt (d !! k).

(** ** Palette mapper: [set_grey] and [sort_colors] *)

Section Mapper.

(** [int(c)] on a one-character string also accepts the non-ASCII code
    points of Unicode category Nd.  That table belongs to the
    interpreter, not to the program; it is a parameter here and is only
    consulted for code points from 128 upwards. *)
Variable nd_value : N -> option Z.

(** [int(s)] for the one-character string [s = c]. *)
Definition int_of_char (c : N) : result Z :=
  if c <? 128 then
    if (48 <=? c) && (c <=? 57) then Ok (Z.of_N (c - 48))
    else Raise ValueError
  else
    match nd_value c with
    | Some v => Ok v
    | None => Raise ValueError
    end.

Definition grey_table : gmap Z pystr :=
  list_to_map
    [ (0, lit "#666666"); (1, lit "#666666"); (2, lit "#757575");
      (3, lit "#999999"); (4, lit "#999999"); (5, lit "#8a8a8a");
      (6, lit "#a1a1a1"); (7, lit "#a1a1a1"); (8, lit "#a1a1a1");
      (9, lit "#a1a1a1") ]%Z.

(** Both arguments of [.get] are evaluated before the lookup: first
    [int(colors[0][1])], then [colors[7]]. *)
Definition set_grey (colors : list pystr) : result pystr :=
  c0 ← getitem colors 0;
  ch ← getitem c0 1;
  key ← int_of_char ch;
  c7 ← getitem colors 7;
  mret (dict_get grey_table key c7).

Definition sort_colors (colors : list pystr) : result (list pystr) :=
  let sorted_colors := [] in
  c ← getitem colors 0; let sorted_colors := sorted_colors ++ [c] in
  c ← getitem colors 9; let sorted_colors := sorted_colors ++ [c] in
  c ← getitem colors 10; let sorted_colors := sorted_colors ++ [c] in
  c ← getitem colors 11; let sorted_colors := sorted_colors ++ [c] in
  c ← getitem colors 12; let sorted_colors := sorted_colors ++ [c] in
  c ← getitem colors 13; let sorted_colors := sorted_colors ++ [c] in
  c ← getitem colors 14; let sorted_colors := sorted_colors ++ [c] in
  c ← getitem colors 15; let sorted_colors := sorted_colors ++ [c] in
  c ← set_grey colors; let sorted_colors := sorted_colors ++ [c] in
  c ← getitem colors 9; let sorted_colors := sorted_colors ++ [c] in
  c ← getitem colors 10; let sorted_colors := sorted_colors ++ [c] in
  c ← getitem colors 11; let sorted_colors := sorted_colors ++ [c] in
  c ← getitem colors 12; let sorted_colors := sorted_colors ++ [c] in
  c ← getitem colors 13; let sorted_colors := sorted_colors ++ [c] in
  c ← getitem colors 14; let sorted_colors := sorted_colors ++ [c] in
  c ← getitem colors 15; let sorted_colors := sorted_colors ++ [c] in
  mret sorted_colors.

End Mapper.

(** *** Well-formed colours *)

Definition is_digit (c : N) : bool := (48 <=? c) && (c <=? 57).
Definition is_lower_af (c : N) : bool := (97 <=? c) && (c <=? 102).
Definition is_upper_af (c : N) : bool := (65 <=? c) && (c <=? 70).
Definition is_hex (c : N) : bool := is_digit c || is_lower_af c || is_upper_af c.

(** [#RRGGBB]: a hash sign and six hexadecimal digits. *)
Definition is_color (s : pystr) : bool :=
  match s with
  | [h; a; b; c; d; e; f] => (h =? 35) && forallb is_hex [a; b; c; d; e; f]
  | _ => false
  end.

Definition is_palette (p : list pystr) : bool :=
  (length p =? 16)%nat && forallb is_color p.

(** ** Text codecs used by [fix_escape] *)

(** [bytes(s, "utf-8")].  Lone surrogates cannot be encoded. *)
Definition utf8_char (c : N) : result pybytes :=
  if c <? 128 then Ok [c]
  else if c <? 2048 then
    Ok [N.lor 192 (N.shiftr c 6); N.lor 128 (N.land c 63)]
  else if (55296 <=? c) && (c <=? 57343) then Raise UnicodeEncodeError
  else if c <? 65536 then
    Ok [N.lor 224 (N.shiftr c 12);
        N.lor 128 (N.land (N.shiftr c 6) 63);
        N.lor 128 (N.land c 63)]
  else
    Ok [N.lor 240 (N.shiftr c 18);
        N.lor 128 (N.land (N.shiftr c 12) 63);
        N.lor 128 (N.land (N.shiftr c 6) 63);
        N.lor 128 (N.land c 63)].

Fixpoint utf8_encode (s : pystr) : result pybytes :=
  match s with
  | [] => Ok []
  | c :: rest =>
    bs ← utf8_char c;
    more ← utf8_encode rest;
    mret (bs ++ more)
  end.

Definition is_octal (c : N) : bool := (48 <=? c) && (c <=? 55).

Definition hex_value (c : N) : option N :=
  if is_digit c then Some (c - 48)
  else if is_lower_af c then Some (c - 87)
  else if is_upper_af c then Some (c - 55)
  else None.

(** States of the [unicode_escape] decoder between two input bytes. *)
Inductive esc_state : Type :=
| Plain
| Backslash
| Octal (digits : nat) (value : N)
| Hexa (remaining : nat) (value : N)
| NameOpen
| Name (acc : pybytes).

Section Codec.

(** [\N{...}] is resolved through the interpreter's table of Unicode
    character names, a parameter of the decoder. *)
Variable ucn_lookup : pybytes -> option N.

(** The escape that follows a backslash. *)
Definition esc_simple (b : N) : option pystr :=
  if b =? 10 then Some []
  else if b =? 92 then Some [92]
  else if b =? 39 then Some [39]
  else if b =? 34 then Some [34]
  else if b =? 98 then Some [8]
  else if b =? 102 then Some [12]
  else if b =? 116 then Some [9]
  else if b =? 110 then Some [10]
  else if b =? 114 then Some [13]
  else if b =? 118 then Some [11]
  else if b =? 97 then Some [7]
  else None.

(** [bs.decode("unicode_escape")] with the default strict error
    handling: bytes other than a backslash are taken as Latin-1, an octal
    escape has one to three digits, [\x], [\u] and [\U] need exactly 2, 4
    and 8 hexadecimal digits, and an unknown escape is kept as it is. *)
Fixpoint unicode_escape (st : esc_state) (bs : pybytes) : result pystr :=
  match bs with
  | [] =>
    match st with
    | Plain => Ok []
    | Octal _ v => Ok [v]
    | _ => Raise UnicodeDecodeError
    end
  | b :: rest =>
    let plain b :=
      if b =? 92 then unicode_escape Backslash rest
      else cons b <$> unicode_escape Plain rest in
    match st with
    | Plain => plain b
    | Backslash =>
      match esc_simple b with
      | Some out => (out ++.) <$> unicode_escape Plain rest
      | None =>
        if is_octal b then unicode_escape (Octal 1 (b - 48)) rest
        else if b =? 120 then unicode_escape (Hexa 2 0) rest
        else if b =? 117 then unicode_escape (Hexa 4 0) rest
        else if b =? 85 then unicode_escape (Hexa 8 0) rest
        else if b =? 78 then unicode_escape NameOpen rest
        else ([92; b] ++.) <$> unicode_escape Plain rest
      end
    | Octal n v =>
      if is_octal b then
        match n with
        | 1%nat => unicode_escape (Octal 2 (8 * v + (b - 48))) rest
        | _ => cons (8 * v + (b - 48)) <$> unicode_escape Plain rest
        end
      else cons v <$> plain b
    | Hexa n v =>
      match hex_value b with
      | None => Raise UnicodeDecodeError
      | Some d =>
        let v := 16 * v + d in
        match n with
        | 0%nat | 1%nat =>
          if 1114111 <? v then Raise UnicodeDecodeError
          else cons v <$> unicode_escape Plain rest
        | S n' => unicode_escape (Hexa n' v) rest
        end
      end
    | NameOpen =>
      if b =? 123 then unicode_escape (Name []) rest
      else Raise UnicodeDecodeError
    | Name acc =>
      if b =? 125 then
        match acc with
        | [] => Raise UnicodeDecodeError
        | _ =>
          match ucn_lookup acc with
          | Some c => cons c <$> unicode_escape Plain rest
          | None => Raise UnicodeDecodeError
          end
        end
      else unicode_escape (Name (acc ++ [b])) rest
    end
  end.

Definition fix_escape (string : pystr) : result pystr :=
  bs ← utf8_encode string;
  unicode_escape Plain bs.

End Codec.

(** ** [hex_to_rgb] *)

Fixpoint lstrip (c : N) (s : pystr) : pystr :=
  match s with
  | [] => []
  | x :: rest => if x =? c then lstrip c rest else s
  end.

(** [s.strip(c)] for a one-character [c]. *)
Definition strip (c : N) (s : pystr) : pystr :=
  reverse (lstrip c (reverse (lstrip c s))).

Definition is_space (c : N) : bool :=
  (c =? 32) || ((9 <=? c) && (c <=? 13)).

(** [bytes.fromhex(s)] (Python 3.7 and later): ASCII whitespace is skipped
    between bytes, every byte is two hexadecimal digits. *)
Fixpoint fromhex (s : pystr) : result pybytes :=
  match s with
  | [] => Ok []
  | c :: rest =>
    if is_space c then fromhex rest
    else
      match rest with
      | [] => Raise ValueError
      | d :: rest' =>
        match hex_value c, hex_value d with
        | Some h, Some l => cons (16 * h + l) <$> fromhex rest'
        | _, _ => Raise ValueError
        end
      end
  end.

Definition hex_to_rgb (color : pystr) : result pystr :=
  bs ← fromhex (strip 35 color);
  match bs with
  | [red; green; blue] =>
    mret (str_int (Z.of_N red) ++ lit "," ++ str_int (Z.of_N green)
          ++ lit "," ++ str_int (Z.of_N blue))
  | _ => Raise ValueError
  end.

(** ** Line handling and the two regular expressions *)

(** Text-mode [read()] translates [\r\n] and [\r] to [\n]. *)
Fixpoint universal_newlines (s : pystr) : pystr :=
  match s with
  | [] => []
  | c :: rest =>
    if c =? 13 then
      match rest with
      | d :: rest' =>
        if d =? 10 then 10 :: universal_newlines rest'
        else 10 :: universal_newlines rest
      | [] => [10]
      end
    else c :: universal_newlines rest
  end.

(** The line boundaries of [str.splitlines]. *)
Definition is_linebreak (c : N) : bool :=
  ((10 <=? c) && (c <=? 13)) || ((28 <=? c) && (c <=? 30))
  || (c =? 133) || (c =? 8232) || (c =? 8233).

Fixpoint splitlines_from (cur s : pystr) : list pystr :=
  match s with
  | [] => match cur with [] => [] | _ => [cur] end
  | c :: rest =>
    if is_linebreak c then
      if c =? 13 then
        match rest with
        | d :: rest' =>
          if d =? 10 then cur :: splitlines_from [] rest'
          else cur :: splitlines_from [] rest
        | [] => [cur]
        end
      else cur :: splitlines_from [] rest
    else splitlines_from (cur ++ [c]) rest
  end.

Definition splitlines (s : pystr) : list pystr := splitlines_from [] s.

(** [.] of a regular expression: anything but a newline. *)
Definition re_dot (c : N) : bool := negb (c =? 10).

Definition six_dots (s : pystr) : bool :=
  (6 <=? length s)%nat && forallb re_dot (take 6 s).

(** [re.search("#.{6}", s)]: the leftmost match, if any. *)
Fixpoint search_hash6 (s : pystr) : option pystr :=
  match s with
  | [] => None
  | c :: rest =>
    if (c =? 35) && six_dots rest then Some (c :: take 6 rest)
    else search_hash6 rest
  end.

Fixpoint starts_with (pre s : pystr) : bool :=
  match pre, s with
  | [], _ => true
  | p :: pre', c :: s' => (p =? c) && starts_with pre' s'
  | _ :: _, [] => false
  end.

(** The pattern of [reload_colors] is written with two control
    characters in it: BEL and ESC themselves, then [\]708;\#.{6}].  Does
    it match at the head of [s]? *)
Definition match_708 (s : pystr) : bool :=
  starts_with ([7; 27] ++ lit "]708;#") s && six_dots (drop 8 s).

(** [re.sub(pattern, "", s)] for that pattern: matches are found left to
    right and do not overlap; [skip] counts the characters of a match
    still to be dropped. *)
Fixpoint sub_708_from (skip : nat) (s : pystr) : pystr :=
  match s with
  | [] => []
  | c :: rest =>
    match skip with
    | S k => sub_708_from k rest
    | O =>
      if match_708 s then sub_708_from 13 rest
      else c :: sub_708_from 0 rest
    end
  end.

Definition sub_708 (s : pystr) : pystr := sub_708_from 0 s.

(** [str(b)] of a [bytes] value, that is [repr(b)]. *)
Definition hex_digit (d : N) : N := if d <? 10 then 48 + d else 87 + d.

Definition repr_byte (quote c : N) : pystr :=
  if (c =? quote) || (c =? 92) then [92; c]
  else if c =? 9 then lit "\t"
  else if c =? 10 then lit "\n"
  else if c =? 13 then lit "\r"
  else if (c <? 32) || (127 <=? c) then
    lit "\x" ++ [hex_digit (N.shiftr c 4); hex_digit (N.land c 15)]
  else [c].

Definition bytes_repr (b : pybytes) : pystr :=
  let quote :=
    if existsb (N.eqb 39) b && negb (existsb (N.eqb 34) b) then 34 else 39 in
  [98; quote] ++ flat_map (repr_byte quote) b ++ [quote].

(** ** The process state *)

Inductive event : Type :=
| EvWrite (path content : pystr)
| EvWriteFailed (path : pystr)
| EvIsFile (path : pystr)
| EvRead (path : pystr)
| EvConvert (count : Z) (img : pystr)
| EvSpawn (cmd : list pystr)
| EvPrint (text : pystr).

(** The class attributes of [ColorType]: lists shared by all renderers. *)
Record ColorType : Type := {
  plain : list pystr;
  xrdb : list pystr;
  sequences : list pystr;
  shell : list pystr;
  scss : list pystr;
  css : list pystr;
  putty : list pystr;
}.

Definition ColorType_init : ColorType := {|
  plain := [];
  xrdb := [];
  sequences := [];
  shell := [];
  scss := [];
  css := [lit ":root {"];
  putty :=
    [ lit "Windows Registry Editor Version 5.00";
      lit "[HKEY_CURRENT_USER\Software\SimonTatham\PuTTY\Sessions\Wal]" ];
|}.

(** Files by path, the [ColorType] lists, [Args.notify], and what the
    process did to the outside so far. *)
Record world : Type := {
  fs : gmap (list N) (list N);
  ct : ColorType;
  args_notify : bool;
  log : list event;
}.

(** What the program cannot decide: interpreter tables, the location of
    the cache, which paths refuse to be opened for writing, the output
    lines of [convert], the executables on the search path and the
    entries of [/dev/pts/]. *)
Record env : Type := {
  nd_value : N -> option Z;
  ucn_lookup : pybytes -> option N;
  CACHE_DIR : pystr;
  unwritable : pystr -> bool;
  convert : Z -> pystr -> list pybytes;
  which : pystr -> bool;
  pts_entries : list pystr;
}.

Inductive outcome (A : Type) : Type :=
| Done (a : A)
| Fail (e : exn)
| Exit (code : Z)
| Diverge.
Arguments Done {A} a.
Arguments Fail {A} e.
Arguments Exit {A} code.
Arguments Diverge {A}.

Definition M (A : Type) : Type := world -> world * outcome A.

#[global] Instance M_ret : MRet M := fun _ a w => (w, Done a).
#[global] Instance M_bind : MBind M := fun _ _ f m w =>
  match m w with
  | (w', Done a) => f a w'
  | (w', Fail e) => (w', Fail e)
  | (w', Exit c) => (w', Exit c)
  | (w', Diverge) => (w', Diverge)
  end.

Definition lift {A} (r : result A) : M A := fun w =>
  match r with
  | Ok a => (w, Done a)
  | Raise e => (w, Fail e)
  end.

Definition raise {A} (e : exn) : M A := fun w => (w, Fail e).
Definition exit {A} (code : Z) : M A := fun w => (w, Exit code).
Definition diverge {A} : M A := fun w => (w, Diverge).

Definition emit (ev : event) : M unit := fun w =>
  ({| fs := fs w; ct := ct w; args_notify := args_notify w;
      log := log w ++ [ev] |}, Done ()).

Definition get_ct : M ColorType := fun w => (w, Done (ct w)).

Definition modify_ct (f : ColorType -> ColorType) : M unit := fun w =>
  ({| fs := fs w; ct := f (ct w); args_notify := args_notify w;
      log := log w |}, Done ()).

Definition set_fs (path content : pystr) : M unit := fun w =>
  ({| fs := <[path := content]> (fs w); ct := ct w;
      args_notify := args_notify w; log := log w |}, Done ()).

(** [for x in xs: body(x)], also the list comprehensions run for effect. *)
Fixpoint for_each {A} (body : A -> M unit) (xs : list A) : M unit :=
  match xs with
  | [] => mret ()
  | x :: rest => body x;; for_each body rest
  end.

(** [print(text)], with its trailing newline. *)
Definition print (text : pystr) : M unit := emit (EvPrint (text ++ [10])).

(** [list.append] on each of the shared lists. *)
Definition xrdb_append (l : pystr) : M unit :=
  modify_ct (fun c =>
    {| plain := plain c; xrdb := xrdb c ++ [l]; sequences := sequences c;
       shell := shell c; scss := scss c; css := css c; putty := putty c |}).
Definition sequences_append (l : pystr) : M unit :=
  modify_ct (fun c =>
    {| plain := plain c; xrdb := xrdb c; sequences := sequences c ++ [l];
       shell := shell c; scss := scss c; css := css c; putty := putty c |}).
Definition shell_append (l : pystr) : M unit :=
  modify_ct (fun c =>
    {| plain := plain c; xrdb := xrdb c; sequences := sequences c;
       shell := shell c ++ [l]; scss := scss c; css := css c;
       putty := putty c |}).
Definition scss_append (l : pystr) : M unit :=
  modify_ct (fun c =>
    {| plain := plain c; xrdb := xrdb c; sequences := sequences c;
       shell := shell c; scss := scss c ++ [l]; css := css c;
       putty := putty c |}).
Definition css_append (l : pystr) : M unit :=
  modify_ct (fun c =>
    {| plain := plain c; xrdb := xrdb c; sequences := sequences c;
       shell := shell c; scss := scss c; css := css c ++ [l];
       putty := putty c |}).
Definition putty_append (l : pystr) : M unit :=
  modify_ct (fun c =>
    {| plain := plain c; xrdb := xrdb c; sequences := sequences c;
       shell := shell c; scss := scss c; css := css c;
       putty := putty c ++ [l] |}).
(** [ColorType.plain = colors] *)
Definition plain_assign (colors : list pystr) : M unit :=
  modify_ct (fun c =>
    {| plain := colors; xrdb := xrdb c; sequences := sequences c;
       shell := shell c; scss := scss c; css := css c; putty := putty c |}).

(** ** The program *)

Definition COLOR_COUNT : Z := 16.

(** [d / name] of [pathlib], for a directory [d] written without a trailing
    separator and a relative [name]. *)
Definition path_join (d name : pystr) : pystr := d ++ lit "/" ++ name.

Section Program.

Context (E : env).

(** *** Files *)

Definition is_file (path : pystr) : M bool := fun w =>
  (emit (EvIsFile path);; mret (bool_decide (is_Some (fs w !! path)))) w.

Definition read_file (input_file : pystr) : M (list pystr) := fun w =>
  match fs w !! input_file with
  | Some content =>
    (emit (EvRead input_file);;
     mret (splitlines (universal_newlines content))) w
  | None => raise OSError w
  end.

(** [open(export_file, "w")] raises for the paths of [unwritable] and
    leaves them as they were. *)
Definition save_file (colors export_file : pystr) : M unit :=
  if unwritable E export_file then
    emit (EvWriteFailed export_file);; raise OSError
  else
    set_fs export_file colors;; emit (EvWrite export_file colors).

Definition notify (msg : pystr) : M unit := fun w =>
  (if which E (lit "notify-send") && args_notify w
   then emit (EvSpawn [lit "notify-send"; msg])
   else mret ()) w.

Definition disown (cmd : list pystr) : M unit :=
  emit (EvSpawn (lit "nohup" :: cmd)).

(** *** Colorscheme generation *)

Definition imagemagick (color_count : Z) (img : pystr) : M (list pybytes) :=
  emit (EvConvert color_count img);;
  mret (convert E color_count img).

(** The [while] loop of [gen_colors]; [fuel] bounds the number of
    iterations the model follows. *)
Fixpoint gen_colors_loop (fuel : nat) (img : pystr) (index : Z)
    (raw_colors : list pybytes) : M (list pybytes) :=
  if (Z.of_nat (length raw_colors) - 1 <? COLOR_COUNT)%Z then
    match fuel with
    | O => diverge
    | S fuel' =>
      let index := (index + 1)%Z in
      raw_colors ← imagemagick (COLOR_COUNT + index) img;
      print (lit "colors: Imagemagick couldn't generate a " ++
             str_int COLOR_COUNT ++
             lit " color palette, trying a larger palette size " ++
             str_int (COLOR_COUNT + index));;
      gen_colors_loop fuel' img index raw_colors
    end
  else mret raw_colors.

(** [re.search("#.{6}", str(col)).group(0)] *)
Definition hex_token (col : pybytes) : result pystr :=
  match search_hash6 (bytes_repr col) with
  | Some m => Ok m
  | None => Raise AttributeError
  end.

Fixpoint hex_tokens (raw_colors : list pybytes) : result (list pystr) :=
  match raw_colors with
  | [] => Ok []
  | col :: rest =>
    t ← hex_token col;
    ts ← hex_tokens rest;
    mret (t :: ts)
  end.

Definition gen_colors (fuel : nat) (img : pystr) : M (list pystr) :=
  raw_colors ← imagemagick COLOR_COUNT img;
  raw_colors ← gen_colors_loop fuel img 0 raw_colors;
  match raw_colors with
  | [] => raise IndexError
  | _ :: raw_colors => lift (hex_tokens raw_colors)
  end.

Definition cache_file_of (img : pystr) : pystr :=
  path_join (path_join (CACHE_DIR E) (lit "schemes"))
            (replace_char 47 95 img).

Definition wal_file : pystr := path_join (CACHE_DIR E) (lit "wal").

Definition get_colors (fuel : nat) (img : pystr) : M (list pystr) :=
  save_file img wal_file;;
  let cache_file := cache_file_of img in
  hit ← is_file cache_file;
  if hit : bool then
    colors ← read_file cache_file;
    print (lit "colors: Found cached colorscheme.");;
    mret colors
  else
    print (lit "colors: Generating a colorscheme...");;
    notify (lit "wal: Generating a colorscheme...");;
    colors ← gen_colors fuel img;
    colors ← lift (sort_colors (nd_value E) colors);
    save_file (join [10] colors) cache_file;;
    print (lit "colors: Generated colorscheme");;
    notify (lit "wal: Generation complete.");;
    mret colors.

(** *** Sequences *)

Definition set_special (index : Z) (color : pystr) : M unit :=
  sequences_append
    (lit "\033]" ++ str_int index ++ lit ";" ++ color ++ lit "\007");;
  if (index =? 10)%Z then
    xrdb_append (lit "URxvt*foreground: " ++ color);;
    xrdb_append (lit "XTerm*foreground: " ++ color)
  else if (index =? 11)%Z then
    xrdb_append (lit "URxvt*background: " ++ color);;
    xrdb_append (lit "XTerm*background: " ++ color)
  else if (index =? 12)%Z then
    xrdb_append (lit "URxvt*cursorColor: " ++ color);;
    xrdb_append (lit "XTerm*cursorColor: " ++ color)
  else if (index =? 66)%Z then
    xrdb_append (lit "*.color" ++ str_int index ++ lit ": " ++ color);;
    xrdb_append (lit "*color" ++ str_int index ++ lit ": " ++ color);;
    sequences_append
      (lit "\033]4;" ++ str_int index ++ lit ";" ++ color ++ lit "\007")
  else mret ().

Definition set_color (index : Z) (color : pystr) : M unit :=
  xrdb_append (lit "*.color" ++ str_int index ++ lit ": " ++ color);;
  xrdb_append (lit "*color" ++ str_int index ++ lit ": " ++ color);;
  sequences_append
    (lit "\033]4;" ++ str_int index ++ lit ";" ++ color ++ lit "\007");;
  shell_append (lit "color" ++ str_int index ++ lit "='" ++ color ++ lit "'");;
  css_append ([9] ++ lit "--color" ++ str_int index ++ lit ": " ++ color
              ++ lit ";");;
  scss_append (lit "$color" ++ str_int index ++ lit ": " ++ color ++ lit ";");;
  rgb ← lift (hex_to_rgb color);
  putty_append ([34] ++ lit "Colour" ++ str_int index ++ [34] ++ lit "="
                ++ [34] ++ rgb ++ [34]).

(** [enumerate(xs)], counting from [start]. *)
Fixpoint enumerate_from {A} (start : Z) (xs : list A) : list (Z * A) :=
  match xs with
  | [] => []
  | x :: rest => (start, x) :: enumerate_from (start + 1) rest
  end.

Definition terminals : list pystr :=
  map (fun term => lit "/dev/pts/" ++ term)
      (filter (fun term => (length term < 4)%nat) (pts_entries E))
  ++ [path_join (CACHE_DIR E) (lit "sequences")].

Definition send_sequences (colors : list pystr) (vte : bool) : M unit :=
  (c ← lift (getitem colors 15); set_special 10 c);;
  (c ← lift (getitem colors 0); set_special 11 c);;
  (c ← lift (getitem colors 15); set_special 12 c);;
  (c ← lift (getitem colors 15); set_special 13 c);;
  (c ← lift (getitem colors 0); set_special 14 c);;
  (if negb vte then c ← lift (getitem colors 0); set_special 708 c
   else mret ());;
  for_each (fun '(num, color) => set_color num color)
           (enumerate_from 0 colors);;
  (c ← lift (getitem colors 0); set_special 66 c);;
  c ← get_ct;
  sequences ← lift (fix_escape (ucn_lookup E) (join [] (sequences c)));
  for_each (fun term => save_file sequences term) terminals;;
  print (lit "colors: Set terminal colors").

(** *** Exports *)

Definition save_colors (colors : list pystr) (export_file message : pystr)
    : M unit :=
  let colors := join [10] colors in
  save_file (colors ++ [10]) (path_join (CACHE_DIR E) export_file);;
  print (lit "export: exported " ++ message ++ lit ".").

Definition export_rofi (colors : list pystr) : M unit :=
  (c0 ← lift (getitem colors 0); c0' ← lift (getitem colors 0);
   c10 ← lift (getitem colors 10);
   xrdb_append (lit "rofi.color-window: " ++ c0 ++ lit ", " ++ c0'
                ++ lit ", " ++ c10));;
  (c0 ← lift (getitem colors 0); c15 ← lift (getitem colors 15);
   c0' ← lift (getitem colors 0); c10 ← lift (getitem colors 10);
   c0'' ← lift (getitem colors 0);
   xrdb_append (lit "rofi.color-normal: " ++ c0 ++ lit ", " ++ c15
                ++ lit ", " ++ c0' ++ lit ", " ++ c10 ++ lit ", " ++ c0''));;
  (c0 ← lift (getitem colors 0); c15 ← lift (getitem colors 15);
   c0' ← lift (getitem colors 0); c10 ← lift (getitem colors 10);
   c0'' ← lift (getitem colors 0);
   xrdb_append (lit "rofi.color-active: " ++ c0 ++ lit ", " ++ c15
                ++ lit ", " ++ c0' ++ lit ", " ++ c10 ++ lit ", " ++ c0''));;
  (c0 ← lift (getitem colors 0); c9 ← lift (getitem colors 9);
   c0' ← lift (getitem colors 0); c9' ← lift (getitem colors 9);
   c15 ← lift (getitem colors 15);
   xrdb_append (lit "rofi.color-urgent: " ++ c0 ++ lit ", " ++ c9
                ++ lit ", " ++ c0' ++ lit ", " ++ c9' ++ lit ", " ++ c15)).

Definition export_emacs (colors : list pystr) : M unit :=
  (c0 ← lift (getitem colors 0);
   xrdb_append (lit "emacs*background: " ++ c0));;
  (c15 ← lift (getitem colors 15);
   xrdb_append (lit "emacs*foreground: " ++ c15)).

Definition reload_xrdb (export_file : pystr) : M unit :=
  if which E (lit "xrdb") then
    emit (EvSpawn [lit "xrdb"; lit "-merge";
                   path_join (CACHE_DIR E) export_file])
  else mret ().

Definition reload_i3 : M unit :=
  if which E (lit "i3-msg") then disown [lit "i3-msg"; lit "reload"]
  else mret ().

Definition export_colors (colors : list pystr) : M unit :=
  (c ← get_ct; save_colors (plain c) (lit "colors") (lit "plain hex colors"));;
  (c ← get_ct; save_colors (shell c) (lit "colors.sh") (lit "shell variables"));;
  css_append (lit "}");;
  (c ← get_ct; save_colors (css c) (lit "colors.css") (lit "css variables"));;
  (c ← get_ct; save_colors (scss c) (lit "colors.scss") (lit "scss variables"));;
  (c ← get_ct;
   save_colors (putty c) (lit "colors-putty.reg") (lit "putty theme"));;
  export_rofi colors;;
  export_emacs colors;;
  (c ← get_ct; save_colors (xrdb c) (lit "xcolors") (lit "xrdb colors"));;
  reload_xrdb (lit "xcolors");;
  reload_i3.

(** The [-i] branch of [process_args] once the palette is known
    ([set_wallpaper] in between touches neither [ColorType] nor the
    cache): the palette is bound to [ColorType.plain], sent, exported. *)
Definition apply_colors (colors : list pystr) (vte : bool) : M unit :=
  plain_assign colors;;
  c ← get_ct;
  send_sequences (plain c) vte;;
  c ← get_ct;
  export_colors (plain c).

(** *** Reload *)

Definition reload_colors (vte : bool) : M unit :=
  let sequence_file := path_join (CACHE_DIR E) (lit "sequences") in
  (present ← is_file sequence_file;
   if present : bool then
     lines ← read_file sequence_file;
     let sequences := join [] lines in
     let sequences := if vte then sub_708 sequences else sequences in
     out ← lift (fix_escape (ucn_lookup E) sequences);
     emit (EvPrint out)
   else mret ());;
  exit 0%Z.

End Program.

(** ** Notions used to state the properties *)

(** The colour counts asked of [convert], in the order of the calls. *)
Definition requests (l : list event) : list Z :=
  omap (fun ev => match ev with EvConvert n _ => Some n | _ => None end) l.

(** The counts [16 + i], ..., [16 + i + n - 1]. *)
Definition counts_from (i n : nat) : list Z :=
  map (fun j => (16 + Z.of_nat j)%Z) (seq i n).


(** Number of places where [pat] occurs in [s]. *)
Fixpoint occurrences (pat s : pystr) : nat :=
  match s with
  | [] => 0
  | _ :: rest =>
    ((if starts_with pat s then 1 else 0) + occurrences pat rest)%nat
  end.

(** The decoding that the specification asks of [fix_escape]: the four
    characters [\033] become ESC, the four characters [\007] become BEL,
    everything else is kept. *)
Fixpoint spec_decode (s : pystr) : pystr :=
  match s with
  | [] => []
  | c0 :: tl =>
    match tl with
    | c1 :: c2 :: c3 :: rest =>
      if (c0 =? 92) && (c1 =? 48) && (c2 =? 51) && (c3 =? 51)
      then 27 :: spec_decode rest
      else if (c0 =? 92) && (c1 =? 48) && (c2 =? 48) && (c3 =? 55)
      then 7 :: spec_decode rest
      else c0 :: spec_decode tl
    | _ => c0 :: spec_decode tl
    end
  end.

(** ASCII text in which a backslash only ever starts [\033] or [\007]. *)
Fixpoint wal_escapes_only (s : pystr) : bool :=
  match s with
  | [] => true
  | c0 :: tl =>
    if c0 =? 92 then
      match tl with
      | c1 :: c2 :: c3 :: rest =>
        (c1 =? 48)
        && (((c2 =? 51) && (c3 =? 51)) || ((c2 =? 48) && (c3 =? 55)))
        && wal_escapes_only rest
      | _ => false
      end
    else (c0 <? 128) && wal_escapes_only tl
  end.

(** What a step of [get_colors] after the first leaves alone: the log only
    grows and the wallpaper record keeps its content. *)
Definition keeps_wal (E : env) (w w' : world) : Prop :=
  (exists rest, log w' = log w ++ rest) /\
  fs w' !! wal_file E = fs w !! wal_file E.

(** A computation none of whose runs breaks [keeps_wal]. *)
Definition preserves (E : env) {A} (m : M A) : Prop :=
  forall w, keeps_wal E w (fst (m w)).

(** *** What a fresh process appends to [ColorType] *)

(** The process state with other lists, or with another log. *)
Definition with_ct (w : world) (c : ColorType) : world :=
  {| fs := fs w; ct := c; args_notify := args_notify w; log := log w |}.

Definition with_log (w : world) (l : list event) : world :=
  {| fs := fs w; ct := ct w; args_notify := args_notify w; log := l |}.

(** Field by field concatenation. *)
Definition ct_app (a b : ColorType) : ColorType :=
  {| plain := plain a ++ plain b;
     xrdb := xrdb a ++ xrdb b;
     sequences := sequences a ++ sequences b;
     shell := shell a ++ shell b;
     scss := scss a ++ scss b;
     css := css a ++ css b;
     putty := putty a ++ putty b |}.

Definition ct_empty : ColorType :=
  {| plain := []; xrdb := []; sequences := []; shell := []; scss := [];
     css := []; putty := [] |}.

(** Each [append] concatenates a one-line record. *)
Definition one_xrdb (l : pystr) : ColorType :=
  {| plain := []; xrdb := [l]; sequences := []; shell := []; scss := [];
     css := []; putty := [] |}.
Definition one_sequence (l : pystr) : ColorType :=
  {| plain := []; xrdb := []; sequences := [l]; shell := []; scss := [];
     css := []; putty := [] |}.
Definition one_shell (l : pystr) : ColorType :=
  {| plain := []; xrdb := []; sequences := []; shell := [l]; scss := [];
     css := []; putty := [] |}.
Definition one_scss (l : pystr) : ColorType :=
  {| plain := []; xrdb := []; sequences := []; shell := []; scss := [l];
     css := []; putty := [] |}.
Definition one_css (l : pystr) : ColorType :=
  {| plain := []; xrdb := []; sequences := []; shell := []; scss := [];
     css := [l]; putty := [] |}.
Definition one_putty (l : pystr) : ColorType :=
  {| plain := []; xrdb := []; sequences := []; shell := []; scss := [];
     css := []; putty := [l] |}.

(** An escape sequence as the builders write it, and as it is once
    decoded. *)
Definition osc_text (body : pystr) : pystr :=
  lit "\033]" ++ body ++ lit "\007".
Definition osc_bytes (body : pystr) : pystr := [27; 93] ++ body ++ [7].

(** The lines one call of [set_special] appends. *)
Definition special_lines (index : Z) (color : pystr) : ColorType :=
  {| plain := [];
     xrdb :=
       if (index =? 10)%Z then
         [lit "URxvt*foreground: " ++ color; lit "XTerm*foreground: " ++ color]
       else if (index =? 11)%Z then
         [lit "URxvt*background: " ++ color; lit "XTerm*background: " ++ color]
       else if (index =? 12)%Z then
         [lit "URxvt*cursorColor: " ++ color;
          lit "XTerm*cursorColor: " ++ color]
       else if (index =? 66)%Z then
         [lit "*.color" ++ str_int index ++ lit ": " ++ color;
          lit "*color" ++ str_int index ++ lit ": " ++ color]
       else [];
     sequences :=
       osc_text (str_int index ++ lit ";" ++ color) ::
       (if (index =? 66)%Z
        then [osc_text (lit "4;" ++ str_int index ++ lit ";" ++ color)]
        else []);
     shell := []; scss := []; css := []; putty := [] |}.

(** The lines one call of [set_color] appends when [hex_to_rgb] gives
    [rgb]. *)
Definition color_lines (index : Z) (color rgb : pystr) : ColorType :=
  {| plain := [];
     xrdb := [lit "*.color" ++ str_int index ++ lit ": " ++ color;
              lit "*color" ++ str_int index ++ lit ": " ++ color];
     sequences := [osc_text (lit "4;" ++ str_int index ++ lit ";" ++ color)];
     shell := [lit "color" ++ str_int index ++ lit "='" ++ color ++ lit "'"];
     scss := [lit "$color" ++ str_int index ++ lit ": " ++ color ++ lit ";"];
     css := [[9] ++ lit "--color" ++ str_int index ++ lit ": " ++ color
             ++ lit ";"];
     putty := [[34] ++ lit "Colour" ++ str_int index ++ [34] ++ lit "="
               ++ [34] ++ rgb ++ [34]] |}.

(** The text [hex_to_rgb] returns, empty where it raises. *)
Definition rgb_of (color : pystr) : pystr :=
  match hex_to_rgb color with
  | Ok rgb => rgb
  | Raise _ => []
  end.

Fixpoint palette_lines (start : Z) (colors : list pystr) : ColorType :=
  match colors with
  | [] => ct_empty
  | c :: rest =>
    ct_app (color_lines start c (rgb_of c)) (palette_lines (start + 1) rest)
  end.

(** Everything [send_sequences] appends for a palette. *)
Definition sequence_lines (colors : list pystr) (vte : bool) : ColorType :=
  let c0 := nth 0 colors [] in
  let c15 := nth 15 colors [] in
  ct_app (special_lines 10 c15)
  (ct_app (special_lines 11 c0)
  (ct_app (special_lines 12 c15)
  (ct_app (special_lines 13 c15)
  (ct_app (special_lines 14 c0)
  (ct_app (if vte then ct_empty else special_lines 708 c0)
  (ct_app (palette_lines 0 colors)
          (special_lines 66 c0))))))).

(** The lines [export_colors] adds before it writes the X resources. *)
Definition rofi_emacs_lines (colors : list pystr) : list pystr :=
  let c0 := nth 0 colors [] in
  let c9 := nth 9 colors [] in
  let c10 := nth 10 colors [] in
  let c15 := nth 15 colors [] in
  [ lit "rofi.color-window: " ++ c0 ++ lit ", " ++ c0 ++ lit ", " ++ c10;
    lit "rofi.color-normal: " ++ c0 ++ lit ", " ++ c15 ++ lit ", " ++ c0
      ++ lit ", " ++ c10 ++ lit ", " ++ c0;
    lit "rofi.color-active: " ++ c0 ++ lit ", " ++ c15 ++ lit ", " ++ c0
      ++ lit ", " ++ c10 ++ lit ", " ++ c0;
    lit "rofi.color-urgent: " ++ c0 ++ lit ", " ++ c9 ++ lit ", " ++ c0
      ++ lit ", " ++ c9 ++ lit ", " ++ c15;
    lit "emacs*background: " ++ c0;
    lit "emacs*foreground: " ++ c15 ].

(** The text between [ESC ]] and [BEL] of every sequence that
    [send_sequences] builds, in order. *)
Fixpoint palette_bodies (start : Z) (colors : list pystr) : list pystr :=
  match colors with
  | [] => []
  | c :: rest =>
    (lit "4;" ++ str_int start ++ lit ";" ++ c)
      :: palette_bodies (start + 1) rest
  end.

Definition sequence_bodies (colors : list pystr) (vte : bool) : list pystr :=
  let c0 := nth 0 colors [] in
  let c15 := nth 15 colors [] in
  [ str_int 10 ++ lit ";" ++ c15; str_int 11 ++ lit ";" ++ c0;
    str_int 12 ++ lit ";" ++ c15; str_int 13 ++ lit ";" ++ c15;
    str_int 14 ++ lit ";" ++ c0 ]
  ++ (if vte then [] else [str_int 708 ++ lit ";" ++ c0])
  ++ palette_bodies 0 colors
  ++ [ str_int 66 ++ lit ";" ++ c0;
       lit "4;" ++ str_int 66 ++ lit ";" ++ c0 ].

(** A sequence that sets special colour 708. *)
Definition addresses_708 (body : pystr) : bool :=
  starts_with (lit "708;") body.

(** The rest of [send_sequences] once the lists are built. *)
Definition broadcast (E : env) (blob_lines : list pystr) : M unit :=
  sequences ← lift (fix_escape (ucn_lookup E) (join [] blob_lines));
  for_each (fun term => save_file E sequences term) (terminals E);;
  print (lit "colors: Set terminal colors").

(** Printable ASCII other than the backslash and the closing bracket. *)
Definition is_plain_char (c : N) : bool :=
  (32 <=? c) && (c <? 127) && negb (c =? 92) && negb (c =? 93).

(** A body as the builders produce them: plain characters, at least an
    index, a semicolon and a colour. *)
Definition body_ok (b : pystr) : Prop :=
  forallb is_plain_char b = true /\ (4 <= length b)%nat.




(** The persisted sequence cache, last of the [terminals]. *)
Definition sequences_file (E : env) : pystr :=
  path_join (CACHE_DIR E) (lit "sequences").

(** A list of lines as [save_colors] writes it. *)
Definition document (lines : list pystr) : pystr := join [10] lines ++ [10].

(** The lists at the end of a fresh process that sent and exported the
    palette [p]; the [sequences] are left out, no document is made of
    them. *)
Definition exported_lists (p : list pystr) : ColorType :=
  let c := ct_app ColorType_init (sequence_lines p true) in
  {| plain := p;
     xrdb := xrdb c ++ rofi_emacs_lines p;
     sequences := [];
     shell := shell c;
     scss := scss c;
     css := css c ++ [lit "}"];
     putty := putty c |}.

(** The content of each export document for the palette [p]. *)
Definition export_document (p : list pystr) (name : pystr)
    : option pystr :=
  let c := exported_lists p in
  if bool_decide (name = lit "colors") then Some (document (plain c))
  else if bool_decide (name = lit "colors.sh") then Some (document (shell c))
  else if bool_decide (name = lit "colors.css") then Some (document (css c))
  else if bool_decide (name = lit "colors.scss")
  then Some (document (scss c))
  else if bool_decide (name = lit "colors-putty.reg")
  then Some (document (putty c))
  else if bool_decide (name = lit "xcolors") then Some (document (xrdb c))
  else None.

(** The six export documents, by file name under the cache directory. *)
Definition export_files : list pystr :=
  [ lit "colors"; lit "colors.sh"; lit "colors.css"; lit "colors.scss";
    lit "colors-putty.reg"; lit "xcolors" ].

(** A process that has just started, with the files it finds. *)
Definition world_init (files : gmap (list N) (list N)) : world :=
  {| fs := files; ct := ColorType_init; args_notify := true; log := [] |}.

(** ** Concrete inputs *)

(** A swatch set of sixteen well-formed colours whose first colour starts
    with the hexadecimal digit [a]. *)
Definition raw_a1 : list pystr :=
  [ lit "#a1b2c3"; lit "#101010"; lit "#202020"; lit "#303030";
    lit "#404040"; lit "#505050"; lit "#606060"; lit "#707070";
    lit "#808080"; lit "#909090"; lit "#a0a0a0"; lit "#b0b0b0";
    lit "#c0c0c0"; lit "#d0d0d0"; lit "#e0e0e0"; lit "#f0f0f0" ].

(** A palette of sixteen well-formed colours. *)
Definition pal_demo : list pystr :=
  [ lit "#1a2b30"; lit "#1a2b31"; lit "#1a2b32"; lit "#1a2b33";
    lit "#1a2b34"; lit "#1a2b35"; lit "#1a2b36"; lit "#1a2b37";
    lit "#666666"; lit "#1a2b39"; lit "#1a2b3a"; lit "#1a2b3b";
    lit "#1a2b3c"; lit "#1a2b3d"; lit "#1a2b3e"; lit "#1a2b3f" ].

(** A machine on which every write succeeds, three terminals are open,
    and [convert] finds two colours fewer than it is asked for. *)
Definition E_demo : env :=
  {| nd_value := fun _ => None;
     ucn_lookup := fun _ => None;
     CACHE_DIR := lit "/home/u/.cache/wal";
     unwritable := fun _ => false;
     convert := fun n _ =>
       repeat (lit "0,0: (26,43,60)  #1A2B3C  srgb(26,43,60)")
              (Z.to_nat n - 2);
     which := fun _ => true;
     pts_entries := [lit "0"; lit "1"; lit "ptmx"; lit "2"] |}.

(** The same machine, but the second terminal belongs to someone else. *)
Definition E_refuse : env :=
  {| nd_value := fun _ => None;
     ucn_lookup := fun _ => None;
     CACHE_DIR := lit "/home/u/.cache/wal";
     unwritable := fun path => bool_decide (path = lit "/dev/pts/1");
     convert := fun n _ =>
       repeat (lit "0,0: (26,43,60)  #1A2B3C  srgb(26,43,60)")
              (Z.to_nat n - 2);
     which := fun _ => true;
     pts_entries := [lit "0"; lit "1"; lit "ptmx"; lit "2"] |}.

(** A cache with one scheme of two lines, the second not a colour. *)
Definition cache_demo : gmap (list N) (list N) :=
  {[ lit "/home/u/.cache/wal/schemes/_a_b.jpg"
       := lit "#111111" ++ [10] ++ lit "oops" ]}.

(** * The rest of the program: image choice, wallpaper, arguments *)

(** What else the program cannot decide: the environment variables, the
    lower-casing of text outside ASCII, which paths are directories and
    what they list, and the draws of the random number generator. *)
Record host : Type := {
  getenv : pystr -> option pystr;
  unicode_lower : pystr -> pystr;
  is_dir : pystr -> bool;
  listdir : pystr -> list pystr;
  randbelow : nat -> nat;
}.

Definition version : pystr := lit "0.1.6".

(** ** Library functions *)

(** The truth value of an optional string: [None] and [""] are false. *)
Definition truthy (s : option pystr) : bool :=
  match s with
  | Some (_ :: _) => true
  | _ => false
  end.

(** [s.lower()]: on ASCII text the letters [A] to [Z] are mapped to [a]
    to [z]; other text is left to the interpreter's tables. *)
Definition ascii_lower (c : N) : N :=
  if (65 <=? c) && (c <=? 90) then c + 32 else c.

Definition str_lower (H : host) (s : pystr) : pystr :=
  if forallb (fun c => c <? 128) s then map ascii_lower s
  else unicode_lower H s.

(** [pat in s] *)
Fixpoint contains (pat s : pystr) : bool :=
  starts_with pat s ||
  match s with
  | [] => false
  | _ :: rest => contains pat rest
  end.

(** [s.endswith(suffixes)] for a tuple of suffixes. *)
Definition ends_with (suf s : pystr) : bool :=
  starts_with (reverse suf) (reverse s).

Definition endswith_any (sufs : list pystr) (s : pystr) : bool :=
  existsb (fun suf => ends_with suf s) sufs.

(** [s.split(sep)] for a one-character separator. *)
Fixpoint split_on (sep : N) (cur s : pystr) : list pystr :=
  match s with
  | [] => [cur]
  | c :: rest =>
    if c =? sep then cur :: split_on sep [] rest
    else split_on sep (cur ++ [c]) rest
  end.

(** [os.path.basename(p)]: what follows the last slash. *)
Definition basename (p : pystr) : pystr :=
  default [] (last (split_on 47 [] p)).

(** A [pathlib] path on POSIX: the root ([""], ["/"] or ["//"]) and the
    components, among which there is no empty one and no ["."]. *)
Record ppath : Type := {
  p_root : pystr;
  p_parts : list pystr;
}.

Definition is_component (x : pystr) : bool :=
  negb (bool_decide (x = [])) && negb (bool_decide (x = [46])).

(** [pathlib.Path(s)]: exactly two leading slashes are kept, any other
    number of them is one root. *)
Definition Path (s : pystr) : ppath :=
  let rel := lstrip 47 s in
  let slashes := (length s - length rel)%nat in
  {| p_root :=
       if (slashes =? 0)%nat then []
       else if (slashes =? 2)%nat then [47; 47]
       else [47];
     p_parts := filter (fun x => is_component x = true) (split_on 47 [] rel) |}.

(** [str(p)] *)
Definition path_str (p : ppath) : pystr :=
  match p_root p ++ join [47] (p_parts p) with
  | [] => [46]
  | s => s
  end.

(** [p / name]: a rooted [name] replaces [p]. *)
Definition path_div (p : ppath) (name : pystr) : ppath :=
  let q := Path name in
  match p_root q with
  | [] => {| p_root := p_root p; p_parts := p_parts p ++ p_parts q |}
  | _ => q
  end.

(** [random.choice(seq)]: [IndexError] on an empty sequence, otherwise
    the element at a drawn index below the length. *)
Definition choice {A} (H : host) (seq : list A) : result A :=
  match seq with
  | [] => Raise IndexError
  | _ => getitem seq (randbelow H (length seq) mod length seq)%nat
  end.

(** ** The parsed command line *)

Record Args : Type := {
  arg_c : bool;
  arg_i : option pystr;
  arg_n : bool;
  arg_o : option pystr;
  arg_q : bool;
  arg_r : bool;
  arg_t : bool;
  arg_v : bool;
}.

Definition is_print (ev : event) : bool :=
  match ev with
  | EvPrint _ => true
  | _ => false
  end.

(** [sys.stdout = sys.stderr = open(os.devnull, "w")]: what [m] prints
    from then on reaches nobody. *)
Definition redirected {A} (m : M A) : M A := fun w =>
  let r := m w in
  (with_log (fst r)
     (log w ++ filter (fun ev => is_print ev = false)
                      (drop (length (log w)) (log (fst r)))),
   snd r).

(** [Args.notify = value] *)
Definition set_notify (value : bool) : M unit := fun w =>
  ({| fs := fs w; ct := ct w; args_notify := value; log := log w |},
   Done ()).

(** [shutil.rmtree(d)] for an existing directory [d]: every file below
    it is gone. *)
Definition rmtree (d : pystr) : M unit := fun w =>
  ({| fs := filter (fun kv => starts_with (d ++ lit "/") kv.1 = false) (fs w);
      ct := ct w; args_notify := args_notify w; log := log w |},
   Done ()).

Section Rest.

Context (E : env) (H : host).

(** [subprocess.Popen(cmd)] raises [FileNotFoundError], an [OSError],
    when the program is not on the search path. *)
Definition popen (cmd : list pystr) : M unit :=
  prog ← lift (getitem cmd 0);
  if which E prog then emit (EvSpawn cmd) else raise OSError.

(** *** Image choice *)

Definition file_types : list pystr :=
  [ lit ".png"; lit ".jpg"; lit ".jpeg"; lit ".jpe"; lit ".gif" ].

(** [current_img] is a [pathlib] path, which no file name equals, unless
    the wallpaper record could be read. *)
Definition get_image (img : pystr) : M pystr :=
  (if negb (which E (lit "convert")) then
     print (lit "error: imagemagick not found, exiting..." ++ [10] ++
            lit "error: wal requires imagemagick to function.");;
     exit 1%Z
   else mret ());;
  let image := Path img in
  image_is_file ← is_file (path_str image);
  wal_img ←
    (if image_is_file : bool then mret image
     else if is_dir H (path_str image) then
       let current_img := wal_file E in
       current_is_file ← is_file current_img;
       current_img ←
         (if current_is_file : bool then
            current_img ← read_file current_img;
            first ← lift (getitem current_img 0);
            mret (Some (basename first))
          else mret None);
       let images :=
         filter (fun img => endswith_any file_types img = true /\
                            Some img <> current_img)
                (listdir H (path_str image)) in
       wal_img ← lift (choice H images);
       mret (path_div image wal_img)
     else
       print (lit "error: No valid image file found.");;
       exit 1%Z);
  print (lit "image: Using image " ++ path_str wal_img);;
  mret (path_str wal_img).

(** *** Wallpaper *)

Definition get_desktop_env : option pystr :=
  let desktop := getenv H (lit "XDG_CURRENT_DESKTOP") in
  if truthy desktop then desktop else
  let desktop := getenv H (lit "DESKTOP_SESSION") in
  if truthy desktop then desktop else
  let desktop := getenv H (lit "GNOME_DESKTOP_SESSION_ID") in
  if truthy desktop then Some (lit "GNOME") else
  let desktop := getenv H (lit "MATE_DESKTOP_SESSION_ID") in
  if truthy desktop then Some (lit "MATE") else
  None.

Definition xfconf (path img : pystr) : M unit :=
  disown [ lit "xfconf-query"; lit "--channel"; lit "xfce4-desktop";
           lit "--property"; path; lit "--set"; img ].

Definition set_desktop_wallpaper (desktop img : pystr) : M unit :=
  let desktop := str_lower H desktop in
  if contains (lit "xfce") desktop || contains (lit "xubuntu") desktop then
    xfconf (lit "/backdrop/screen0/monitor0/image-path") img;;
    xfconf (lit "/backdrop/screen0/monitor0/workspace0/last-image") img
  else if contains (lit "muffin") desktop || contains (lit "cinnamon") desktop
  then
    popen [ lit "gsettings"; lit "set"; lit "org.cinnamon.desktop.background";
            lit "picture-uri"; lit "file:///" ++ img ]
  else if contains (lit "gnome") desktop then
    popen [ lit "gsettings"; lit "set"; lit "org.gnome.desktop.background";
            lit "picture-uri"; lit "file:///" ++ img ]
  else if contains (lit "mate") desktop then
    popen [ lit "gsettings"; lit "set"; lit "org.mate.background";
            lit "picture-filename"; img ]
  else mret ().

(** Returns [0], or [None] when no setter was found. *)
Definition set_wallpaper (img : pystr) : M (option Z) :=
  let desktop := get_desktop_env in
  let finish :=
    print (lit "wallpaper: Set the new wallpaper");;
    mret (Some 0%Z) in
  if truthy desktop then
    set_desktop_wallpaper (default [] desktop) img;; finish
  else if which E (lit "feh") then
    popen [lit "feh"; lit "--bg-fill"; img];; finish
  else if which E (lit "nitrogen") then
    popen [lit "nitrogen"; lit "--set-zoom-fill"; img];; finish
  else if which E (lit "bgs") then
    popen [lit "bgs"; img];; finish
  else if which E (lit "hsetroot") then
    popen [lit "hsetroot"; lit "-fill"; img];; finish
  else if which E (lit "habak") then
    popen [lit "habak"; lit "-mS"; img];; finish
  else
    print (lit "error: No wallpaper setter found.");;
    mret None.

(** *** Arguments *)

(** [create_cache_dir], where the directory can be made or is there. *)
Definition create_cache_dir : M unit := mret ().

(** [process_args(args)] with [argc = len(sys.argv)]; the cache
    directory exists, [main] has made it. *)
Definition process_args (fuel : nat) (argc : nat) (args : Args) : M unit :=
  (if negb (1 <? argc)%nat then
     print (lit "error: wal needs to be given arguments to run." ++ [10] ++
            lit "       Refer to " ++ [34] ++ lit "wal -h" ++ [34] ++
            lit " for more info.");;
     exit 1%Z
   else mret ());;
  (if arg_q args then redirected else id)
    ((if arg_q args then set_notify false else mret ());;
     (if arg_c args then
        rmtree (path_join (CACHE_DIR E) (lit "schemes"));;
        create_cache_dir
      else mret ());;
     (if arg_r args then reload_colors E (arg_t args) else mret ());;
     (if arg_v args then
        print (lit "wal " ++ version);;
        exit 0%Z
      else mret ());;
     (if truthy (arg_i args) then
        image ← get_image (default [] (arg_i args));
        colors ← get_colors E fuel image;
        plain_assign colors;;
        (if negb (arg_n args) then set_wallpaper image;; mret ()
         else mret ());;
        (c ← get_ct; send_sequences E (plain c) (arg_t args));;
        (c ← get_ct; export_colors E (plain c))
      else mret ());;
     (if truthy (arg_o args) then disown [default [] (arg_o args)]
      else mret ())).

End Rest.

(** ** Further notions *)

(** The shades of [grey_table]. *)
Definition grey_shades : list pystr :=
  [ lit "#666666"; lit "#757575"; lit "#999999"; lit "#8a8a8a";
    lit "#a1a1a1" ].

(** A table of decimal digit values, as the Unicode one is. *)
Definition digit_valued (nd : N -> option Z) : Prop :=
  forall c v, nd c = Some v -> (0 <= v <= 9)%Z.

(** The slots of a swatch set that [sort_colors] copies. *)
Definition copied_slots : list nat := [0; 9; 10; 11; 12; 13; 14; 15]%nat.

(** The byte that two hexadecimal digits write. *)
Definition hex_pair (a b : N) : N :=
  16 * default 0 (hex_value a) + default 0 (hex_value b).


(** A token as [gen_colors] extracts it: a hash sign and six characters
    of one line. *)
Definition is_token (t : pystr) : bool :=
  match t with
  | c :: rest => (c =? 35) && (length rest =? 6)%nat && forallb re_dot rest
  | [] => false
  end.

(** What [gen_colors] does to the outside: calls of [convert] on its image
    and progress messages. *)
Definition generator_event (img : pystr) (ev : event) : bool :=
  match ev with
  | EvConvert _ i => bool_decide (i = img)
  | EvPrint _ => true
  | _ => false
  end.

(** Printable ASCII, the characters [repr] leaves as they are. *)
Definition is_printable (c : N) : bool := (32 <=? c) && (c <? 127).

(** A line that [splitlines] does not cut. *)
Definition no_linebreak (l : pystr) : bool :=
  forallb (fun c => negb (is_linebreak c)) l.

(** The lines [convert] prints for an image are [bytes]: octets. *)
Definition octet_lines (E : env) (img : pystr) : Prop :=
  forall n, Forall (Forall (fun c => c < 256)) (convert E n img).

(** A colour that [hex_to_rgb] accepts. *)
Definition convertible (c : pystr) : bool :=
  match hex_to_rgb c with
  | Ok _ => true
  | Raise _ => false
  end.

(** *** Which files a computation may change *)

(** [w'] differs from [w] at most on the files of [P]. *)
Definition frame (P : pystr -> Prop) (w w' : world) : Prop :=
  forall x, ~ P x -> fs w' !! x = fs w !! x.

(** A computation that changes files of [P] only, however it ends. *)
Definition confined (P : pystr -> Prop) {A} (m : M A) : Prop :=
  forall w, frame P w (fst (m w)).

(** The paths of the six export documents. *)
Definition export_paths (E : env) : list pystr :=
  map (path_join (CACHE_DIR E)) export_files.

(** *** Wallpaper setters *)

(** The words [set_desktop_wallpaper] looks for in a desktop name. *)
Definition desktop_keywords : list pystr :=
  [ lit "xfce"; lit "xubuntu"; lit "muffin"; lit "cinnamon"; lit "gnome";
    lit "mate" ].

(** The programs [set_wallpaper] tries without a desktop, in its order,
    each with the options it is given before the image. *)
Definition fallback_setters : list (pystr * list pystr) :=
  [ (lit "feh", [lit "--bg-fill"]);
    (lit "nitrogen", [lit "--set-zoom-fill"]);
    (lit "bgs", []);
    (lit "hsetroot", [lit "-fill"]);
    (lit "habak", [lit "-mS"]) ].

(** A machine with a desktop that [wal] has no command for. *)
Definition H_kde : host :=
  {| getenv := fun name =>
       if bool_decide (name = lit "XDG_CURRENT_DESKTOP") then Some (lit "KDE")
       else None;
     unicode_lower := fun s => s;
     is_dir := fun _ => false;
     listdir := fun _ => [];
     randbelow := fun _ => 0%nat |}.

(** A machine without a desktop session. *)
Definition H_bare : host :=
  {| getenv := fun _ => None;
     unicode_lower := fun s => s;
     is_dir := fun _ => false;
     listdir := fun _ => [];
     randbelow := fun _ => 0%nat |}.

(** A GNOME session on a machine where [gsettings] is not installed but
    everything else is. *)
Definition H_gnome : host :=
  {| getenv := fun name =>
       if bool_decide (name = lit "XDG_CURRENT_DESKTOP")
       then Some (lit "ubuntu:GNOME")
       else None;
     unicode_lower := fun s => s;
     is_dir := fun _ => false;
     listdir := fun _ => [];
     randbelow := fun _ => 0%nat |}.

Definition E_no_gsettings : env :=
  {| nd_value := fun _ => None;
     ucn_lookup := fun _ => None;
     CACHE_DIR := lit "/home/u/.cache/wal";
     unwritable := fun _ => false;
     convert := fun n _ =>
       repeat (lit "0,0: (26,43,60)  #1A2B3C  srgb(26,43,60)")
              (Z.to_nat n - 2);
     which := fun prog => negb (bool_decide (prog = lit "gsettings"));
     pts_entries := [lit "0"] |}.

(** *** Image choice *)

(** The entries of a directory that [get_image] chooses from, given the
    name of the current wallpaper if there is one. *)
Definition candidates (H : host) (dir : pystr) (current : option pystr)
    : list pystr :=
  filter (fun img => endswith_any file_types img = true /\
                     Some img <> current)
         (listdir H dir).

(** What [get_image] does to the outside: it asks for files, reads the
    wallpaper record and prints. *)
Definition image_event (ev : event) : bool :=
  match ev with
  | EvIsFile _ | EvRead _ | EvPrint _ => true
  | _ => false
  end.

(** A directory with three entries, two of them images, on a machine
    whose generator draws the last candidate. *)
Definition H_pictures : host :=
  {| getenv := fun _ => None;
     unicode_lower := fun s => s;
     is_dir := fun p => bool_decide (p = lit "/pics");
     listdir := fun _ => [lit "notes.txt"; lit "a.png"; lit "b.jpg"];
     randbelow := fun n => (n - 1)%nat |}.

(** A directory whose only image is the current wallpaper. *)
Definition H_single : host :=
  {| getenv := fun _ => None;
     unicode_lower := fun s => s;
     is_dir := fun p => bool_decide (p = lit "/pics");
     listdir := fun _ => [lit "notes.txt"; lit "b.jpg"];
     randbelow := fun _ => 0%nat |}.

Definition record_demo : gmap (list N) (list N) :=
  {[ lit "/home/u/.cache/wal/wal" := lit "/pics/b.jpg" ]}.

(** *** What a run shows to the outside *)

(** A desktop notification. *)
Definition is_notification (ev : event) : bool :=
  match ev with
  | EvSpawn (prog :: _) => bool_decide (prog = lit "notify-send")
  | _ => false
  end.

(** From [w] to [w'] the log has only grown; and if notifications were
    switched off in [w], they still are in [w'] and none was sent. *)
Definition discreet (w w' : world) : Prop :=
  exists added,
    log w' = log w ++ added /\
    (args_notify w = false ->
     args_notify w' = false /\
     forallb (fun ev => negb (is_notification ev)) added = true).

Definition unobtrusive {A} (m : M A) : Prop :=
  forall w, discreet w (fst (m w)).

(** The files [wal] works on: what is below its cache directory, and the
    pseudo-terminals. *)
Definition own_path (E : env) (x : pystr) : Prop :=
  starts_with (CACHE_DIR E ++ lit "/") x = true \/
  starts_with (lit "/dev/pts/") x = true.

(** Command lines. *)
Definition args_none : Args :=
  {| arg_c := false; arg_i := None; arg_n := false; arg_o := None;
     arg_q := false; arg_r := false; arg_t := false; arg_v := false |}.

(** [wal -r -i /a/b.jpg -o script] *)
Definition args_reload : Args :=
  {| arg_c := false; arg_i := Some (lit "/a/b.jpg"); arg_n := false;
     arg_o := Some (lit "script"); arg_q := false; arg_r := true;
     arg_t := false; arg_v := false |}.

(** [wal -v -i /a/b.jpg] *)
Definition args_version : Args :=
  {| arg_c := false; arg_i := Some (lit "/a/b.jpg"); arg_n := false;
     arg_o := None; arg_q := false; arg_r := false; arg_t := false;
     arg_v := true |}.

(** [wal -q -n -i /a/b.jpg] *)
Definition args_quiet : Args :=
  {| arg_c := false; arg_i := Some (lit "/a/b.jpg"); arg_n := true;
     arg_o := None; arg_q := true; arg_r := false; arg_t := false;
     arg_v := false |}.

(** [wal -c -n -i /a/b.jpg] *)
Definition args_clear : Args :=
  {| arg_c := true; arg_i := Some (lit "/a/b.jpg"); arg_n := true;
     arg_o := None; arg_q := false; arg_r := false; arg_t := false;
     arg_v := false |}.

(** The image and a palette cached for it. *)
Definition files_demo : gmap (list N) (list N) :=
  {[ lit "/a/b.jpg" := [];
     lit "/home/u/.cache/wal/schemes/_a_b.jpg" := join [10] pal_demo ]}.

(** *** The parts of [process_args] *)

(** What [process_args] does with an image once it is chosen. *)
Definition use_image (E : env) (H : host) (fuel : nat) (args : Args)
    (image : pystr) : M unit :=
  colors ← get_colors E fuel image;
  plain_assign colors;;
  (if negb (arg_n args) then set_wallpaper E H image;; mret ()
   else mret ());;
  (c ← get_ct; send_sequences E (plain c) (arg_t args));;
  (c ← get_ct; export_colors E (plain c)).

(** [process_args] from [-r] on. *)
Definition after_flags (E : env) (H : host) (fuel : nat) (args : Args)
    : M unit :=
  (if arg_r args then reload_colors E (arg_t args) else mret ());;
  (if arg_v args then
     print (lit "wal " ++ version);;
     exit 0%Z
   else mret ());;
  (if truthy (arg_i args) then
     image ← get_image E H (default [] (arg_i args));
     use_image E H fuel args image
   else mret ());;
  (if truthy (arg_o args) then disown [default [] (arg_o args)]
   else mret ()).

(** The files that [-c] leaves. *)
Definition cleared (E : env) (files : gmap (list N) (list N))
    : gmap (list N) (list N) :=
  filter (fun kv =>
            starts_with (path_join (CACHE_DIR E) (lit "schemes") ++ lit "/")
                        kv.1 = false)
         files.

(** The part of a log that was added to [before]. *)
Definition added_to (before : world) (after : world) : list event :=
  drop (length (log before)) (log after).
(** * Properties *)

(** ** The library functions on small inputs *)

Example int_of_char_7 nd : int_of_char nd 55 = Ok 7%Z.
Proof. reflexivity. Qed.

Example int_of_char_f nd : int_of_char nd 102 = Raise ValueError.
Proof. reflexivity. Qed.

Example str_int_708 : str_int 708 = lit "708".
Proof. reflexivity. Qed.

Example hex_to_rgb_orange : hex_to_rgb (lit "#ff6409") = Ok (lit "255,100,9").
Proof. reflexivity. Qed.

Example hex_to_rgb_short : hex_to_rgb (lit "#ff640") = Raise ValueError.
Proof. reflexivity. Qed.

Example fix_escape_sequence :
  fix_escape (fun _ => None) (lit "\033]11;#101010\007")
  = Ok ([27] ++ lit "]11;#101010" ++ [7]).
Proof. reflexivity. Qed.

Example fix_escape_octal_max :
  fix_escape (fun _ => None) (lit "\7777") = Ok [511; 55].
Proof. reflexivity. Qed.

Example fix_escape_truncated :
  fix_escape (fun _ => None) (lit "\x4") = Raise UnicodeDecodeError.
Proof. reflexivity. Qed.

Example fix_escape_euro :
  fix_escape (fun _ => None) [8364] = Ok [226; 130; 172].
Proof. reflexivity. Qed.

Example splitlines_crlf :
  splitlines (lit "#111111" ++ [13; 10] ++ lit "#222222" ++ [10])
  = [lit "#111111"; lit "#222222"].
Proof. reflexivity. Qed.

Example splitlines_blank : splitlines [10; 10; 97] = [[]; []; [97]].
Proof. reflexivity. Qed.

Example bytes_repr_line :
  bytes_repr (lit "0,0: (1,2,3)  #010203  srgb(1,2,3)" ++ [10])
  = lit "b'0,0: (1,2,3)  #010203  srgb(1,2,3)\n'".
Proof. reflexivity. Qed.

Example hex_token_line :
  hex_token (lit "0,0: (1,2,3)  #010203  srgb(1,2,3)" ++ [10])
  = Ok (lit "#010203").
Proof. reflexivity. Qed.

Example hex_token_header :
  hex_token (lit "# ImageMagick pixel enumeration: 16,1,255,srgb" ++ [10])
  = Ok (lit "# Image").
Proof. reflexivity. Qed.

Example sub_708_closing :
  sub_708 (lit "a" ++ [7; 27] ++ lit "]708;#123456" ++ [7] ++ lit "b")
  = lit "a" ++ [7] ++ lit "b".
Proof. reflexivity. Qed.

Example sub_708_unanchored :
  sub_708 ([27] ++ lit "]708;#123456" ++ [7])
  = [27] ++ lit "]708;#123456" ++ [7].
Proof. reflexivity. Qed.

Example cache_file_of_path :
  cache_file_of E_demo (lit "/home/u/pics/a.jpg")
  = lit "/home/u/.cache/wal/schemes/_home_u_pics_a.jpg".
Proof. reflexivity. Qed.

(** ** The palette mapper *)

Lemma getitem_lookup {A} (l : list A) i x :
  l !! i = Some x -> getitem l i = Ok x.
Proof. unfold getitem. intros ->. reflexivity. Qed.

Lemma is_digit_cases d :
  is_digit d = true ->
  d = 48 \/ d = 49 \/ d = 50 \/ d = 51 \/ d = 52 \/
  d = 53 \/ d = 54 \/ d = 55 \/ d = 56 \/ d = 57.
Proof.
  unfold is_digit. intros H. apply andb_true_iff in H as [H1 H2].
  apply N.leb_le in H1, H2. lia.
Qed.

Lemma int_of_char_digit nd d :
  is_digit d = true -> int_of_char nd d = Ok (Z.of_N (d - 48)).
Proof.
  intros H. unfold int_of_char. unfold is_digit in H. rewrite H.
  apply andb_true_iff in H as [_ H]. apply N.leb_le in H.
  destruct (N.ltb_spec d 128); [reflexivity | lia].
Qed.

Lemma int_of_char_not_digit nd d :
  d < 128 -> is_digit d = false -> int_of_char nd d = Raise ValueError.
Proof.
  intros Hlt Hd. unfold int_of_char. unfold is_digit in Hd. rewrite Hd.
  destruct (N.ltb_spec d 128); [reflexivity | lia].
Qed.

Lemma grey_table_total d :
  is_digit d = true -> is_Some (grey_table !! Z.of_N (d - 48)).
Proof.
  intros H.
  destruct (is_digit_cases d H)
    as [->|[->|[->|[->|[->|[->|[->|[->|[->| ->]]]]]]]]];
    vm_compute; eauto.
Qed.

(** The half of the grey rule that the code keeps: a decimal digit after
    the hash sign selects its entry of the table. *)
Lemma set_grey_digit nd colors c0 c7 d :
  colors !! 0%nat = Some c0 -> c0 !! 1%nat = Some d ->
  colors !! 7%nat = Some c7 -> is_digit d = true ->
  exists g, grey_table !! Z.of_N (d - 48) = Some g /\ set_grey nd colors = Ok g.
Proof.
  intros H0 H1 H7 Hd. destruct (grey_table_total d Hd) as [g Hg].
  exists g. split; [exact Hg|].
  unfold set_grey. rewrite (getitem_lookup _ _ _ H0). cbn.
  rewrite (getitem_lookup _ _ _ H1). cbn.
  rewrite (int_of_char_digit _ _ Hd). cbn.
  rewrite (getitem_lookup _ _ _ H7).
  change (Ok (dict_get grey_table (Z.of_N (d - 48)) c7) = Ok g).
  unfold dict_get. rewrite Hg. reflexivity.
Qed.

(** The other half: [int] rejects every ASCII character that is not a
    decimal digit, so the default of [.get] is never reached. *)
Lemma set_grey_not_digit nd colors c0 d :
  colors !! 0%nat = Some c0 -> c0 !! 1%nat = Some d ->
  d < 128 -> is_digit d = false ->
  set_grey nd colors = Raise ValueError.
Proof.
  intros H0 H1 Hlt Hd. unfold set_grey.
  rewrite (getitem_lookup _ _ _ H0). cbn. rewrite (getitem_lookup _ _ _ H1). cbn.
  rewrite (int_of_char_not_digit _ _ Hlt Hd). reflexivity.
Qed.

Lemma at_least_16 {A} (l : list A) :
  (16 <= length l)%nat ->
  exists a0 a1 a2 a3 a4 a5 a6 a7 a8 a9 a10 a11 a12 a13 a14 a15 t,
    l = [a0;a1;a2;a3;a4;a5;a6;a7;a8;a9;a10;a11;a12;a13;a14;a15] ++ t.
Proof.
  intros H.
  do 16 (destruct l as [|? l]; [cbn in H; lia|]).
  repeat eexists.
Qed.

(** Whenever [set_grey] returns, the mapper lays out sixteen slots as the
    specification describes. *)
Lemma sort_colors_shape nd raw g :
  (16 <= length raw)%nat -> set_grey nd raw = Ok g ->
  exists p, sort_colors nd raw = Ok p /\ length p = 16%nat /\
    p !! 0%nat = raw !! 0%nat /\ p !! 8%nat = Some g /\
    forall i, (1 <= i <= 7)%nat ->
      p !! i = raw !! (i + 8)%nat /\ p !! (i + 8)%nat = raw !! (i + 8)%nat.
Proof.
  intros Hlen Hg.
  destruct (at_least_16 raw Hlen)
    as (a0&a1&a2&a3&a4&a5&a6&a7&a8&a9&a10&a11&a12&a13&a14&a15&t&->).
  unfold sort_colors. rewrite Hg. cbn.
  eexists. split; [reflexivity|]. split; [reflexivity|]. split; [reflexivity|].
  split; [reflexivity|].
  intros i Hi.
  assert (i = 1 \/ i = 2 \/ i = 3 \/ i = 4 \/ i = 5 \/ i = 6 \/ i = 7)%nat
    as Hc by lia.
  destruct Hc as [->|[->|[->|[->|[->|[->| ->]]]]]]; split; reflexivity.
Qed.

Lemma sort_colors_grey_error nd raw e :
  (16 <= length raw)%nat -> set_grey nd raw = Raise e ->
  sort_colors nd raw = Raise e.
Proof.
  intros Hlen Hg.
  destruct (at_least_16 raw Hlen)
    as (a0&a1&a2&a3&a4&a5&a6&a7&a8&a9&a10&a11&a12&a13&a14&a15&t&->).
  unfold sort_colors. rewrite Hg. reflexivity.
Qed.

(** Every swatch set whose first colour is well formed and does not start
    with a decimal digit stops the mapper. *)
Lemma sort_colors_hex_letter nd raw c0 d :
  (16 <= length raw)%nat -> raw !! 0%nat = Some c0 -> is_color c0 = true ->
  c0 !! 1%nat = Some d -> is_digit d = false ->
  sort_colors nd raw = Raise ValueError.
Proof.
  intros Hlen H0 Hc H1 Hd. apply sort_colors_grey_error; [exact Hlen|].
  apply (set_grey_not_digit nd raw c0 d H0 H1); [|exact Hd].
  destruct c0 as [|h [|a1 [|a2 [|a3 [|a4 [|a5 [|a6 [|]]]]]]]];
    try discriminate Hc.
  cbn [is_color forallb] in Hc. injection H1 as <-.
  apply andb_true_iff in Hc as [_ Hc]. apply andb_true_iff in Hc as [Ha _].
  unfold is_hex, is_digit, is_lower_af, is_upper_af in Ha.
  repeat (apply orb_true_iff in Ha as [Ha|Ha]);
    apply andb_true_iff in Ha as [_ Ha]; apply N.leb_le in Ha; lia.
Qed.

(** C1.  On the swatch set [raw_a1], sixteen well-formed colours, the
    mapper returns no palette at all: it raises [ValueError], whatever the
    interpreter's digit table is.  (For swatch sets whose first colour
    starts with a decimal digit the layout holds, [sort_colors_shape].) *)
Theorem sort_colors_raises_on_hex_letter :
  forall nd,
    forallb is_color raw_a1 = true /\ length raw_a1 = 16%nat /\
    sort_colors nd raw_a1 = Raise ValueError.
Proof. intros nd. repeat split. Qed.

(** C2.  With a first colour [#a1b2c3] the grey slot is not [raw[7]]:
    [set_grey] raises [ValueError] before the table is consulted, although
    [raw[7]] is there. *)
Theorem set_grey_raises_on_hex_letter :
  forall nd,
    raw_a1 !! 7%nat = Some (lit "#707070") /\
    set_grey nd raw_a1 = Raise ValueError /\
    set_grey nd raw_a1 <> Ok (lit "#707070").
Proof. intros nd. repeat split. discriminate. Qed.

(** ** Running the process *)

Lemma bind_done {A B} (m : M A) (f : A -> M B) w w' a :
  m w = (w', Done a) -> (m ≫= f) w = f a w'.
Proof. intros H. unfold mbind, M_bind. rewrite H. reflexivity. Qed.

Lemma bind_fail {A B} (m : M A) (f : A -> M B) w w' e :
  m w = (w', Fail e) -> (m ≫= f) w = (w', Fail e).
Proof. intros H. unfold mbind, M_bind. rewrite H. reflexivity. Qed.

Lemma bind_diverge {A B} (m : M A) (f : A -> M B) w w' :
  m w = (w', Diverge) -> (m ≫= f) w = (w', Diverge).
Proof. intros H. unfold mbind, M_bind. rewrite H. reflexivity. Qed.

Lemma requests_snoc l ev :
  requests (l ++ [ev]) = requests l ++ requests [ev].
Proof. unfold requests. apply omap_app. Qed.

(** ** The generator's retry loop *)

Section Generator.

Context (E : env) (img : pystr).

(** The lines [convert] prints when asked for [16 + j] colours. *)
#[local] Abbreviation raw j := (convert E (16 + Z.of_nat j) img) (only parsing).

Lemma loop_test (l : list pybytes) :
  (Z.of_nat (length l) - 1 <? COLOR_COUNT)%Z
  = bool_decide (length (tail l) < 16)%nat.
Proof.
  unfold COLOR_COUNT. destruct l as [|x l]; cbn [tail length].
  - reflexivity.
  - case_bool_decide; [apply Z.ltb_lt | apply Z.ltb_ge]; lia.
Qed.

Lemma gen_colors_loop_step fuel i w :
  (length (tail (raw i)) < 16)%nat ->
  gen_colors_loop E (S fuel) img (Z.of_nat i) (raw i) w =
  gen_colors_loop E fuel img (Z.of_nat (S i)) (raw (S i))
    {| fs := fs w; ct := ct w; args_notify := args_notify w;
       log := (log w ++ [EvConvert (16 + Z.of_nat (S i)) img]) ++
              [EvPrint ((lit "colors: Imagemagick couldn't generate a " ++
                         str_int COLOR_COUNT ++
                         lit " color palette, trying a larger palette size " ++
                         str_int (COLOR_COUNT + Z.of_nat (S i))) ++ [10])] |}.
Proof.
  intros Hshort. cbn [gen_colors_loop]. rewrite loop_test.
  rewrite bool_decide_eq_true_2 by exact Hshort.
  replace (Z.of_nat i + 1)%Z with (Z.of_nat (S i)) by lia.
  reflexivity.
Qed.

Lemma gen_colors_loop_stop fuel i w :
  (16 <= length (tail (raw i)))%nat ->
  gen_colors_loop E fuel img (Z.of_nat i) (raw i) w = (w, Done (raw i)).
Proof.
  intros Hlong. destruct fuel; cbn [gen_colors_loop]; rewrite loop_test;
    rewrite bool_decide_eq_false_2 by lia; reflexivity.
Qed.

Lemma counts_from_S i n :
  counts_from i (S n) = (16 + Z.of_nat i)%Z :: counts_from (S i) n.
Proof. reflexivity. Qed.

(** The loop stops at the first sufficient answer and has by then asked
    for every count in between, in increasing order. *)
Lemma gen_colors_loop_finds d :
  forall i fuel w,
    (d <= fuel)%nat ->
    (forall j, (i <= j < i + d)%nat -> (length (tail (raw j)) < 16)%nat) ->
    (16 <= length (tail (raw (i + d))))%nat ->
    exists w',
      gen_colors_loop E fuel img (Z.of_nat i) (raw i) w
        = (w', Done (raw (i + d))) /\
      fs w' = fs w /\ ct w' = ct w /\ args_notify w' = args_notify w /\
      requests (log w') = requests (log w) ++ counts_from (S i) d.
Proof.
  induction d as [|d IH]; intros i fuel w Hfuel Hshort Hlong.
  - rewrite Nat.add_0_r in Hlong |- *.
    exists w. rewrite gen_colors_loop_stop by exact Hlong.
    repeat split. cbn. by rewrite app_nil_r.
  - destruct fuel as [|fuel]; [lia|].
    rewrite gen_colors_loop_step by (apply Hshort; lia).
    edestruct (IH (S i) fuel) as (w' & Hrun & Hfs & Hct & Hn & Hreq);
      [lia | | | ].
    + intros j Hj. apply Hshort. lia.
    + replace (S i + d)%nat with (i + S d)%nat by lia. exact Hlong.
    + exists w'. rewrite Hrun.
      replace (S i + d)%nat with (i + S d)%nat by lia.
      split; [reflexivity|]. cbn in Hfs, Hct, Hn, Hreq.
      repeat (split; [assumption|]).
      rewrite Hreq, !requests_snoc, app_nil_r, counts_from_S.
      cbn. by rewrite <- app_assoc.
Qed.

(** When no answer is ever sufficient the loop outlasts any bound. *)
Lemma gen_colors_loop_spins fuel :
  forall i w,
    (forall j, (i <= j)%nat -> (length (tail (raw j)) < 16)%nat) ->
    exists w',
      gen_colors_loop E fuel img (Z.of_nat i) (raw i) w = (w', Diverge) /\
      fs w' = fs w /\ ct w' = ct w /\
      requests (log w') = requests (log w) ++ counts_from (S i) fuel.
Proof.
  induction fuel as [|fuel IH]; intros i w Hshort.
  - exists w. cbn [gen_colors_loop]. rewrite loop_test.
    rewrite bool_decide_eq_true_2 by (apply Hshort; lia).
    repeat split. cbn. by rewrite app_nil_r.
  - rewrite gen_colors_loop_step by (apply Hshort; lia).
    edestruct (IH (S i)) as (w' & Hrun & Hfs & Hct & Hreq).
    + intros j Hj. apply Hshort. lia.
    + exists w'. rewrite Hrun. split; [reflexivity|].
      cbn in Hfs, Hct, Hreq. repeat (split; [assumption|]).
      rewrite Hreq, !requests_snoc, app_nil_r, counts_from_S.
      cbn. by rewrite <- app_assoc.
Qed.

Lemma gen_colors_start fuel w :
  gen_colors E fuel img w =
  (raw_colors ← gen_colors_loop E fuel img 0 (raw 0);
   match raw_colors with
   | [] => raise IndexError
   | _ :: raw_colors => lift (hex_tokens raw_colors)
   end)
    {| fs := fs w; ct := ct w; args_notify := args_notify w;
       log := log w ++ [EvConvert 16 img] |}.
Proof. reflexivity. Qed.

Lemma gen_colors_finds k fuel w :
  (k <= fuel)%nat ->
  (forall j, (j < k)%nat -> (length (tail (raw j)) < 16)%nat) ->
  (16 <= length (tail (raw k)))%nat ->
  exists w',
    gen_colors E fuel img w =
      (w', match hex_tokens (tail (raw k)) with
           | Ok tokens => Done tokens
           | Raise e => Fail e
           end) /\
    fs w' = fs w /\ ct w' = ct w /\ args_notify w' = args_notify w /\
    requests (log w') = requests (log w) ++ counts_from 0 (S k).
Proof.
  intros Hfuel Hshort Hlong. rewrite gen_colors_start.
  edestruct (gen_colors_loop_finds k 0 fuel) as (w' & Hrun & Hfs & Hct & Hn & Hreq);
    [exact Hfuel | intros j Hj; apply Hshort; lia | exact Hlong |].
  exists w'. change (Z.of_nat 0) with 0%Z in Hrun.
  rewrite (bind_done _ _ _ _ _ Hrun). cbn in Hfs, Hct, Hn, Hreq.
  repeat split; try assumption.
  - cbn [Nat.add] in *. destruct (raw k) as [|hd tl]; [cbn in Hlong; lia|].
    cbn [tail]. unfold lift. destruct (hex_tokens tl); reflexivity.
  - rewrite Hreq, requests_snoc, counts_from_S. cbn. by rewrite <- app_assoc.
Qed.

Lemma gen_colors_spins fuel w :
  (forall j, (length (tail (raw j)) < 16)%nat) ->
  exists w',
    gen_colors E fuel img w = (w', Diverge) /\
    fs w' = fs w /\ ct w' = ct w /\
    requests (log w') = requests (log w) ++ counts_from 0 (S fuel).
Proof.
  intros Hshort. rewrite gen_colors_start.
  edestruct (gen_colors_loop_spins fuel 0) as (w' & Hrun & Hfs & Hct & Hreq);
    [intros j _; apply Hshort|].
  exists w'. change (Z.of_nat 0) with 0%Z in Hrun.
  rewrite (bind_diverge _ _ _ _ Hrun). cbn in Hfs, Hct, Hreq.
  repeat split; try assumption.
  rewrite Hreq, requests_snoc, counts_from_S. cbn. by rewrite <- app_assoc.
Qed.

End Generator.

(** C9.  [gen_colors] asks [convert] for 16 colours and then, as long as
    the answer has fewer than 16 lines after its header, for one colour
    more.  If the answer to [16 + k] is the first sufficient one, the
    function ends (given [k] iterations) after the requests
    [16, 17, ..., 16 + k], with the hex tokens of that answer or the
    exception of their extraction; if no answer is ever sufficient it is
    still running after any number of iterations, having asked for
    [16, ..., 16 + fuel]. *)
Theorem gen_colors_retry (E : env) (img : pystr) (w : world) :
  (forall k,
      (forall j, (j < k)%nat ->
         (length (tail (convert E (16 + Z.of_nat j) img)) < 16)%nat) ->
      (16 <= length (tail (convert E (16 + Z.of_nat k) img)))%nat ->
      forall fuel, (k <= fuel)%nat ->
        snd (gen_colors E fuel img w) =
          match hex_tokens (tail (convert E (16 + Z.of_nat k) img)) with
          | Ok tokens => Done tokens
          | Raise e => Fail e
          end /\
        snd (gen_colors E fuel img w) <> Diverge /\
        requests (log (fst (gen_colors E fuel img w)))
          = requests (log w) ++ counts_from 0 (S k)) /\
  ((forall j, (length (tail (convert E (16 + Z.of_nat j) img)) < 16)%nat) ->
   forall fuel,
     snd (gen_colors E fuel img w) = Diverge /\
     requests (log (fst (gen_colors E fuel img w)))
       = requests (log w) ++ counts_from 0 (S fuel)).
Proof.
  split.
  - intros k Hshort Hlong fuel Hfuel.
    destruct (gen_colors_finds E img k fuel w Hfuel Hshort Hlong)
      as (w' & -> & _ & _ & _ & Hreq).
    cbn [fst snd]. split; [reflexivity|]. split; [|exact Hreq].
    destruct (hex_tokens _); discriminate.
  - intros Hshort fuel.
    destruct (gen_colors_spins E img fuel w Hshort) as (w' & -> & _ & _ & Hreq).
    cbn [fst snd]. split; [reflexivity | exact Hreq].
Qed.

(** ** The palette cache *)

Section Cache.

Context (E : env).

Lemma path_join_inj d a b : path_join d a = path_join d b -> a = b.
Proof. unfold path_join. intros H. by repeat apply app_inv_head in H. Qed.

Lemma cache_file_not_wal img : (wal_file E) <> cache_file_of E img.
Proof.
  unfold wal_file, cache_file_of, path_join. intros H.
  rewrite <- !app_assoc in H. do 2 apply app_inv_head in H.
  discriminate H.
Qed.

Lemma save_file_ok colors path w :
  unwritable E path = false ->
  save_file E colors path w =
    ({| fs := <[path := colors]> (fs w); ct := ct w;
        args_notify := args_notify w;
        log := log w ++ [EvWrite path colors] |}, Done ()).
Proof. intros H. unfold save_file. rewrite H. reflexivity. Qed.

Lemma save_file_refused colors path w :
  unwritable E path = true ->
  save_file E colors path w =
    ({| fs := fs w; ct := ct w; args_notify := args_notify w;
        log := log w ++ [EvWriteFailed path] |}, Fail OSError).
Proof. intros H. unfold save_file. rewrite H. reflexivity. Qed.

(** A cache hit, step by step: the wallpaper record is written, the
    cache file is found and read, one line is printed. *)
Lemma get_colors_hit fuel img w content :
  unwritable E (wal_file E) = false ->
  fs w !! cache_file_of E img = Some content ->
  get_colors E fuel img w =
    ({| fs := <[wal_file E := img]> (fs w); ct := ct w;
        args_notify := args_notify w;
        log := log w ++
               [ EvWrite (wal_file E) img;
                 EvIsFile (cache_file_of E img);
                 EvRead (cache_file_of E img);
                 EvPrint (lit "colors: Found cached colorscheme." ++ [10]) ] |},
     Done (splitlines (universal_newlines content))).
Proof.
  intros Hw Hc. unfold get_colors.
  rewrite (bind_done _ _ _ _ _ (save_file_ok _ _ _ Hw)).
  unfold is_file, read_file, mbind, M_bind, mret, M_ret. cbn.
  rewrite lookup_insert_ne, Hc by apply cache_file_not_wal.
  cbn. rewrite lookup_insert_ne, Hc by apply cache_file_not_wal.
  cbn. rewrite <- !app_assoc. reflexivity.
Qed.

Lemma get_colors_refused fuel img w :
  unwritable E (wal_file E) = true ->
  get_colors E fuel img w =
    ({| fs := fs w; ct := ct w; args_notify := args_notify w;
        log := log w ++ [EvWriteFailed (wal_file E)] |}, Fail OSError).
Proof.
  intros Hw. unfold get_colors.
  by rewrite (bind_fail _ _ _ _ _ (save_file_refused _ _ _ Hw)).
Qed.

#[local] Abbreviation keeps_wal := (keeps_wal E).
#[local] Abbreviation preserves := (preserves E).

Lemma keeps_wal_refl w : keeps_wal w w.
Proof. split; [exists []; by rewrite app_nil_r | reflexivity]. Qed.

Lemma keeps_wal_trans w1 w2 w3 :
  keeps_wal w1 w2 -> keeps_wal w2 w3 -> keeps_wal w1 w3.
Proof.
  intros [[r1 H1] F1] [[r2 H2] F2]. split.
  - exists (r1 ++ r2). by rewrite H2, H1, app_assoc.
  - by rewrite F2.
Qed.

Lemma preserves_bind {A B} (m : M A) (f : A -> M B) :
  preserves m -> (forall a, preserves (f a)) -> preserves (m ≫= f).
Proof.
  intros Hm Hf w. unfold mbind, M_bind. specialize (Hm w).
  destruct (m w) as [w1 [a|e|c|]]; cbn [fst] in *; try exact Hm.
  eapply keeps_wal_trans; [exact Hm | apply Hf].
Qed.

Lemma preserves_ret {A} (a : A) : preserves (mret a).
Proof. intros w. apply keeps_wal_refl. Qed.

Lemma preserves_lift {A} (r : result A) : preserves (lift r).
Proof. intros w. destruct r; apply keeps_wal_refl. Qed.

Lemma preserves_raise {A} e : preserves (@raise A e).
Proof. intros w. apply keeps_wal_refl. Qed.

Lemma preserves_emit ev : preserves (emit ev).
Proof. intros w. split; [by eexists | reflexivity]. Qed.

Lemma preserves_print text : preserves (print text).
Proof. apply preserves_emit. Qed.

Lemma preserves_notify msg : preserves (notify E msg).
Proof.
  intros w. unfold notify.
  destruct (which E _ && args_notify w);
    [apply preserves_emit | apply keeps_wal_refl].
Qed.

Lemma preserves_is_file path : preserves (is_file path).
Proof. intros w. split; [by eexists | reflexivity]. Qed.

Lemma preserves_read_file path : preserves (read_file path).
Proof.
  intros w. unfold read_file. destruct (fs w !! path).
  - split; [by eexists | reflexivity].
  - apply keeps_wal_refl.
Qed.

Lemma preserves_save_file colors path :
  path <> (wal_file E) -> preserves (save_file E colors path).
Proof.
  intros Hne w. unfold save_file. destruct (unwritable E path).
  all: unfold mbind, M_bind, set_fs, emit, raise; cbn.
  - split; [by eexists | reflexivity].
  - split; [by eexists | cbn; by rewrite lookup_insert_ne].
Qed.

Lemma preserves_imagemagick n img : preserves (imagemagick E n img).
Proof. intros w. split; [by eexists | reflexivity]. Qed.

Lemma preserves_gen_colors_loop fuel :
  forall img index raw, preserves (gen_colors_loop E fuel img index raw).
Proof.
  induction fuel as [|fuel IH]; intros img index raw; cbn [gen_colors_loop];
    destruct (_ <? _)%Z; try apply preserves_ret.
  - intros w. apply keeps_wal_refl.
  - apply preserves_bind; [apply preserves_imagemagick|]. intros raw'.
    apply preserves_bind; [apply preserves_print|]. intros _. apply IH.
Qed.

Lemma preserves_gen_colors fuel img : preserves (gen_colors E fuel img).
Proof.
  unfold gen_colors.
  apply preserves_bind; [apply preserves_imagemagick|]. intros raw.
  apply preserves_bind; [apply preserves_gen_colors_loop|]. intros [|hd tl].
  - apply preserves_raise.
  - apply preserves_lift.
Qed.

Lemma cache_file_other img : cache_file_of E img <> wal_file E.
Proof. apply not_eq_sym, cache_file_not_wal. Qed.

Create HintDb preserves.
#[local] Hint Resolve preserves_bind preserves_ret preserves_lift
  preserves_raise preserves_emit preserves_print preserves_notify
  preserves_is_file preserves_read_file preserves_save_file
  preserves_imagemagick preserves_gen_colors cache_file_other : preserves.


End Cache.


(** ** Escape decoding *)

Section Escape.

Context (ucn : pybytes -> option N).

Lemma fmap_ok {A B} (f : A -> B) (r : result A) a :
  r = Ok a -> f <$> r = Ok (f a).
Proof. by intros ->. Qed.

Lemma lit_033 : lit "\033" = [92; 48; 51; 51].
Proof. reflexivity. Qed.

Lemma lit_007 : lit "\007" = [92; 48; 48; 55].
Proof. reflexivity. Qed.

Lemma unicode_escape_033 rest :
  unicode_escape ucn Plain (92 :: 48 :: 51 :: 51 :: rest)
  = cons 27 <$> unicode_escape ucn Plain rest.
Proof. reflexivity. Qed.

Lemma unicode_escape_007 rest :
  unicode_escape ucn Plain (92 :: 48 :: 48 :: 55 :: rest)
  = cons 7 <$> unicode_escape ucn Plain rest.
Proof. reflexivity. Qed.

Lemma unicode_escape_plain c rest :
  (c =? 92) = false ->
  unicode_escape ucn Plain (c :: rest)
  = cons c <$> unicode_escape ucn Plain rest.
Proof. intros H. cbn [unicode_escape]. by rewrite H. Qed.

Lemma spec_decode_plain c tl :
  (c =? 92) = false -> spec_decode (c :: tl) = c :: spec_decode tl.
Proof.
  intros H. cbn [spec_decode]. rewrite H.
  destruct tl as [|c1 [|c2 [|c3 rest]]]; reflexivity.
Qed.

Lemma utf8_encode_ascii c rest bs :
  (c <? 128) = true -> utf8_encode rest = Ok bs ->
  utf8_encode (c :: rest) = Ok (c :: bs).
Proof.
  intros Hc Hr. cbn [utf8_encode]. unfold utf8_char. rewrite Hc, Hr.
  reflexivity.
Qed.

(** On text of the expected kind the codec round trip is the decoding
    that the specification describes. *)
Lemma decode_wal_escapes n :
  forall s, (length s <= n)%nat -> wal_escapes_only s = true ->
    utf8_encode s = Ok s /\ unicode_escape ucn Plain s = Ok (spec_decode s).
Proof.
  induction n as [|n IH]; intros s Hlen Hs.
  - destruct s; [by split | cbn in Hlen; lia].
  - destruct s as [|c0 tl]; [by split|].
    cbn [wal_escapes_only] in Hs. destruct (c0 =? 92) eqn:Hc0.
    + apply N.eqb_eq in Hc0 as ->.
      destruct tl as [|c1 [|c2 [|c3 rest]]]; try discriminate.
      apply andb_true_iff in Hs as [Hs Hrest].
      apply andb_true_iff in Hs as [H1 H23].
      apply N.eqb_eq in H1 as ->.
      destruct (IH rest) as [Henc Hdec]; [cbn in Hlen; lia | exact Hrest |].
      apply orb_true_iff in H23 as [H23|H23];
        apply andb_true_iff in H23 as [H2 H3];
        apply N.eqb_eq in H2 as ->; apply N.eqb_eq in H3 as ->.
      * split.
        -- do 4 (apply utf8_encode_ascii; [reflexivity|]). exact Henc.
        -- rewrite unicode_escape_033, Hdec. reflexivity.
      * split.
        -- do 4 (apply utf8_encode_ascii; [reflexivity|]). exact Henc.
        -- rewrite unicode_escape_007, Hdec. reflexivity.
    + apply andb_true_iff in Hs as [Hascii Htl].
      destruct (IH tl) as [Henc Hdec]; [cbn in Hlen; lia | exact Htl |].
      split.
      * by apply utf8_encode_ascii.
      * rewrite unicode_escape_plain, spec_decode_plain, Hdec by exact Hc0.
        reflexivity.
Qed.

Lemma fix_escape_wal_escapes s :
  wal_escapes_only s = true -> fix_escape ucn s = Ok (spec_decode s).
Proof.
  intros Hs.
  destruct (decode_wal_escapes (length s) s (le_n _) Hs) as [Henc Hdec].
  unfold fix_escape. rewrite Henc. exact Hdec.
Qed.

End Escape.

(** C5, as amended.  On ASCII text in which a backslash only starts
    [\033] or [\007], [fix_escape] succeeds and yields the text with every
    [\033] replaced by the code point 27, every [\007] by the code point
    7, and all other characters as they were. *)
Theorem fix_escape_on_wal_text (ucn : pybytes -> option N) (s : pystr) :
  wal_escapes_only s = true -> fix_escape ucn s = Ok (spec_decode s).
Proof. apply fix_escape_wal_escapes. Qed.

(** C5, as stated, fails: a backslash followed by [n] is decoded to a
    newline although the specification keeps both characters; a doubled
    backslash before [033] keeps the digits; a character outside ASCII
    comes back as the Latin-1 reading of its UTF-8 bytes; a backslash at
    the end of the text is an error. *)
Theorem fix_escape_not_spec_decode :
  fix_escape (fun _ => None) (lit "a\nb") = Ok [97; 10; 98] /\
  spec_decode (lit "a\nb") = [97; 92; 110; 98] /\
  fix_escape (fun _ => None) (lit "\\033") = Ok [92; 48; 51; 51] /\
  spec_decode (lit "\\033") = [92; 27] /\
  fix_escape (fun _ => None) [233] = Ok [195; 169] /\
  spec_decode [233] = [233] /\
  fix_escape (fun _ => None) (lit "\") = Raise UnicodeDecodeError /\
  (exists s, fix_escape (fun _ => None) s <> Ok (spec_decode s)).
Proof.
  repeat split. exists (lit "a\nb"). discriminate.
Qed.

(** ** What the builders append *)

Lemma ct_app_empty_r c : ct_app c ct_empty = c.
Proof. destruct c. unfold ct_app. cbn. by rewrite !app_nil_r. Qed.

Lemma ct_app_assoc a b c : ct_app (ct_app a b) c = ct_app a (ct_app b c).
Proof. unfold ct_app. cbn. by rewrite <- !app_assoc. Qed.

Lemma with_ct_ct w c : ct (with_ct w c) = c.
Proof. reflexivity. Qed.

Lemma with_ct_twice w c c' : with_ct (with_ct w c) c' = with_ct w c'.
Proof. reflexivity. Qed.

Ltac run_append :=
  intros; match goal with w : world |- _ => destruct w as [? [] ? ?] end;
  unfold with_ct, ct_app; cbn; rewrite ?app_nil_r; reflexivity.

Lemma xrdb_append_run l w :
  xrdb_append l w = (with_ct w (ct_app (ct w) (one_xrdb l)), Done ()).
Proof. run_append. Qed.

Lemma sequences_append_run l w :
  sequences_append l w = (with_ct w (ct_app (ct w) (one_sequence l)), Done ()).
Proof. run_append. Qed.

Lemma shell_append_run l w :
  shell_append l w = (with_ct w (ct_app (ct w) (one_shell l)), Done ()).
Proof. run_append. Qed.

Lemma scss_append_run l w :
  scss_append l w = (with_ct w (ct_app (ct w) (one_scss l)), Done ()).
Proof. run_append. Qed.

Lemma css_append_run l w :
  css_append l w = (with_ct w (ct_app (ct w) (one_css l)), Done ()).
Proof. run_append. Qed.

Lemma putty_append_run l w :
  putty_append l w = (with_ct w (ct_app (ct w) (one_putty l)), Done ()).
Proof. run_append. Qed.

Lemma lift_ok {A} (a : A) w : lift (Ok a) w = (w, Done a).
Proof. reflexivity. Qed.

Lemma ret_run {A} (a : A) (w : world) : (mret a : M A) w = (w, Done a).
Proof. reflexivity. Qed.

Lemma bind_assoc_run {A B C} (m : M A) (f : A -> M B) (g : B -> M C) w :
  ((m ≫= f) ≫= g) w = (m ≫= (fun a => f a ≫= g)) w.
Proof.
  unfold mbind, M_bind. by destruct (m w) as [w' [a|e|c|]].
Qed.

(** Runs a straight line of appends, one step at a time. *)
Ltac step_appends :=
  repeat first
    [ rewrite bind_assoc_run
    | rewrite (bind_done _ _ _ _ _ (xrdb_append_run _ _))
    | rewrite (bind_done _ _ _ _ _ (sequences_append_run _ _))
    | rewrite (bind_done _ _ _ _ _ (shell_append_run _ _))
    | rewrite (bind_done _ _ _ _ _ (scss_append_run _ _))
    | rewrite (bind_done _ _ _ _ _ (css_append_run _ _))
    | rewrite (bind_done _ _ _ _ _ (putty_append_run _ _))
    | rewrite (bind_done _ _ _ _ _ (lift_ok _ _))
    | rewrite xrdb_append_run | rewrite sequences_append_run
    | rewrite putty_append_run | rewrite ret_run ];
  rewrite ?with_ct_ct, ?with_ct_twice, ?ct_app_assoc.

Section Builders.

Context (E : env).

Lemma set_special_run index color w :
  set_special index color w
  = (with_ct w (ct_app (ct w) (special_lines index color)), Done ()).
Proof.
  unfold set_special, special_lines.
  destruct (Z.eqb_spec index 10) as [->|_];
    [|destruct (Z.eqb_spec index 11) as [->|_];
      [|destruct (Z.eqb_spec index 12) as [->|_];
        [|destruct (Z.eqb_spec index 66) as [->|_]]]];
    step_appends; unfold osc_text; rewrite <- ?app_assoc; reflexivity.
Qed.

Lemma special_step colors i index color w :
  colors !! i = Some color ->
  (c ← lift (getitem colors i); set_special index c) w
  = (with_ct w (ct_app (ct w) (special_lines index color)), Done ()).
Proof.
  intros H. unfold mbind, M_bind. rewrite (getitem_lookup _ _ _ H).
  cbn [lift]. apply set_special_run.
Qed.

Lemma set_color_run index color rgb w :
  hex_to_rgb color = Ok rgb ->
  set_color index color w
  = (with_ct w (ct_app (ct w) (color_lines index color rgb)), Done ()).
Proof.
  intros H. unfold set_color. rewrite H. step_appends.
  unfold color_lines, osc_text; rewrite <- ?app_assoc; reflexivity.
Qed.

Lemma set_color_raises index color e w :
  hex_to_rgb color = Raise e -> snd (set_color index color w) = Fail e.
Proof. intros H. unfold set_color. rewrite H. reflexivity. Qed.

Lemma for_each_set_color colors :
  forall start w,
    Forall (fun c => hex_to_rgb c = Ok (rgb_of c)) colors ->
    for_each (fun '(num, color) => set_color num color)
             (enumerate_from start colors) w
    = (with_ct w (ct_app (ct w) (palette_lines start colors)), Done ()).
Proof.
  induction colors as [|c rest IH]; intros start w Hall.
  - cbn. rewrite ct_app_empty_r. by destruct w.
  - apply Forall_cons in Hall as [Hc Hrest].
    cbn [enumerate_from for_each palette_lines].
    rewrite (bind_done _ _ _ _ _ (set_color_run start c _ w Hc)).
    rewrite IH by exact Hrest.
    rewrite with_ct_ct, with_ct_twice, ct_app_assoc. reflexivity.
Qed.

End Builders.

(** ** Well-formed colours *)

Lemma is_hex_range a :
  is_hex a = true ->
  (48 <= a <= 57) \/ (97 <= a <= 102) \/ (65 <= a <= 70).
Proof.
  unfold is_hex, is_digit, is_lower_af, is_upper_af. intros H.
  repeat (apply orb_true_iff in H as [H|H]);
    apply andb_true_iff in H as [H1 H2]; apply N.leb_le in H1, H2; lia.
Qed.

Lemma is_hex_plain a : is_hex a = true -> is_plain_char a = true.
Proof.
  intros H. apply is_hex_range in H. unfold is_plain_char.
  repeat (apply andb_true_iff; split);
    rewrite ?negb_true_iff, ?N.leb_le, ?N.ltb_lt, ?N.eqb_neq; lia.
Qed.

Lemma is_hex_value a : is_hex a = true -> is_Some (hex_value a).
Proof.
  unfold is_hex, hex_value. intros H.
  destruct (is_digit a); [eauto|]. destruct (is_lower_af a); [eauto|].
  destruct (is_upper_af a); [eauto | discriminate].
Qed.

Lemma is_hex_not_space a : is_hex a = true -> is_space a = false.
Proof.
  intros H. apply is_hex_range in H. unfold is_space.
  apply orb_false_iff. split; [apply N.eqb_neq; lia|].
  apply andb_false_iff. right. apply N.leb_gt. lia.
Qed.

Lemma is_hex_not_hash a : is_hex a = true -> (a =? 35) = false.
Proof. intros H. apply is_hex_range in H. apply N.eqb_neq. lia. Qed.

Lemma is_color_inv c :
  is_color c = true ->
  exists a1 a2 a3 a4 a5 a6,
    c = [35; a1; a2; a3; a4; a5; a6] /\
    is_hex a1 = true /\ is_hex a2 = true /\ is_hex a3 = true /\
    is_hex a4 = true /\ is_hex a5 = true /\ is_hex a6 = true.
Proof.
  destruct c as [|h [|a1 [|a2 [|a3 [|a4 [|a5 [|a6 [|]]]]]]]]; try discriminate.
  cbn [is_color forallb]. intros H.
  repeat (apply andb_true_iff in H as [? H]).
  match goal with Hh : (h =? 35) = true |- _ => apply N.eqb_eq in Hh as -> end.
  by exists a1, a2, a3, a4, a5, a6.
Qed.

Lemma fromhex_pair a b rest :
  is_hex a = true -> is_hex b = true ->
  exists v, fromhex (a :: b :: rest) = cons v <$> fromhex rest.
Proof.
  intros Ha Hb. cbn [fromhex]. rewrite (is_hex_not_space a Ha).
  destruct (is_hex_value a Ha) as [va ->], (is_hex_value b Hb) as [vb ->].
  by eexists.
Qed.

Lemma hex_to_rgb_color c :
  is_color c = true -> hex_to_rgb c = Ok (rgb_of c).
Proof.
  intros H.
  destruct (is_color_inv c H) as (a1&a2&a3&a4&a5&a6&->&H1&H2&H3&H4&H5&H6).
  assert (exists r, hex_to_rgb [35; a1; a2; a3; a4; a5; a6] = Ok r) as [r Hr].
  { unfold hex_to_rgb, strip. cbn [lstrip N.eqb Pos.eqb].
    rewrite (is_hex_not_hash a1 H1).
    change (reverse [a1; a2; a3; a4; a5; a6]) with [a6; a5; a4; a3; a2; a1].
    cbn [lstrip]. rewrite (is_hex_not_hash a6 H6).
    change (reverse [a6; a5; a4; a3; a2; a1]) with [a1; a2; a3; a4; a5; a6].
    destruct (fromhex_pair a1 a2 [a3; a4; a5; a6] H1 H2) as [v1 ->].
    destruct (fromhex_pair a3 a4 [a5; a6] H3 H4) as [v2 ->].
    destruct (fromhex_pair a5 a6 [] H5 H6) as [v3 ->].
    cbn. by eexists. }
  unfold rgb_of. by rewrite Hr.
Qed.

Lemma is_color_plain c : is_color c = true -> forallb is_plain_char c = true.
Proof.
  intros H.
  destruct (is_color_inv c H) as (a1&a2&a3&a4&a5&a6&->&H1&H2&H3&H4&H5&H6).
  cbn [forallb].
  rewrite (is_hex_plain a1 H1), (is_hex_plain a2 H2), (is_hex_plain a3 H3),
    (is_hex_plain a4 H4), (is_hex_plain a5 H5), (is_hex_plain a6 H6).
  reflexivity.
Qed.

Lemma is_palette_inv p :
  is_palette p = true ->
  exists c0 c1 c2 c3 c4 c5 c6 c7 c8 c9 c10 c11 c12 c13 c14 c15,
    p = [c0;c1;c2;c3;c4;c5;c6;c7;c8;c9;c10;c11;c12;c13;c14;c15] /\
    Forall (fun c => is_color c = true) p.
Proof.
  unfold is_palette. intros H. apply andb_true_iff in H as [Hlen Hall].
  apply Nat.eqb_eq in Hlen.
  do 16 (destruct p as [|? p]; [discriminate Hlen|]).
  destruct p; [|discriminate Hlen].
  repeat eexists. apply Forall_forall. intros c Hc.
  rewrite forallb_forall in Hall. apply Hall. by apply list_elem_of_In.
Qed.

(** ** [send_sequences], first half: the lists after the builders ran *)

Section Sequences.

Context (E : env).

Lemma vte_step colors c0 vte w :
  colors !! 0%nat = Some c0 ->
  (if negb vte then c ← lift (getitem colors 0); set_special 708 c
   else mret ()) w
  = (with_ct w (ct_app (ct w)
                  (if vte then ct_empty else special_lines 708 c0)),
     Done ()).
Proof.
  intros H. destruct vte; cbn [negb].
  - rewrite ct_app_empty_r. by destruct w.
  - by apply special_step.
Qed.

Lemma send_sequences_built p vte w :
  is_palette p = true ->
  send_sequences E p vte w
  = broadcast E (sequences (ct_app (ct w) (sequence_lines p vte)))
      (with_ct w (ct_app (ct w) (sequence_lines p vte))).
Proof.
  intros Hp.
  destruct (is_palette_inv p Hp)
    as (c0&c1&c2&c3&c4&c5&c6&c7&c8&c9&c10&c11&c12&c13&c14&c15&->&Hall).
  set (p := [c0;c1;c2;c3;c4;c5;c6;c7;c8;c9;c10;c11;c12;c13;c14;c15]) in *.
  assert (p !! 0%nat = Some c0) as H0 by reflexivity.
  assert (p !! 15%nat = Some c15) as H15 by reflexivity.
  change (nth 0 p []) with c0 in *. change (nth 15 p []) with c15 in *.
  unfold send_sequences, sequence_lines.
  change (nth 0 p []) with c0. change (nth 15 p []) with c15.
  rewrite (bind_done _ _ _ _ _ (special_step _ _ 10 _ _ H15)).
  rewrite (bind_done _ _ _ _ _ (special_step _ _ 11 _ _ H0)).
  rewrite (bind_done _ _ _ _ _ (special_step _ _ 12 _ _ H15)).
  rewrite (bind_done _ _ _ _ _ (special_step _ _ 13 _ _ H15)).
  rewrite (bind_done _ _ _ _ _ (special_step _ _ 14 _ _ H0)).
  rewrite (bind_done _ _ _ _ _ (vte_step _ _ vte _ H0)).
  rewrite (bind_done _ _ _ _ _ (for_each_set_color p 0 _
    (Forall_impl _ _ _ Hall hex_to_rgb_color))).
  rewrite (bind_done _ _ _ _ _ (special_step _ _ 66 _ _ H0)).
  rewrite !with_ct_ct, !with_ct_twice, !ct_app_assoc.
  reflexivity.
Qed.

End Sequences.

(** ** The sequence blob as text *)

Lemma join_nil_concat (l : list pystr) : join [] l = concat l.
Proof.
  induction l as [|a [|b l] IH]; [reflexivity | cbn; by rewrite app_nil_r |].
  change (join [] (a :: b :: l)) with (a ++ [] ++ join [] (b :: l)).
  rewrite IH. reflexivity.
Qed.

Lemma sequences_palette_lines colors :
  forall start,
    sequences (palette_lines start colors)
    = map osc_text (palette_bodies start colors).
Proof.
  induction colors as [|c rest IH]; intros start; [reflexivity|].
  cbn [palette_lines palette_bodies map ct_app sequences color_lines].
  rewrite IH. reflexivity.
Qed.

Lemma sequences_sequence_lines colors vte :
  sequences (sequence_lines colors vte)
  = map osc_text (sequence_bodies colors vte).
Proof.
  unfold sequence_lines, sequence_bodies.
  cbn [ct_app sequences special_lines Z.eqb Pos.eqb].
  rewrite sequences_palette_lines, !map_app.
  destruct vte; reflexivity.
Qed.

(** *** Characters *)

Lemma is_plain_char_range c :
  is_plain_char c = true <-> (32 <= c < 127 /\ c <> 92 /\ c <> 93).
Proof.
  unfold is_plain_char.
  rewrite !andb_true_iff, !negb_true_iff, N.leb_le, N.ltb_lt, !N.eqb_neq.
  tauto.
Qed.

Lemma forallb_plain_cons c s :
  forallb is_plain_char (c :: s) = true ->
  (32 <= c < 127 /\ c <> 92 /\ c <> 93) /\ forallb is_plain_char s = true.
Proof.
  cbn [forallb]. intros H. apply andb_true_iff in H as [Hc Hs].
  by apply is_plain_char_range in Hc.
Qed.

(** *** Decoding *)

Lemma wal_escapes_only_plain a b :
  forallb is_plain_char a = true ->
  wal_escapes_only (a ++ b) = wal_escapes_only b.
Proof.
  induction a as [|c a IH]; [reflexivity|]. intros H.
  apply forallb_plain_cons in H as [(Hr & H92 & _) Ha].
  cbn [app wal_escapes_only].
  apply N.eqb_neq in H92 as ->.
  destruct (N.ltb_spec c 128); [|lia]. by rewrite IH.
Qed.

Lemma spec_decode_plain_app a b :
  forallb is_plain_char a = true ->
  spec_decode (a ++ b) = a ++ spec_decode b.
Proof.
  induction a as [|c a IH]; [reflexivity|]. intros H.
  apply forallb_plain_cons in H as [(Hr & H92 & _) Ha].
  cbn [app]. rewrite spec_decode_plain by (by apply N.eqb_neq).
  by rewrite IH.
Qed.

Lemma wal_escapes_only_osc body rest :
  forallb is_plain_char body = true ->
  wal_escapes_only (osc_text body ++ rest) = wal_escapes_only rest.
Proof.
  intros Hb. unfold osc_text. rewrite <- !app_assoc.
  change (lit "\033]" ++ body ++ lit "\007" ++ rest)
    with (92 :: 48 :: 51 :: 51 :: 93 :: (body ++ 92 :: 48 :: 48 :: 55 :: rest)).
  cbn [wal_escapes_only N.eqb Pos.eqb andb orb N.ltb N.compare Pos.compare
       Pos.compare_cont].
  by rewrite wal_escapes_only_plain.
Qed.

Lemma spec_decode_osc body rest :
  forallb is_plain_char body = true ->
  spec_decode (osc_text body ++ rest) = osc_bytes body ++ spec_decode rest.
Proof.
  intros Hb. unfold osc_text, osc_bytes. rewrite <- !app_assoc.
  change (lit "\033]" ++ body ++ lit "\007" ++ rest)
    with (92 :: 48 :: 51 :: 51 :: 93 :: (body ++ 92 :: 48 :: 48 :: 55 :: rest)).
  change (spec_decode (92 :: 48 :: 51 :: 51 :: 93 :: ?x))
    with (27 :: spec_decode (93 :: x)).
  rewrite spec_decode_plain by reflexivity.
  rewrite spec_decode_plain_app by exact Hb.
  reflexivity.
Qed.

Lemma blob_decodes ucn bodies :
  Forall (fun b => forallb is_plain_char b = true) bodies ->
  fix_escape ucn (concat (map osc_text bodies))
  = Ok (concat (map osc_bytes bodies)).
Proof.
  intros Hall. rewrite fix_escape_wal_escapes.
  - f_equal. induction Hall as [|b bodies Hb _ IH]; [reflexivity|].
    cbn [map concat]. by rewrite spec_decode_osc, IH.
  - induction Hall as [|b bodies Hb _ IH]; [reflexivity|].
    cbn [map concat]. by rewrite wal_escapes_only_osc.
Qed.

(** *** Counting the sequences for colour 708 *)

Lemma lit_708 : lit "]708;" = [93; 55; 48; 56; 59].
Proof. reflexivity. Qed.

Lemma starts_with_app pre a b :
  (length pre <= length a)%nat ->
  starts_with pre (a ++ b) = starts_with pre a.
Proof.
  revert a. induction pre as [|p pre IH]; intros a Hlen; [by destruct a|].
  destruct a as [|c a]; [cbn in Hlen; lia|].
  cbn [app starts_with]. rewrite IH by (cbn in Hlen; lia). reflexivity.
Qed.

Lemma occurrences_no_bracket a b :
  Forall (fun c => c <> 93) a ->
  occurrences (lit "]708;") (a ++ b) = occurrences (lit "]708;") b.
Proof.
  rewrite lit_708. induction 1 as [|c a Hc _ IH]; [reflexivity|].
  cbn [app occurrences starts_with].
  destruct (N.eqb_spec 93 c); [congruence|]. cbn [andb]. exact IH.
Qed.

Lemma occurrences_bracket s :
  occurrences (lit "]708;") (93 :: s)
  = ((if starts_with (lit "708;") s then 1 else 0)
     + occurrences (lit "]708;") s)%nat.
Proof. reflexivity. Qed.

Lemma plain_no_bracket a :
  forallb is_plain_char a = true -> Forall (fun c => c <> 93) a.
Proof.
  induction a as [|c a IH]; [constructor|]. intros H.
  apply forallb_plain_cons in H as [(_ & _ & Hc) Ha]. constructor; auto.
Qed.

Lemma occurrences_osc_text body rest :
  forallb is_plain_char body = true -> (4 <= length body)%nat ->
  occurrences (lit "]708;") (osc_text body ++ rest)
  = ((if addresses_708 body then 1 else 0)
     + occurrences (lit "]708;") rest)%nat.
Proof.
  intros Hb Hlen. unfold osc_text. rewrite <- !app_assoc.
  change (lit "\033]" ++ body ++ lit "\007" ++ rest)
    with ([92; 48; 51; 51] ++ 93 :: (body ++ [92; 48; 48; 55] ++ rest)).
  rewrite (occurrences_no_bracket [92; 48; 51; 51])
    by (repeat constructor; discriminate).
  rewrite occurrences_bracket.
  rewrite occurrences_no_bracket by (by apply plain_no_bracket).
  rewrite (occurrences_no_bracket [92; 48; 48; 55])
    by (repeat constructor; discriminate).
  rewrite starts_with_app by exact Hlen. reflexivity.
Qed.

Lemma occurrences_osc_bytes body rest :
  forallb is_plain_char body = true -> (4 <= length body)%nat ->
  occurrences (lit "]708;") (osc_bytes body ++ rest)
  = ((if addresses_708 body then 1 else 0)
     + occurrences (lit "]708;") rest)%nat.
Proof.
  intros Hb Hlen. unfold osc_bytes. rewrite <- !app_assoc.
  change ([27; 93] ++ body ++ [7] ++ rest)
    with ([27] ++ 93 :: (body ++ [7] ++ rest)).
  rewrite (occurrences_no_bracket [27]) by (repeat constructor; discriminate).
  rewrite occurrences_bracket.
  rewrite occurrences_no_bracket by (by apply plain_no_bracket).
  rewrite (occurrences_no_bracket [7]) by (repeat constructor; discriminate).
  rewrite starts_with_app by exact Hlen. reflexivity.
Qed.

Lemma occurrences_blob_text bodies :
  Forall body_ok bodies ->
  occurrences (lit "]708;") (concat (map osc_text bodies))
  = length (filter (fun b => addresses_708 b = true) bodies).
Proof.
  induction 1 as [|b bodies [Hb Hlen] _ IH]; [reflexivity|].
  cbn [map concat]. rewrite occurrences_osc_text, IH by assumption.
  rewrite filter_cons. destruct (addresses_708 b); reflexivity.
Qed.

Lemma occurrences_blob_bytes bodies :
  Forall body_ok bodies ->
  occurrences (lit "]708;") (concat (map osc_bytes bodies))
  = length (filter (fun b => addresses_708 b = true) bodies).
Proof.
  induction 1 as [|b bodies [Hb Hlen] _ IH]; [reflexivity|].
  cbn [map concat]. rewrite occurrences_osc_bytes, IH by assumption.
  rewrite filter_cons. destruct (addresses_708 b); reflexivity.
Qed.

(** *** The bodies of a palette *)

Lemma lit_cons c s : lit (String c s) = N_of_ascii c :: lit s.
Proof. reflexivity. Qed.

Lemma string_of_uint_plain d :
  forallb is_plain_char (lit (NilEmpty.string_of_uint d)) = true.
Proof. induction d; cbn [NilEmpty.string_of_uint]; rewrite ?lit_cons; try exact IHd; reflexivity. Qed.

Lemma str_int_plain z : forallb is_plain_char (str_int z) = true.
Proof.
  unfold str_int. destruct (Z.to_int z) as [d|d]; cbn [NilEmpty.string_of_int].
  - apply string_of_uint_plain.
  - rewrite lit_cons. cbn [forallb]. rewrite string_of_uint_plain. reflexivity.
Qed.

Lemma forallb_plain_app a b :
  forallb is_plain_char a = true -> forallb is_plain_char b = true ->
  forallb is_plain_char (a ++ b) = true.
Proof. intros Ha Hb. by rewrite forallb_app, Ha, Hb. Qed.

Lemma special_body_ok index c :
  is_color c = true -> body_ok (str_int index ++ lit ";" ++ c).
Proof.
  intros Hc. split.
  - repeat apply forallb_plain_app;
      [apply str_int_plain | reflexivity | by apply is_color_plain].
  - destruct (is_color_inv c Hc) as (a1&a2&a3&a4&a5&a6&->&_).
    rewrite !length_app. cbn. lia.
Qed.

Lemma color_body_ok index c :
  is_color c = true -> body_ok (lit "4;" ++ str_int index ++ lit ";" ++ c).
Proof.
  intros Hc. split.
  - repeat apply forallb_plain_app;
      [reflexivity | apply str_int_plain | reflexivity
       | by apply is_color_plain].
  - destruct (is_color_inv c Hc) as (a1&a2&a3&a4&a5&a6&->&_).
    rewrite !length_app. cbn. lia.
Qed.

Lemma palette_bodies_ok colors :
  Forall (fun c => is_color c = true) colors ->
  forall start, Forall body_ok (palette_bodies start colors).
Proof.
  induction 1 as [|c rest Hc _ IH]; intros start; cbn [palette_bodies];
    constructor; [by apply color_body_ok | apply IH].
Qed.

Lemma palette_bodies_not_708 colors :
  forall start,
    filter (fun b => addresses_708 b = true) (palette_bodies start colors) = [].
Proof.
  induction colors as [|c rest IH]; intros start; [reflexivity|].
  cbn [palette_bodies]. rewrite filter_cons_False; [apply IH|].
  intros H. discriminate H.
Qed.

Lemma is_palette_slots p :
  is_palette p = true ->
  Forall (fun c => is_color c = true) p /\
  is_color (nth 0 p []) = true /\ is_color (nth 15 p []) = true /\
  p !! 0%nat = Some (nth 0 p []).
Proof.
  intros Hp.
  destruct (is_palette_inv p Hp)
    as (c0&c1&c2&c3&c4&c5&c6&c7&c8&c9&c10&c11&c12&c13&c14&c15&->&Hall).
  split; [exact Hall|].
  assert (forall c, In c [c0;c1;c2;c3;c4;c5;c6;c7;c8;c9;c10;c11;c12;c13;c14;c15]
                    -> is_color c = true) as Hin.
  { intros c Hc. rewrite Forall_forall in Hall. apply Hall.
    by apply list_elem_of_In. }
  repeat split; apply Hin; cbn; tauto.
Qed.

Lemma sequence_bodies_ok p vte :
  is_palette p = true -> Forall body_ok (sequence_bodies p vte).
Proof.
  intros Hp. destruct (is_palette_slots p Hp) as (Hall & H0 & H15 & _).
  unfold sequence_bodies.
  repeat (apply Forall_cons; split; [by apply special_body_ok|]).
  apply Forall_app. split.
  { destruct vte; [constructor|].
    apply Forall_cons. split; [by apply special_body_ok | constructor]. }
  apply Forall_app. split; [by apply palette_bodies_ok|].
  apply Forall_cons. split; [by apply special_body_ok|].
  apply Forall_cons. split; [by apply color_body_ok | constructor].
Qed.

Lemma sequence_bodies_708 p vte :
  filter (fun b => addresses_708 b = true) (sequence_bodies p vte)
  = if vte then [] else [str_int 708 ++ lit ";" ++ nth 0 p []].
Proof.
  unfold sequence_bodies. cbn [app].
  do 5 (rewrite filter_cons_False by (intros H; discriminate H)).
  rewrite !filter_app, palette_bodies_not_708.
  do 2 (rewrite filter_cons_False by (intros H; discriminate H)).
  rewrite filter_nil, !app_nil_r.
  destruct vte; [reflexivity|].
  rewrite filter_cons_True by reflexivity. reflexivity.
Qed.

(** ** [send_sequences], second half: the broadcast *)

Section Broadcast.

Context (E : env).

Lemma for_each_save_file_ct blob targets :
  forall w,
    ct (fst (for_each (fun term => save_file E blob term) targets w)) = ct w.
Proof.
  induction targets as [|t rest IH]; intros w; [reflexivity|].
  cbn [for_each]. destruct (unwritable E t) eqn:Ht.
  - by rewrite (bind_fail _ _ _ _ _ (save_file_refused E blob t w Ht)).
  - rewrite (bind_done _ _ _ _ _ (save_file_ok E blob t w Ht)), IH.
    reflexivity.
Qed.

Lemma broadcast_ct blob_lines w :
  ct (fst (broadcast E blob_lines w)) = ct w.
Proof.
  unfold broadcast. unfold mbind at 1, M_bind at 1.
  destruct (fix_escape _ _) as [blob|e]; [|reflexivity]. cbn [lift].
  unfold mbind, M_bind.
  pose proof (for_each_save_file_ct blob (terminals E) w) as H.
  destruct (for_each _ _ w) as [w' [[]|e|c|]]; exact H.
Qed.

(** The lists [send_sequences] leaves behind, whatever became of the
    writes. *)
Lemma send_sequences_ct p vte w :
  is_palette p = true ->
  ct (fst (send_sequences E p vte w))
  = ct_app (ct w) (sequence_lines p vte).
Proof.
  intros Hp. by rewrite send_sequences_built, broadcast_ct.
Qed.

Lemma send_sequences_blob p vte w :
  is_palette p = true -> sequences (ct w) = [] ->
  join [] (sequences (ct (fst (send_sequences E p vte w))))
  = concat (map osc_text (sequence_bodies p vte)).
Proof.
  intros Hp Hfresh. rewrite send_sequences_ct by exact Hp.
  cbn [ct_app sequences]. rewrite Hfresh, app_nil_l.
  by rewrite join_nil_concat, sequences_sequence_lines.
Qed.

End Broadcast.

Lemma plain_bodies bodies :
  Forall body_ok bodies ->
  Forall (fun b => forallb is_plain_char b = true) bodies.
Proof. intros H. eapply Forall_impl; [exact H|]. by intros b [Hb _]. Qed.

Lemma sequence_bodies_split p :
  exists before after,
    sequence_bodies p false
    = before ++ [str_int 708 ++ lit ";" ++ nth 0 p []] ++ after.
Proof.
  unfold sequence_bodies.
  eexists [_; _; _; _; _], _. reflexivity.
Qed.

(** C8.  For a well-formed palette and fresh lists, the blob that
    [send_sequences] joins holds no [ ]708; ] when [vte] is set and exactly
    one when it is not, and then as the sequence that binds 708 to slot 0;
    the same counts hold for the decoded blob that is sent out. *)
Theorem send_sequences_vte_gate (E : env) (p : list pystr) (vte : bool)
    (w : world) :
  is_palette p = true -> sequences (ct w) = [] ->
  let blob := join [] (sequences (ct (fst (send_sequences E p vte w)))) in
  occurrences (lit "]708;") blob = (if vte then 0 else 1)%nat /\
  (vte = false ->
   exists c0 before after,
     p !! 0%nat = Some c0 /\
     blob = before ++ (lit "\033]708;" ++ c0 ++ lit "\007") ++ after) /\
  (exists decoded,
     fix_escape (ucn_lookup E) blob = Ok decoded /\
     occurrences (lit "]708;") decoded = (if vte then 0 else 1)%nat).
Proof.
  intros Hp Hfresh blob. subst blob.
  rewrite send_sequences_blob by assumption.
  pose proof (sequence_bodies_ok p vte Hp) as Hok.
  split; [|split].
  - rewrite occurrences_blob_text, sequence_bodies_708 by exact Hok.
    by destruct vte.
  - intros ->. destruct (is_palette_slots p Hp) as (_ & _ & _ & H0).
    destruct (sequence_bodies_split p) as (before & after & ->).
    exists (nth 0 p []), (concat (map osc_text before)),
      (concat (map osc_text after)).
    split; [exact H0|].
    rewrite !map_app, !concat_app. cbn [map concat]. rewrite app_nil_r.
    unfold osc_text. rewrite <- !app_assoc. reflexivity.
  - exists (concat (map osc_bytes (sequence_bodies p vte))). split.
    + apply blob_decodes, plain_bodies, Hok.
    + rewrite occurrences_blob_bytes, sequence_bodies_708 by exact Hok.
      by destruct vte.
Qed.

(** ** Write failures during the broadcast *)

Section BroadcastFailure.

Context (E : env).

(** The writes stop at the first target that cannot be opened. *)
Lemma for_each_save_file_stops blob pre :
  forall t post w,
    Forall (fun x => unwritable E x = false) pre ->
    unwritable E t = true ->
    snd (for_each (fun term => save_file E blob term) (pre ++ t :: post) w)
      = Fail OSError /\
    (forall x, x ∈ pre ->
       fs (fst (for_each (fun term => save_file E blob term)
                         (pre ++ t :: post) w)) !! x = Some blob) /\
    (forall x, x ∉ pre ->
       fs (fst (for_each (fun term => save_file E blob term)
                         (pre ++ t :: post) w)) !! x = fs w !! x).
Proof.
  induction pre as [|a pre IH]; intros t post w Hpre Ht.
  - cbn [app for_each].
    rewrite (bind_fail _ _ _ _ _ (save_file_refused E blob t w Ht)).
    cbn [fst snd fs]. split; [reflexivity|]. split; [|reflexivity].
    intros x Hx. by apply elem_of_nil in Hx.
  - apply Forall_cons in Hpre as [Ha Hpre]. cbn [app for_each].
    rewrite (bind_done _ _ _ _ _ (save_file_ok E blob a w Ha)).
    destruct (IH t post
                {| fs := <[a := blob]> (fs w); ct := ct w;
                   args_notify := args_notify w;
                   log := log w ++ [EvWrite a blob] |} Hpre Ht)
      as (Hfail & Hin & Hout).
    split; [exact Hfail|]. split.
    + intros x Hx. destruct (decide (x ∈ pre)) as [Hp|Hp]; [by apply Hin|].
      rewrite Hout by exact Hp. cbn [fs].
      apply elem_of_cons in Hx as [->|Hx]; [|contradiction].
      apply lookup_insert_eq.
    + intros x Hx. apply not_elem_of_cons in Hx as [Hxa Hx].
      rewrite Hout by exact Hx. cbn [fs]. by rewrite lookup_insert_ne.
Qed.

(** Without a failure every target is written. *)
Lemma for_each_save_file_all blob targets :
  forall w,
    Forall (fun x => unwritable E x = false) targets ->
    snd (for_each (fun term => save_file E blob term) targets w) = Done () /\
    (forall x, x ∈ targets ->
       fs (fst (for_each (fun term => save_file E blob term) targets w)) !! x
       = Some blob) /\
    (forall x, x ∉ targets ->
       fs (fst (for_each (fun term => save_file E blob term) targets w)) !! x
       = fs w !! x).
Proof.
  induction targets as [|a rest IH]; intros w Hall.
  - cbn [for_each fst snd]. split; [reflexivity|]. split; [|reflexivity].
    intros x Hx. by apply elem_of_nil in Hx.
  - apply Forall_cons in Hall as [Ha Hrest]. cbn [for_each].
    rewrite (bind_done _ _ _ _ _ (save_file_ok E blob a w Ha)).
    destruct (IH {| fs := <[a := blob]> (fs w); ct := ct w;
                    args_notify := args_notify w;
                    log := log w ++ [EvWrite a blob] |} Hrest)
      as (Hdone & Hin & Hout).
    split; [exact Hdone|]. split.
    + intros x Hx. destruct (decide (x ∈ rest)) as [Hp|Hp]; [by apply Hin|].
      rewrite Hout by exact Hp. cbn [fs].
      apply elem_of_cons in Hx as [->|Hx]; [|contradiction].
      apply lookup_insert_eq.
    + intros x Hx. apply not_elem_of_cons in Hx as [Hxa Hx].
      rewrite Hout by exact Hx. cbn [fs]. by rewrite lookup_insert_ne.
Qed.


Lemma broadcast_run blob_lines blob w :
  fix_escape (ucn_lookup E) (join [] blob_lines) = Ok blob ->
  broadcast E blob_lines w
  = (for_each (fun term => save_file E blob term) (terminals E);;
     print (lit "colors: Set terminal colors")) w.
Proof. intros H. unfold broadcast. by rewrite H. Qed.

Lemma send_sequences_decoded p vte w :
  is_palette p = true -> sequences (ct w) = [] ->
  fix_escape (ucn_lookup E)
    (join [] (sequences (ct_app (ct w) (sequence_lines p vte))))
  = Ok (concat (map osc_bytes (sequence_bodies p vte))).
Proof.
  intros Hp Hfresh. cbn [ct_app sequences]. rewrite Hfresh, app_nil_l.
  rewrite join_nil_concat, sequences_sequence_lines.
  apply blob_decodes, plain_bodies, sequence_bodies_ok, Hp.
Qed.

(** [send_sequences] on a well-formed palette, from fresh lists: the
    decoded blob goes to the terminals in order. *)
Lemma send_sequences_run p vte w :
  is_palette p = true -> sequences (ct w) = [] ->
  send_sequences E p vte w
  = (for_each (fun term =>
                 save_file E (concat (map osc_bytes (sequence_bodies p vte)))
                           term) (terminals E);;
     print (lit "colors: Set terminal colors"))
      (with_ct w (ct_app (ct w) (sequence_lines p vte))).
Proof.
  intros Hp Hfresh. rewrite send_sequences_built by exact Hp.
  apply broadcast_run, send_sequences_decoded; assumption.
Qed.

End BroadcastFailure.

(** C4, as amended.  For a well-formed palette and fresh lists: when the
    target [t] refuses the write and the targets [pre] before it accept
    theirs, [send_sequences] ends with [OSError]; each target of [pre] has
    received the whole decoded blob, and no other path, so neither [t] nor
    any later target, has been written.  When no target refuses, each of
    them has received the blob and the call returns. *)
Theorem send_sequences_stops_at_failure (E : env) (p : list pystr)
    (vte : bool) (w : world) :
  is_palette p = true -> sequences (ct w) = [] ->
  exists blob,
    fix_escape (ucn_lookup E)
      (join [] (sequences (ct (fst (send_sequences E p vte w))))) = Ok blob /\
    (forall pre t post,
        terminals E = pre ++ t :: post ->
        Forall (fun x => unwritable E x = false) pre ->
        unwritable E t = true ->
        snd (send_sequences E p vte w) = Fail OSError /\
        (forall x, x ∈ pre ->
           fs (fst (send_sequences E p vte w)) !! x = Some blob) /\
        (forall x, x ∉ pre ->
           fs (fst (send_sequences E p vte w)) !! x = fs w !! x)) /\
    (Forall (fun x => unwritable E x = false) (terminals E) ->
     snd (send_sequences E p vte w) = Done () /\
     forall x, x ∈ terminals E ->
       fs (fst (send_sequences E p vte w)) !! x = Some blob).
Proof.
  intros Hp Hfresh.
  exists (concat (map osc_bytes (sequence_bodies p vte))).
  split; [|split].
  - rewrite send_sequences_ct by exact Hp.
    by apply send_sequences_decoded.
  - intros pre t post Hterm Hpre Ht.
    rewrite send_sequences_run by assumption. rewrite Hterm.
    set (blob := concat (map osc_bytes (sequence_bodies p vte))).
    set (w1 := with_ct w (ct_app (ct w) (sequence_lines p vte))).
    destruct (for_each_save_file_stops E blob pre t post w1 Hpre Ht)
      as (Hfail & Hin & Hout).
    unfold mbind, M_bind.
    destruct (for_each _ (pre ++ t :: post) w1) as [w2 r].
    cbn [fst snd] in Hfail, Hin, Hout. subst r. cbn [fst snd].
    split; [reflexivity|]. split; [exact Hin | exact Hout].
  - intros Hall. rewrite send_sequences_run by assumption.
    set (blob := concat (map osc_bytes (sequence_bodies p vte))).
    set (w1 := with_ct w (ct_app (ct w) (sequence_lines p vte))).
    destruct (for_each_save_file_all E blob (terminals E) w1 Hall)
      as (Hdone & Hin & _).
    unfold mbind, M_bind.
    destruct (for_each _ (terminals E) w1) as [w2 r].
    cbn [fst snd] in Hdone, Hin. subst r. cbn [fst snd fs].
    split; [reflexivity | exact Hin].
Qed.

(** ** Reloading the persisted sequences *)

(** *** Lines *)


Lemma not_linebreak_not_cr c : is_linebreak c = false -> (c =? 13) = false.
Proof.
  intros H. destruct (N.eqb_spec c 13) as [->|]; [discriminate H | reflexivity].
Qed.




(** *** Decoding what is already decoded *)






(** *** The substitution *)













(** *** The bodies of a palette once more *)




(** *** [reload_colors] *)

Section Reload.

Context (E : env).




Lemma reload_colors_absent vte w :
  fs w !! sequences_file E = None ->
  reload_colors E vte w
  = (with_log w (log w ++ [EvIsFile (sequences_file E)]), Exit 0%Z).
Proof.
  intros Hfile. unfold reload_colors. fold (sequences_file E).
  unfold is_file, mbind, M_bind, mret, M_ret, emit, exit.
  cbn [fs ct args_notify log]. rewrite Hfile. reflexivity.
Qed.

End Reload.





(** ** The export documents *)

Section ExportDocuments.

Context (E : env).
Hypothesis writable : forall path, unwritable E path = false.

Lemma get_ct_run {A} (f : ColorType -> M A) w :
  (get_ct ≫= f) w = f (ct w) w.
Proof. reflexivity. Qed.

Lemma save_colors_run lines file msg w :
  exists w',
    save_colors E lines file msg w = (w', Done ()) /\
    fs w' = <[path_join (CACHE_DIR E) file := document lines]> (fs w) /\
    ct w' = ct w.
Proof.
  unfold save_colors.
  rewrite (bind_done _ _ _ _ _ (save_file_ok E _ _ w (writable _))).
  eexists. split; [reflexivity|]. by split.
Qed.

Lemma append_then {A} (m : M unit) (k : M A) (d : ColorType) w :
  (forall w, m w = (with_ct w (ct_app (ct w) d), Done ())) ->
  (m;; k) w = k (with_ct w (ct_app (ct w) d)).
Proof. intros H. by rewrite (bind_done _ _ _ _ _ (H w)). Qed.

Lemma export_rofi_run p w :
  (16 <= length p)%nat ->
  exists w',
    export_rofi p w = (w', Done ()) /\ fs w' = fs w /\
    ct w' = ct_app (ct w)
              {| plain := []; xrdb := take 4 (rofi_emacs_lines p);
                 sequences := []; shell := []; scss := []; css := [];
                 putty := [] |}.
Proof.
  intros Hlen.
  destruct (at_least_16 p Hlen)
    as (c0&c1&c2&c3&c4&c5&c6&c7&c8&c9&c10&c11&c12&c13&c14&c15&t&->).
  unfold export_rofi, rofi_emacs_lines.
  cbn [app getitem lookup list_lookup nth take].
  step_appends.
  eexists. split; [reflexivity|]. split; [reflexivity|].
  rewrite with_ct_ct. reflexivity.
Qed.

Lemma export_emacs_run p w :
  (16 <= length p)%nat ->
  exists w',
    export_emacs p w = (w', Done ()) /\ fs w' = fs w /\
    ct w' = ct_app (ct w)
              {| plain := []; xrdb := drop 4 (rofi_emacs_lines p);
                 sequences := []; shell := []; scss := []; css := [];
                 putty := [] |}.
Proof.
  intros Hlen.
  destruct (at_least_16 p Hlen)
    as (c0&c1&c2&c3&c4&c5&c6&c7&c8&c9&c10&c11&c12&c13&c14&c15&t&->).
  unfold export_emacs, rofi_emacs_lines.
  cbn [app getitem lookup list_lookup nth drop].
  step_appends.
  eexists. split; [reflexivity|]. split; [reflexivity|].
  rewrite with_ct_ct. reflexivity.
Qed.

Lemma reload_xrdb_run file w :
  exists w',
    reload_xrdb E file w = (w', Done ()) /\ fs w' = fs w /\ ct w' = ct w.
Proof.
  unfold reload_xrdb. destruct (which E _); eexists; by split.
Qed.

Lemma reload_i3_run w :
  exists w', reload_i3 E w = (w', Done ()) /\ fs w' = fs w /\ ct w' = ct w.
Proof.
  unfold reload_i3. destruct (which E _); eexists; by split.
Qed.

Lemma css_append_then {A} l (k : M A) w :
  (css_append l;; k) w = k (with_ct w (ct_app (ct w) (one_css l))).
Proof. by rewrite (bind_done _ _ _ _ _ (css_append_run l w)). Qed.

(** [a;; b] where [a] reads the lists and saves one of them. *)
Ltac step_save field Hrun Hfs Hct :=
  rewrite bind_assoc_run, get_ct_run;
  match goal with
  | |- context [save_colors E ?lines ?file ?msg ≫= _] =>
    let w1 := fresh "w" in
    match goal with
    | |- context [(save_colors E lines file msg ≫= _) ?w0] =>
      destruct (save_colors_run lines file msg w0) as (w1 & Hrun & Hfs & Hct);
      rewrite (bind_done _ _ _ _ _ Hrun); clear Hrun
    end
  end.

Lemma export_colors_run p w :
  (16 <= length p)%nat ->
  exists w',
    export_colors E p w = (w', Done ()) /\
    fs w' =
      <[path_join (CACHE_DIR E) (lit "xcolors")
          := document (xrdb (ct w) ++ rofi_emacs_lines p)]>
      (<[path_join (CACHE_DIR E) (lit "colors-putty.reg")
          := document (putty (ct w))]>
      (<[path_join (CACHE_DIR E) (lit "colors.scss")
          := document (scss (ct w))]>
      (<[path_join (CACHE_DIR E) (lit "colors.css")
          := document (css (ct w) ++ [lit "}"])]>
      (<[path_join (CACHE_DIR E) (lit "colors.sh")
          := document (shell (ct w))]>
      (<[path_join (CACHE_DIR E) (lit "colors")
          := document (plain (ct w))]> (fs w)))))).
Proof.
  intros Hlen. unfold export_colors.
  step_save plain Hrun1 Hfs1 Hct1.
  step_save shell Hrun2 Hfs2 Hct2.
  rewrite css_append_then.
  step_save css Hrun3 Hfs3 Hct3.
  step_save scss Hrun4 Hfs4 Hct4.
  step_save putty Hrun5 Hfs5 Hct5.
  destruct (export_rofi_run p w4 Hlen) as (w5 & Hrun6 & Hfs6 & Hct6).
  rewrite (bind_done _ _ _ _ _ Hrun6).
  destruct (export_emacs_run p w5 Hlen) as (w6 & Hrun7 & Hfs7 & Hct7).
  rewrite (bind_done _ _ _ _ _ Hrun7).
  step_save xrdb Hrun8 Hfs8 Hct8.
  destruct (reload_xrdb_run (lit "xcolors") w7) as (w8 & Hrun9 & Hfs9 & Hct9).
  rewrite (bind_done _ _ _ _ _ Hrun9).
  destruct (reload_i3_run w8) as (w9 & Hrun10 & Hfs10 & Hct10).
  exists w9. split; [exact Hrun10|].
  cbn [with_ct fs ct] in *.
  rewrite Hfs10, Hfs9, Hfs8, Hfs7, Hfs6, Hfs5, Hfs4, Hfs3, Hfs2, Hfs1.
  rewrite Hct7, Hct6, Hct5, Hct4, Hct3, Hct2, Hct1.
  cbn [with_ct ct fs ct_app xrdb putty scss css shell plain one_css].
  rewrite ?app_nil_r, <- ?app_assoc. reflexivity.
Qed.

Lemma plain_assign_run p w :
  plain_assign p w
  = (with_ct w {| plain := p; xrdb := xrdb (ct w);
                  sequences := sequences (ct w); shell := shell (ct w);
                  scss := scss (ct w); css := css (ct w);
                  putty := putty (ct w) |}, Done ()).
Proof. reflexivity. Qed.

Lemma sequence_lines_documents p vte :
  xrdb (sequence_lines p vte) = xrdb (sequence_lines p true) /\
  shell (sequence_lines p vte) = shell (sequence_lines p true) /\
  scss (sequence_lines p vte) = scss (sequence_lines p true) /\
  css (sequence_lines p vte) = css (sequence_lines p true) /\
  putty (sequence_lines p vte) = putty (sequence_lines p true).
Proof. by destruct vte. Qed.

Lemma plain_palette_lines colors :
  forall start, plain (palette_lines start colors) = [].
Proof.
  induction colors as [|c rest IH]; intros start; [reflexivity|].
  cbn [palette_lines ct_app plain color_lines]. apply IH.
Qed.

Lemma plain_sequence_lines p vte : plain (sequence_lines p vte) = [].
Proof.
  unfold sequence_lines. cbn [ct_app plain special_lines].
  rewrite plain_palette_lines. by destruct vte.
Qed.

Ltac other_file :=
  let H := fresh in
  intros H; apply path_join_inj in H; vm_compute in H; discriminate H.

(** A fresh process that sends and exports a well-formed palette writes
    the six documents of [export_document]. *)
Lemma apply_colors_run p vte w :
  is_palette p = true -> ct w = ColorType_init ->
  exists w',
    apply_colors E p vte w = (w', Done ()) /\
    forall name, name ∈ export_files ->
      fs w' !! path_join (CACHE_DIR E) name = export_document p name /\
      is_Some (export_document p name).
Proof.
  intros Hp Hfresh. unfold apply_colors.
  rewrite (bind_done _ _ _ _ _ (plain_assign_run p w)).
  rewrite get_ct_run. cbn beta. cbn [with_ct ct plain].
  unfold mbind at 1, M_bind at 1.
  rewrite send_sequences_run by (by rewrite ?Hfresh).
  set (blob := concat (map osc_bytes (sequence_bodies p vte))).
  match goal with |- context [_ (with_ct ?w0 ?c)] => set (wa := with_ct w0 c) end.
  destruct (for_each_save_file_all E blob (terminals E) wa)
    as (Hdone & _ & _); [apply Forall_forall; intros; apply writable|].
  pose proof (for_each_save_file_ct E blob (terminals E) wa) as Hct.
  unfold mbind at 1, M_bind at 1.
  destruct (for_each _ (terminals E) wa) as [wb0 r].
  cbn [fst snd] in Hdone, Hct. subst r.
  unfold print at 1, emit at 1.
  set (wb := Build_world _ _ _ _).
  rewrite get_ct_run. cbn beta.
  assert (ct wb = ct wa) as Hctb by exact Hct.
  assert (fs wb = fs wb0) as Hfsb by reflexivity.
  assert (16 <= length (plain (ct wb)))%nat as Hlen.
  { rewrite Hctb. subst wa. cbn [with_ct ct ct_app plain].
    apply andb_true_iff in Hp as [Hp _]. apply Nat.eqb_eq in Hp.
    rewrite length_app, Hp. lia. }
  destruct (export_colors_run (plain (ct wb)) wb Hlen) as (w' & Hrun & Hfs).
  exists w'. split; [exact Hrun|].
  rewrite Hctb in Hfs. subst wa. cbn [with_ct ct ct_app] in Hfs.
  rewrite Hfresh in Hfs.
  cbn [ct_app plain xrdb shell scss css putty ColorType_init] in Hfs.
  destruct (sequence_lines_documents p vte) as (Hx & Hsh & Hsc & Hcs & Hpu).
  pose proof (plain_sequence_lines p vte) as Hpl.
  rewrite Hx, Hsh, Hsc, Hcs, Hpu, Hpl, app_nil_r in Hfs.
  intros name Hname. rewrite Hfs.
  unfold export_files in Hname.
  repeat (apply elem_of_cons in Hname as [->|Hname]);
    [ | | | | | | by apply elem_of_nil in Hname ].
  all: split; [|by eexists].
  - do 5 (rewrite lookup_insert_ne by other_file).
    rewrite lookup_insert_eq. reflexivity.
  - do 4 (rewrite lookup_insert_ne by other_file).
    rewrite lookup_insert_eq. reflexivity.
  - do 3 (rewrite lookup_insert_ne by other_file).
    rewrite lookup_insert_eq. reflexivity.
  - do 2 (rewrite lookup_insert_ne by other_file).
    rewrite lookup_insert_eq. reflexivity.
  - do 1 (rewrite lookup_insert_ne by other_file).
    rewrite lookup_insert_eq. reflexivity.
  - rewrite lookup_insert_eq. reflexivity.
Qed.

End ExportDocuments.

(** C3, as amended.  A process that starts with the initial [ColorType]
    lists, sends and exports a well-formed palette and can write its
    files, returns and leaves each of the six documents with the content
    [export_document] gives for the palette: the content depends neither
    on the vte flag nor on the machine nor on what the files held before.
    Two such processes therefore write the same documents. *)
Theorem export_documents_determined (E1 E2 : env) (p : list pystr)
    (vte1 vte2 : bool) (w1 w2 : world) :
  is_palette p = true ->
  ct w1 = ColorType_init -> ct w2 = ColorType_init ->
  (forall path, unwritable E1 path = false) ->
  (forall path, unwritable E2 path = false) ->
  snd (apply_colors E1 p vte1 w1) = Done () /\
  snd (apply_colors E2 p vte2 w2) = Done () /\
  forall name, name ∈ export_files ->
    exists doc,
      export_document p name = Some doc /\
      fs (fst (apply_colors E1 p vte1 w1)) !! path_join (CACHE_DIR E1) name
        = Some doc /\
      fs (fst (apply_colors E2 p vte2 w2)) !! path_join (CACHE_DIR E2) name
        = Some doc.
Proof.
  intros Hp Hf1 Hf2 Hw1 Hw2.
  destruct (apply_colors_run E1 Hw1 p vte1 w1 Hp Hf1) as (w1' & -> & Hd1).
  destruct (apply_colors_run E2 Hw2 p vte2 w2 Hp Hf2) as (w2' & -> & Hd2).
  cbn [fst snd]. split; [reflexivity|]. split; [reflexivity|].
  intros name Hname.
  destruct (Hd1 name Hname) as [H1 [doc Hdoc]].
  destruct (Hd2 name Hname) as [H2 _].
  exists doc. by rewrite H1, H2.
Qed.

(** ** The properties at concrete inputs *)

(** C3, as stated, fails within one process: the lists keep what the
    first rendering appended.  Rendering the same palette again writes a
    different stylesheet and different shell variables; exporting again
    without sending appends a second closing brace; and exporting without
    sending at all writes no colour, so the documents are no function of
    the argument of [export_colors]. *)
Theorem export_twice_differs :
  let w1 := fst (apply_colors E_demo pal_demo false (world_init ∅)) in
  let w2 := fst (apply_colors E_demo pal_demo false w1) in
  let w3 := fst (export_colors E_demo pal_demo w1) in
  let w4 := fst (export_colors E_demo pal_demo (world_init ∅)) in
  snd (apply_colors E_demo pal_demo false (world_init ∅)) = Done () /\
  snd (apply_colors E_demo pal_demo false w1) = Done () /\
  snd (export_colors E_demo pal_demo w1) = Done () /\
  snd (export_colors E_demo pal_demo (world_init ∅)) = Done () /\
  fs w1 !! lit "/home/u/.cache/wal/colors.css"
    <> fs w2 !! lit "/home/u/.cache/wal/colors.css" /\
  fs w1 !! lit "/home/u/.cache/wal/colors.sh"
    <> fs w2 !! lit "/home/u/.cache/wal/colors.sh" /\
  fs w1 !! lit "/home/u/.cache/wal/colors.css"
    <> fs w3 !! lit "/home/u/.cache/wal/colors.css" /\
  fs w4 !! lit "/home/u/.cache/wal/colors.sh" = Some [10].
Proof. vm_compute. repeat split; discriminate. Qed.

(** C4, as stated, fails: the second of three terminals refuses the
    write; the third terminal and the sequence file accept writes and are
    targets too, but they receive nothing, and the call ends with the
    exception. *)
Theorem broadcast_aborts_at_failure :
  let r := send_sequences E_refuse pal_demo false (world_init ∅) in
  terminals E_refuse
    = [ lit "/dev/pts/0"; lit "/dev/pts/1"; lit "/dev/pts/2";
        lit "/home/u/.cache/wal/sequences" ] /\
  unwritable E_refuse (lit "/dev/pts/1") = true /\
  unwritable E_refuse (lit "/dev/pts/2") = false /\
  unwritable E_refuse (lit "/home/u/.cache/wal/sequences") = false /\
  is_Some (fs (fst r) !! lit "/dev/pts/0") /\
  fs (fst r) !! lit "/dev/pts/2" = None /\
  fs (fst r) !! lit "/home/u/.cache/wal/sequences" = None /\
  snd r = Fail OSError.
Proof. vm_compute. repeat split. by eexists. Qed.

Lemma fix_escape_on_wal_text_witness :
  wal_escapes_only (lit "\033]4;0;#aabbcc\007") = true /\
  fix_escape (fun _ => None) (lit "\033]4;0;#aabbcc\007")
  = Ok (spec_decode (lit "\033]4;0;#aabbcc\007")).
Proof.
  split; [reflexivity|].
  apply (fix_escape_on_wal_text (fun _ => None) (lit "\033]4;0;#aabbcc\007")).
  reflexivity.
Defined.


Lemma gen_colors_retry_witness :
  snd (gen_colors E_demo 5 (lit "/a/b.jpg") (world_init ∅)) <> Diverge /\
  requests (log (fst (gen_colors E_demo 5 (lit "/a/b.jpg") (world_init ∅))))
  = [16; 17; 18; 19]%Z.
Proof.
  destruct (proj1 (gen_colors_retry E_demo (lit "/a/b.jpg") (world_init ∅)) 3%nat)
    with (fuel := 5%nat) as (_ & Hends & Hrequests).
  - intros j Hj. destruct j as [|[|[|j]]]; [vm_compute; lia ..|lia].
  - vm_compute. lia.
  - lia.
  - split; [exact Hends | exact Hrequests].
Defined.

Lemma send_sequences_vte_gate_witness :
  is_palette pal_demo = true /\
  sequences (ct (world_init ∅)) = [] /\
  occurrences (lit "]708;")
    (join [] (sequences (ct (fst (send_sequences E_demo pal_demo true
                                    (world_init ∅)))))) = 0%nat.
Proof.
  split; [reflexivity|]. split; [reflexivity|].
  apply (send_sequences_vte_gate E_demo pal_demo true (world_init ∅));
    reflexivity.
Defined.

Lemma send_sequences_stops_at_failure_witness :
  is_palette pal_demo = true /\
  sequences (ct (world_init ∅)) = [] /\
  snd (send_sequences E_refuse pal_demo false (world_init ∅)) = Fail OSError /\
  fs (fst (send_sequences E_refuse pal_demo false (world_init ∅)))
    !! lit "/dev/pts/2" = None.
Proof.
  split; [reflexivity|]. split; [reflexivity|].
  destruct (send_sequences_stops_at_failure E_refuse pal_demo false
              (world_init ∅) eq_refl eq_refl) as (blob & _ & Hstop & _).
  destruct (Hstop [lit "/dev/pts/0"] (lit "/dev/pts/1")
              [lit "/dev/pts/2"; lit "/home/u/.cache/wal/sequences"])
    as (Hfail & _ & Hout).
  - reflexivity.
  - repeat constructor.
  - reflexivity.
  - split; [exact Hfail|]. rewrite Hout; [reflexivity|].
    intros Hin. apply list_elem_of_singleton in Hin. discriminate Hin.
Defined.


Lemma export_documents_determined_witness :
  is_palette pal_demo = true /\
  ct (world_init ∅) = ColorType_init /\
  ct (world_init cache_demo) = ColorType_init /\
  (forall path, unwritable E_demo path = false) /\
  fs (fst (apply_colors E_demo pal_demo true (world_init ∅)))
    !! path_join (CACHE_DIR E_demo) (lit "xcolors")
  = fs (fst (apply_colors E_demo pal_demo false (world_init cache_demo)))
    !! path_join (CACHE_DIR E_demo) (lit "xcolors").
Proof.
  split; [reflexivity|]. split; [reflexivity|]. split; [reflexivity|].
  split; [intros path; reflexivity|].
  destruct (export_documents_determined E_demo E_demo pal_demo true false
              (world_init ∅) (world_init cache_demo) eq_refl eq_refl eq_refl
              (fun _ => eq_refl) (fun _ => eq_refl)) as (_ & _ & Hdocs).
  destruct (Hdocs (lit "xcolors")) as (doc & _ & H1 & H2).
  - unfold export_files. do 5 apply list_elem_of_further.
    apply list_elem_of_here.
  - rewrite H1, H2. reflexivity.
Defined.

(** * Further properties *)

(** ** The mapper on short and on unrelated input *)

Lemma sort_colors_short_run nd (raw : list pystr) :
  (length raw < 16)%nat -> sort_colors nd raw = Raise IndexError.
Proof.
  intros Hlen.
  do 16 (destruct raw as [|? raw]; [reflexivity|]).
  cbn [length] in Hlen. lia.
Qed.

(** X1.  A swatch set of fewer than sixteen entries stops the mapper with
    [IndexError], whatever it contains: every slot it copies is read
    before the grey shade is computed. *)
Theorem sort_colors_short nd (raw : list pystr) :
  (length raw < 16)%nat -> sort_colors nd raw = Raise IndexError.
Proof. apply sort_colors_short_run. Qed.

Lemma sort_colors_short_witness :
  (length [lit "#123456"; lit "#abcdef"] < 16)%nat /\
  sort_colors (fun _ => None) [lit "#123456"; lit "#abcdef"]
  = Raise IndexError.
Proof.
  split; [cbn; lia|].
  apply (sort_colors_short (fun _ => None) [lit "#123456"; lit "#abcdef"]).
  cbn. lia.
Defined.

Lemma grey_table_shades k g :
  grey_table !! k = Some g -> g ∈ grey_shades.
Proof.
  intros H.
  assert (k = 0 \/ k = 1 \/ k = 2 \/ k = 3 \/ k = 4 \/ k = 5 \/ k = 6 \/
          k = 7 \/ k = 8 \/ k = 9 \/ (k < 0 \/ 9 < k))%Z as Hk by lia.
  unfold grey_table in H.
  destruct Hk as [->|[->|[->|[->|[->|[->|[->|[->|[->|[->|Hk]]]]]]]]]].
  1-10: vm_compute in H; injection H as <-; unfold grey_shades;
    repeat first [apply list_elem_of_here | apply list_elem_of_further].
  exfalso.
  rewrite <- elem_of_list_to_map in H.
  - repeat (apply elem_of_cons in H as [H|H]; [injection H as ? ?; lia|]).
    by apply elem_of_nil in H.
  - vm_compute. repeat constructor; intros Hin;
      repeat (apply elem_of_cons in Hin as [Hin|Hin]; [discriminate Hin|]);
      by apply elem_of_nil in Hin.
Qed.

Lemma int_of_char_range nd c k :
  digit_valued nd -> int_of_char nd c = Ok k -> (0 <= k <= 9)%Z.
Proof.
  intros Hnd. unfold int_of_char.
  destruct (c <? 128).
  - destruct ((48 <=? c) && (c <=? 57)) eqn:Hd; [|discriminate].
    apply andb_true_iff in Hd as [H1 H2].
    intros [= <-]. apply N.leb_le in H1, H2. lia.
  - destruct (nd c) as [v|] eqn:Hv; [|discriminate].
    intros [= <-]. by apply (Hnd c).
Qed.

Lemma grey_table_digit k :
  (0 <= k <= 9)%Z -> is_Some (grey_table !! k).
Proof.
  intros Hk.
  assert (k = 0 \/ k = 1 \/ k = 2 \/ k = 3 \/ k = 4 \/ k = 5 \/ k = 6 \/
          k = 7 \/ k = 8 \/ k = 9)%Z as Hc by lia.
  destruct Hc as [->|[->|[->|[->|[->|[->|[->|[->|[->| ->]]]]]]]]];
    vm_compute; eauto.
Qed.

Lemma set_grey_inv nd colors g :
  set_grey nd colors = Ok g ->
  exists c0 ch key c7,
    colors !! 0%nat = Some c0 /\ c0 !! 1%nat = Some ch /\
    int_of_char nd ch = Ok key /\ colors !! 7%nat = Some c7 /\
    g = dict_get grey_table key c7.
Proof.
  unfold set_grey, getitem. intros H.
  destruct (colors !! 0%nat) as [c0|] eqn:H0; [|discriminate H].
  cbn in H. destruct (c0 !! 1%nat) as [ch|] eqn:H1; [|discriminate H].
  cbn in H. destruct (int_of_char nd ch) as [key|] eqn:Hk; [|discriminate H].
  cbn in H. destruct (colors !! 7%nat) as [c7|] eqn:H7; [|discriminate H].
  injection H as <-. by exists c0, ch, key, c7.
Qed.

(** X2.  With a table of digit values, whatever [set_grey] returns is one
    of the five shades of its table: the default [colors[7]] is read, so
    it has to exist, but it is never the result. *)
Theorem set_grey_only_shades nd (colors : list pystr) (g : pystr) :
  digit_valued nd -> set_grey nd colors = Ok g ->
  g ∈ grey_shades /\ (8 <= length colors)%nat.
Proof.
  intros Hnd H.
  destruct (set_grey_inv nd colors g H) as (c0&ch&key&c7&H0&H1&Hk&H7&->).
  split.
  - destruct (grey_table_digit key (int_of_char_range nd ch key Hnd Hk))
      as [g Hg].
    unfold dict_get. rewrite Hg. cbn. by apply (grey_table_shades key).
  - apply lookup_lt_Some in H7. lia.
Qed.

Lemma set_grey_only_shades_witness :
  digit_valued (fun _ => None) /\
  set_grey (fun _ => None) pal_demo = Ok (lit "#666666") /\
  lit "#666666" ∈ grey_shades.
Proof.
  assert (digit_valued (fun _ => None)) as Hnd by (intros c v H; discriminate H).
  split; [exact Hnd|]. split; [reflexivity|].
  apply (set_grey_only_shades (fun _ => None) pal_demo (lit "#666666") Hnd).
  reflexivity.
Defined.

Lemma result_bind_ok {A B} (a : A) (f : A -> result B) : Ok a ≫= f = f a.
Proof. reflexivity. Qed.

Lemma set_grey_same_first nd l l' :
  digit_valued nd -> l !! 0%nat = l' !! 0%nat ->
  is_Some (l !! 7%nat) -> is_Some (l' !! 7%nat) ->
  set_grey nd l = set_grey nd l'.
Proof.
  intros Hnd H0 [c7 H7] [c7' H7']. unfold set_grey, getitem.
  rewrite <- H0, H7, H7'.
  destruct (l !! 0%nat) as [c0|]; [|reflexivity]. rewrite !result_bind_ok.
  destruct (c0 !! 1%nat) as [ch|]; [|reflexivity]. rewrite !result_bind_ok.
  destruct (int_of_char nd ch) as [key|] eqn:Hk; [|reflexivity].
  rewrite !result_bind_ok.
  destruct (grey_table_digit key (int_of_char_range nd ch key Hnd Hk))
    as [g Hg].
  unfold dict_get. by rewrite Hg.
Qed.

(** X3.  With a table of digit values, the mapper reads slots 0 and 9 to
    15 of a swatch set and nothing else: two sets of at least sixteen
    entries that agree on those slots are mapped alike, palette or
    exception. *)
Theorem sort_colors_reads_only nd (raw raw' : list pystr) :
  digit_valued nd ->
  (16 <= length raw)%nat -> (16 <= length raw')%nat ->
  (forall i, i ∈ copied_slots -> raw !! i = raw' !! i) ->
  sort_colors nd raw = sort_colors nd raw'.
Proof.
  intros Hnd Hlen Hlen' Hsame.
  assert (set_grey nd raw = set_grey nd raw') as Hgrey.
  { apply set_grey_same_first; [exact Hnd | | |].
    - apply Hsame. apply list_elem_of_here.
    - apply lookup_lt_is_Some. lia.
    - apply lookup_lt_is_Some. lia. }
  unfold sort_colors, getitem. rewrite Hgrey.
  rewrite <- !Hsame
    by (unfold copied_slots;
        repeat first [apply list_elem_of_here | apply list_elem_of_further]).
  reflexivity.
Qed.

Lemma sort_colors_reads_only_witness :
  digit_valued (fun _ => None) /\
  sort_colors (fun _ => None) pal_demo
  = sort_colors (fun _ => None)
      (<[1%nat := lit "zzz"]> (<[7%nat := []]> pal_demo) ++ [lit "more"]).
Proof.
  assert (digit_valued (fun _ => None)) as Hnd by (intros c v H; discriminate H).
  split; [exact Hnd|].
  apply (sort_colors_reads_only (fun _ => None) pal_demo _ Hnd).
  - cbn. lia.
  - cbn. lia.
  - intros i Hi. unfold copied_slots in Hi.
    repeat (apply elem_of_cons in Hi as [->|Hi]; [reflexivity|]).
    by apply elem_of_nil in Hi.
Defined.

(** ** [hex_to_rgb] *)

Lemma hex_value_lt a v : hex_value a = Some v -> v < 16.
Proof.
  unfold hex_value, is_digit, is_lower_af, is_upper_af.
  repeat match goal with
  | |- context [if ?b && ?c then _ else _] =>
    let H := fresh in destruct (b && c) eqn:H;
    [apply andb_true_iff in H as [? ?]|]
  end; intros [= <-]; try discriminate;
  repeat match goal with H : (_ <=? _) = true |- _ => apply N.leb_le in H end;
  lia.
Qed.

Lemma hex_pair_lt a b : hex_pair a b < 256.
Proof.
  unfold hex_pair.
  destruct (hex_value a) as [va|] eqn:Ha, (hex_value b) as [vb|] eqn:Hb;
    cbn;
    try apply hex_value_lt in Ha; try apply hex_value_lt in Hb; lia.
Qed.

Lemma fromhex_hex_pair a b rest :
  is_hex a = true -> is_hex b = true ->
  fromhex (a :: b :: rest) = cons (hex_pair a b) <$> fromhex rest.
Proof.
  intros Ha Hb. cbn [fromhex]. rewrite (is_hex_not_space a Ha). unfold hex_pair.
  destruct (is_hex_value a Ha) as [va ->], (is_hex_value b Hb) as [vb ->].
  reflexivity.
Qed.

(** X4.  For a hash sign and six hexadecimal digits, of either case,
    [hex_to_rgb] returns the three bytes the digit pairs write, in
    decimal without padding and joined by commas; each is below 256. *)
Theorem hex_to_rgb_wellformed (a1 a2 a3 a4 a5 a6 : N) :
  is_color [35; a1; a2; a3; a4; a5; a6] = true ->
  hex_to_rgb [35; a1; a2; a3; a4; a5; a6]
  = Ok (str_int (Z.of_N (hex_pair a1 a2)) ++ lit "," ++
        str_int (Z.of_N (hex_pair a3 a4)) ++ lit "," ++
        str_int (Z.of_N (hex_pair a5 a6))) /\
  hex_pair a1 a2 < 256 /\ hex_pair a3 a4 < 256 /\ hex_pair a5 a6 < 256.
Proof.
  intros Hc.
  destruct (is_color_inv _ Hc) as (b1&b2&b3&b4&b5&b6&Heq&H1&H2&H3&H4&H5&H6).
  injection Heq as -> -> -> -> -> ->.
  split; [|by repeat split; apply hex_pair_lt].
  unfold hex_to_rgb, strip. cbn [lstrip N.eqb Pos.eqb].
  rewrite (is_hex_not_hash b1 H1).
  change (reverse [b1; b2; b3; b4; b5; b6]) with [b6; b5; b4; b3; b2; b1].
  cbn [lstrip]. rewrite (is_hex_not_hash b6 H6).
  change (reverse [b6; b5; b4; b3; b2; b1]) with [b1; b2; b3; b4; b5; b6].
  rewrite !fromhex_hex_pair by assumption. reflexivity.
Qed.

Lemma hex_to_rgb_wellformed_witness :
  is_color [35; 70; 102; 54; 52; 48; 57] = true /\
  hex_to_rgb (lit "#Ff6409") = Ok (lit "255,100,9").
Proof.
  split; [reflexivity|].
  apply (hex_to_rgb_wellformed 70 102 54 52 48 57). reflexivity.
Defined.

(** *** Hash signs around the digits *)

Lemma lstrip_repeat c n s : lstrip c (repeat c n ++ s) = lstrip c s.
Proof.
  induction n as [|n IH]; [reflexivity|].
  cbn [repeat app lstrip]. by rewrite N.eqb_refl.
Qed.

Lemma lstrip_all c s :
  Forall (fun x => x = c) s -> forall t, lstrip c (s ++ t) = lstrip c t.
Proof.
  induction 1 as [|x s -> _ IH]; intros t; [reflexivity|].
  cbn [app lstrip]. by rewrite N.eqb_refl.
Qed.

Lemma lstrip_some c s t :
  ~ Forall (fun x => x = c) s -> lstrip c (s ++ t) = lstrip c s ++ t.
Proof.
  induction s as [|x s IH]; intros Hs; [by destruct Hs|].
  cbn [app lstrip]. destruct (N.eqb_spec x c) as [->|Hx]; [|reflexivity].
  apply IH. intros Hall. apply Hs. by constructor.
Qed.

Lemma reverse_repeat {A} (c : A) n : reverse (repeat c n) = repeat c n.
Proof.
  induction n as [|n IH]; [reflexivity|].
  cbn [repeat]. rewrite reverse_cons, IH.
  clear IH. induction n as [|n IH]; [reflexivity|].
  cbn [repeat app]. by rewrite IH.
Qed.

Lemma lstrip_all_nil c s : Forall (fun x => x = c) s -> lstrip c s = [].
Proof.
  intros H. rewrite <- (app_nil_r s). by rewrite lstrip_all.
Qed.

Lemma strip_hashes c n m s :
  strip c (repeat c n ++ s ++ repeat c m) = strip c s.
Proof.
  unfold strip. rewrite lstrip_repeat.
  destruct (decide (Forall (fun x => x = c) s)) as [Hall|Hsome].
  - rewrite lstrip_all by exact Hall.
    rewrite (lstrip_all_nil c (repeat c m))
      by (apply Forall_forall; intros x Hx; apply list_elem_of_In in Hx;
          by apply repeat_spec in Hx).
    by rewrite (lstrip_all_nil c s).
  - rewrite lstrip_some by exact Hsome.
    by rewrite reverse_app, reverse_repeat, lstrip_repeat.
Qed.

Lemma hex_to_rgb_strip n m s :
  hex_to_rgb (repeat 35 n ++ s ++ repeat 35 m) = hex_to_rgb s.
Proof. unfold hex_to_rgb. by rewrite strip_hashes. Qed.

(** X5.  Hash signs before and after the digits are stripped, however
    many: a colour without a hash sign, or with several on either side,
    is converted like the bare digits. *)
Theorem hex_to_rgb_ignores_hashes (n m : nat) (s : pystr) :
  hex_to_rgb (repeat 35 n ++ s ++ repeat 35 m) = hex_to_rgb s.
Proof. apply hex_to_rgb_strip. Qed.

(** *** The number of digits *)

Lemma lstrip_hex s :
  Forall (fun a => is_hex a = true) s -> lstrip 35 s = s.
Proof.
  intros [|a s' Ha _]; [reflexivity|].
  cbn [lstrip]. by rewrite (is_hex_not_hash a Ha).
Qed.

Lemma strip_hex s :
  Forall (fun a => is_hex a = true) s -> strip 35 s = s.
Proof.
  intros H. unfold strip. rewrite (lstrip_hex s H).
  rewrite lstrip_hex by (by apply Forall_reverse).
  apply reverse_involutive.
Qed.

Lemma fromhex_hex k :
  forall s,
    Forall (fun a => is_hex a = true) s ->
    (length s = 2 * k ->
     exists bs, fromhex s = Ok bs /\ length bs = k)%nat /\
    (length s = 2 * k + 1 -> fromhex s = Raise ValueError)%nat.
Proof.
  induction k as [|k IH]; intros s Hs.
  - split.
    + intros Hlen. destruct s; [|discriminate Hlen]. by exists [].
    + intros Hlen. destruct s as [|a [|b s']]; try discriminate Hlen.
      apply Forall_cons in Hs as [Ha _].
      cbn [fromhex]. by rewrite (is_hex_not_space a Ha).
  - destruct s as [|a [|b s']].
    + split; intros Hlen; cbn in Hlen; lia.
    + split; intros Hlen; cbn in Hlen; lia.
    + apply Forall_cons in Hs as [Ha Hs]. apply Forall_cons in Hs as [Hb Hs].
      rewrite (fromhex_hex_pair a b s' Ha Hb).
      destruct (IH s' Hs) as [Heven Hodd]. split; intros Hlen.
      * destruct Heven as (bs & -> & Hbs); [cbn in Hlen; lia|].
        exists (hex_pair a b :: bs). split; [reflexivity | cbn; lia].
      * rewrite Hodd by (cbn in Hlen; lia). reflexivity.
Qed.

(** X6.  Of a hash sign followed by hexadecimal digits only, those with
    exactly six digits are converted; every other number of digits, the
    three-digit shorthand and an added alpha byte among them, raises
    [ValueError]. *)
Theorem hex_to_rgb_six_digits (s : pystr) :
  forallb is_hex s = true ->
  (length s = 6%nat -> exists rgb, hex_to_rgb (35 :: s) = Ok rgb) /\
  (length s <> 6%nat -> hex_to_rgb (35 :: s) = Raise ValueError).
Proof.
  intros Hs.
  assert (Forall (fun a => is_hex a = true) s) as Hall.
  { apply Forall_forall. intros a Ha. rewrite forallb_forall in Hs.
    apply Hs. by apply list_elem_of_In. }
  assert (hex_to_rgb (35 :: s) = hex_to_rgb s) as ->.
  { pose proof (hex_to_rgb_strip 1 0 s) as H.
    cbn [repeat] in H. rewrite app_nil_r in H. exact H. }
  unfold hex_to_rgb. rewrite (strip_hex s Hall).
  destruct (Nat.Even_or_Odd (length s)) as [[k Hk]|[k Hk]].
  - destruct (proj1 (fromhex_hex k s Hall) Hk) as (bs & -> & Hbs). split.
    + intros Hlen. assert (k = 3)%nat as -> by lia.
      destruct bs as [|r [|g [|b [|]]]]; try discriminate Hbs.
      eexists. reflexivity.
    + intros Hlen. assert (k <> 3)%nat as Hk3 by lia.
      destruct bs as [|r [|g [|b [|]]]]; try reflexivity.
      cbn in Hbs. lia.
  - rewrite (proj2 (fromhex_hex k s Hall) Hk). split; [lia | reflexivity].
Qed.

Lemma hex_to_rgb_six_digits_witness :
  forallb is_hex (lit "abc") = true /\
  hex_to_rgb (lit "#abc") = Raise ValueError.
Proof.
  split; [reflexivity|].
  apply (hex_to_rgb_six_digits (lit "abc")); [reflexivity|].
  vm_compute. lia.
Defined.

(** ** What the generator returns and what it leaves alone *)

Lemma search_hash6_token s :
  forall m, search_hash6 s = Some m -> is_token m = true.
Proof.
  induction s as [|c rest IH]; intros m; cbn [search_hash6]; [discriminate|].
  destruct ((c =? 35) && six_dots rest) eqn:Hhit; [|apply IH].
  intros [= <-]. apply andb_true_iff in Hhit as [Hc Hdots].
  unfold six_dots in Hdots. apply andb_true_iff in Hdots as [Hlen Hdots].
  apply Nat.leb_le in Hlen.
  cbn [is_token]. rewrite Hc, Hdots, length_take.
  replace (6 `min` length rest)%nat with 6%nat by lia. reflexivity.
Qed.

Lemma hex_tokens_ok raws :
  forall tokens,
    hex_tokens raws = Ok tokens ->
    length tokens = length raws /\ Forall (fun t => is_token t = true) tokens.
Proof.
  induction raws as [|col raws IH]; intros tokens; cbn [hex_tokens].
  - intros [= <-]. split; [reflexivity | constructor].
  - unfold hex_token.
    destruct (search_hash6 (bytes_repr col)) as [m|] eqn:Hm; [|discriminate].
    rewrite result_bind_ok.
    destruct (hex_tokens raws) as [ts|e]; [|discriminate].
    rewrite result_bind_ok. intros [= <-].
    destruct (IH ts eq_refl) as [Hlen Hall]. split.
    + cbn. by rewrite Hlen.
    + constructor; [exact (search_hash6_token _ m Hm) | exact Hall].
Qed.

Lemma hex_tokens_error raws e :
  hex_tokens raws = Raise e -> e = AttributeError.
Proof.
  induction raws as [|col raws IH]; cbn [hex_tokens]; [discriminate|].
  unfold hex_token.
  destruct (search_hash6 (bytes_repr col)); [|by intros [= <-]].
  rewrite result_bind_ok.
  destruct (hex_tokens raws) as [ts|e']; [discriminate|].
  intros [= <-]. by apply IH.
Qed.

Section GeneratorOutcome.

Context (E : env) (img : pystr).

Lemma gen_colors_loop_again fuel index raw w :
  (length (tail raw) < 16)%nat ->
  gen_colors_loop E (S fuel) img index raw w =
  gen_colors_loop E fuel img (index + 1)
    (convert E (COLOR_COUNT + (index + 1)) img)
    {| fs := fs w; ct := ct w; args_notify := args_notify w;
       log := (log w ++ [EvConvert (COLOR_COUNT + (index + 1)) img]) ++
              [EvPrint ((lit "colors: Imagemagick couldn't generate a " ++
                         str_int COLOR_COUNT ++
                         lit " color palette, trying a larger palette size " ++
                         str_int (COLOR_COUNT + (index + 1))) ++ [10])] |}.
Proof.
  intros Hshort. cbn [gen_colors_loop]. rewrite loop_test.
  rewrite bool_decide_eq_true_2 by exact Hshort. reflexivity.
Qed.

(** The loop ends with a long enough answer or not at all, and only ever
    calls [convert] and prints. *)
Lemma gen_colors_loop_cases fuel :
  forall index raw w,
    exists w' added,
      fs w' = fs w /\ ct w' = ct w /\ args_notify w' = args_notify w /\
      log w' = log w ++ added /\
      forallb (generator_event img) added = true /\
      (gen_colors_loop E fuel img index raw w = (w', Diverge) \/
       exists out,
         gen_colors_loop E fuel img index raw w = (w', Done out) /\
         (16 <= length (tail out))%nat /\
         (out = raw \/ exists n, out = convert E n img)).
Proof.
  induction fuel as [|fuel IH]; intros index raw w.
  - exists w, []. rewrite app_nil_r. repeat (split; [reflexivity|]).
    cbn [gen_colors_loop]. rewrite loop_test. case_bool_decide.
    + by left.
    + right. exists raw. split; [reflexivity|]. split; [lia | by left].
  - destruct (decide (length (tail raw) < 16)%nat) as [Hshort|Hlong].
    + rewrite gen_colors_loop_again by exact Hshort.
      match goal with
      | |- context [gen_colors_loop E fuel img ?i ?r ?w0] =>
        destruct (IH i r w0)
          as (w' & added & Hfs & Hct & Hn & Hlog & Hev & Hrun)
      end.
      cbn [fs ct args_notify log] in Hfs, Hct, Hn, Hlog.
      exists w'. eexists (_ :: _ :: added).
      repeat (split; [assumption|]). split; [|split].
      * rewrite Hlog, <- !app_assoc. reflexivity.
      * cbn [forallb generator_event]. rewrite Hev.
        by rewrite bool_decide_eq_true_2.
      * destruct Hrun as [Hrun|(out & Hrun & Hlen & Hout)]; [by left|].
        right. exists out. split; [exact Hrun|]. split; [exact Hlen|].
        right. destruct Hout as [->|Hout]; [by eexists | exact Hout].
    + exists w, []. rewrite app_nil_r. repeat (split; [reflexivity|]).
      right. exists raw. split; [|split; [lia | by left]].
      cbn [gen_colors_loop]. rewrite loop_test.
      by rewrite bool_decide_eq_false_2.
Qed.

Lemma gen_colors_cases fuel w :
  exists w' added,
    fs w' = fs w /\ ct w' = ct w /\ args_notify w' = args_notify w /\
    log w' = log w ++ added /\
    forallb (generator_event img) added = true /\
    (gen_colors E fuel img w = (w', Diverge) \/
     gen_colors E fuel img w = (w', Fail AttributeError) \/
     exists tokens,
       gen_colors E fuel img w = (w', Done tokens) /\
       (16 <= length tokens)%nat /\
       Forall (fun t => is_token t = true) tokens /\
       exists n, hex_tokens (tail (convert E n img)) = Ok tokens).
Proof.
  rewrite gen_colors_start.
  match goal with
  | |- context [gen_colors_loop E fuel img ?i ?r] =>
    destruct (gen_colors_loop_cases fuel i r
                {| fs := fs w; ct := ct w; args_notify := args_notify w;
                   log := log w ++ [EvConvert 16 img] |})
      as (w' & added & Hfs & Hct & Hn & Hlog & Hev & Hrun)
  end.
  exists w', (EvConvert 16 img :: added). cbn in Hfs, Hct, Hn, Hlog.
  repeat (split; [assumption|]).
  split; [by rewrite Hlog, <- app_assoc|].
  split; [cbn [forallb generator_event];
          by rewrite Hev, bool_decide_eq_true_2|].
  destruct Hrun as [Hrun|(out & Hrun & Hlen & Hout)].
  - left. by rewrite (bind_diverge _ _ _ _ Hrun).
  - right. rewrite (bind_done _ _ _ _ _ Hrun).
    assert (exists n, out = convert E n img) as [n Hn'].
    { destruct Hout as [->|Hout]; [by eexists | exact Hout]. }
    destruct out as [|header out]; [cbn in Hlen; lia|]. cbn [tail] in Hlen.
    unfold lift. destruct (hex_tokens out) as [tokens|e] eqn:Htok.
    + right. exists tokens. split; [reflexivity|].
      destruct (hex_tokens_ok out tokens Htok) as [Hl Hall].
      split; [lia|]. split; [exact Hall|].
      exists n. by rewrite <- Hn'.
    + left. by rewrite (hex_tokens_error out e Htok).
Qed.

End GeneratorOutcome.

(** X7.  Whenever [gen_colors] returns, it returns at least sixteen
    tokens, each a hash sign followed by six characters none of which is
    a newline: the retry loop never lets a shorter answer through. *)
Theorem gen_colors_tokens (E : env) (fuel : nat) (img : pystr) (w w' : world)
    (tokens : list pystr) :
  gen_colors E fuel img w = (w', Done tokens) ->
  (16 <= length tokens)%nat /\ forallb is_token tokens = true.
Proof.
  intros Hrun.
  destruct (gen_colors_cases E img fuel w)
    as (w1 & added & _ & _ & _ & _ & _ & [H|[H|(ts & H & Hlen & Hall & _)]]);
    rewrite Hrun in H; try discriminate H.
  injection H as -> ->. split; [exact Hlen|].
  apply forallb_forall. intros t Ht.
  rewrite Forall_forall in Hall. apply Hall. by apply list_elem_of_In.
Qed.

Lemma gen_colors_tokens_witness :
  (16 <= length (repeat (lit "#1A2B3C") 16))%nat /\
  forallb is_token (repeat (lit "#1A2B3C") 16) = true.
Proof.
  apply (gen_colors_tokens E_demo 3 (lit "a.png") (world_init ∅)
           (fst (gen_colors E_demo 3 (lit "a.png") (world_init ∅)))
           (repeat (lit "#1A2B3C") 16)).
  vm_compute. reflexivity.
Defined.

(** X8.  [gen_colors] changes no file, none of the shared lists and not
    the notification switch; all it does to the outside is call [convert]
    on its image and print.  It never exits the process, and the only
    exception it can end with is the [AttributeError] of a line without a
    token: the [del raw_colors[0]] after the loop cannot fail. *)
Theorem gen_colors_effects (E : env) (fuel : nat) (img : pystr) (w : world) :
  let r := gen_colors E fuel img w in
  fs (fst r) = fs w /\ ct (fst r) = ct w /\
  args_notify (fst r) = args_notify w /\
  (exists added,
      log (fst r) = log w ++ added /\
      forallb (generator_event img) added = true) /\
  (forall code, snd r <> Exit code) /\
  (forall e, snd r = Fail e -> e = AttributeError).
Proof.
  cbv zeta.
  destruct (gen_colors_cases E img fuel w)
    as (w1 & added & Hfs & Hct & Hn & Hlog & Hev & Hrun).
  assert (fst (gen_colors E fuel img w) = w1) as Hw.
  { destruct Hrun as [->|[->|(ts & -> & _)]]; reflexivity. }
  rewrite Hw. repeat (split; [assumption|]).
  split; [by exists added|].
  destruct Hrun as [->|[->|(ts & -> & _)]]; cbn [snd];
    split; try discriminate; intros e [= <-]; reflexivity.
Qed.

(** ** Lines written and read back *)

Lemma no_linebreak_cons c l :
  no_linebreak (c :: l) = true ->
  is_linebreak c = false /\ no_linebreak l = true.
Proof.
  unfold no_linebreak. cbn [forallb]. intros H.
  apply andb_true_iff in H as [Hc Hl]. split; [|exact Hl].
  by destruct (is_linebreak c).
Qed.

Lemma no_linebreak_app a b :
  no_linebreak a = true -> no_linebreak b = true ->
  no_linebreak (a ++ b) = true.
Proof. unfold no_linebreak. rewrite forallb_app. by intros -> ->. Qed.

Lemma universal_newlines_line l :
  forall rest,
    no_linebreak l = true ->
    universal_newlines (l ++ 10 :: rest) = l ++ 10 :: universal_newlines rest.
Proof.
  induction l as [|c l IH]; intros rest Hl; [reflexivity|].
  apply no_linebreak_cons in Hl as [Hc Hl].
  cbn [app universal_newlines]. rewrite (not_linebreak_not_cr c Hc).
  by rewrite (IH rest Hl).
Qed.

Lemma universal_newlines_last l :
  no_linebreak l = true -> universal_newlines l = l.
Proof.
  induction l as [|c l IH]; intros Hl; [reflexivity|].
  apply no_linebreak_cons in Hl as [Hc Hl].
  cbn [universal_newlines]. rewrite (not_linebreak_not_cr c Hc).
  by rewrite (IH Hl).
Qed.

Lemma splitlines_from_line l :
  forall cur rest,
    no_linebreak l = true ->
    splitlines_from cur (l ++ 10 :: rest)
    = (cur ++ l) :: splitlines_from [] rest.
Proof.
  induction l as [|c l IH]; intros cur rest Hl.
  - by rewrite app_nil_r.
  - apply no_linebreak_cons in Hl as [Hc Hl].
    cbn [app splitlines_from]. rewrite Hc, (IH _ rest Hl).
    by rewrite <- app_assoc.
Qed.

Lemma splitlines_from_last l :
  forall cur,
    no_linebreak l = true -> cur ++ l <> [] ->
    splitlines_from cur l = [cur ++ l].
Proof.
  induction l as [|c l IH]; intros cur Hl Hne.
  - rewrite app_nil_r in Hne |- *. cbn. by destruct cur.
  - apply no_linebreak_cons in Hl as [Hc Hl].
    cbn [splitlines_from]. rewrite Hc, (IH _ Hl).
    + by rewrite <- app_assoc.
    + by destruct cur.
Qed.

(** Lines joined by newlines are read back as they were, provided none
    of them contains a line boundary and the last one is not empty. *)
Lemma joined_lines_read_back ls :
  forallb no_linebreak ls = true -> last ls <> Some [] ->
  splitlines (universal_newlines (join [10] ls)) = ls.
Proof.
  unfold splitlines.
  induction ls as [|l ls IH]; intros Hls Hlast; [reflexivity|].
  cbn [forallb] in Hls. apply andb_true_iff in Hls as [Hl Hls].
  destruct ls as [|l' ls].
  - cbn [join]. rewrite (universal_newlines_last l Hl).
    apply (splitlines_from_last l [] Hl). cbn. intros ->. by apply Hlast.
  - change (join [10] (l :: l' :: ls)) with (l ++ 10 :: join [10] (l' :: ls)).
    rewrite (universal_newlines_line l _ Hl).
    rewrite (splitlines_from_line l [] _ Hl). cbn [app].
    f_equal. apply IH; [exact Hls | exact Hlast].
Qed.

(** With a newline after the last line, empty lines survive too. *)
Lemma document_read_back ls :
  forallb no_linebreak ls = true ->
  splitlines (universal_newlines (document ls))
  = match ls with [] => [[]] | _ => ls end.
Proof.
  unfold splitlines, document.
  induction ls as [|l ls IH]; intros Hls; [reflexivity|].
  cbn [forallb] in Hls. apply andb_true_iff in Hls as [Hl Hls].
  destruct ls as [|l' ls].
  - cbn [join]. rewrite (universal_newlines_line l [] Hl).
    cbn [universal_newlines].
    by rewrite (splitlines_from_line l [] [] Hl).
  - change (join [10] (l :: l' :: ls) ++ [10])
      with ((l ++ 10 :: join [10] (l' :: ls)) ++ [10]).
    rewrite <- app_assoc. cbn [app].
    rewrite (universal_newlines_line l _ Hl).
    rewrite (splitlines_from_line l [] _ Hl). cbn [app].
    f_equal. apply (IH Hls).
Qed.

Section ReadBack.

Context (E : env).

Lemma read_file_present path content w :
  fs w !! path = Some content ->
  read_file path w
  = (with_log w (log w ++ [EvRead path]),
     Done (splitlines (universal_newlines content))).
Proof. intros H. unfold read_file. rewrite H. reflexivity. Qed.

Lemma save_colors_done lines name msg w w1 :
  save_colors E lines name msg w = (w1, Done ()) ->
  fs w1 !! path_join (CACHE_DIR E) name = Some (document lines).
Proof.
  unfold save_colors. destruct (unwritable E (path_join (CACHE_DIR E) name))
    eqn:Hw.
  - rewrite (bind_fail _ _ _ _ _ (save_file_refused E _ _ _ Hw)). discriminate.
  - rewrite (bind_done _ _ _ _ _ (save_file_ok E _ _ _ Hw)).
    intros [= <-]. cbn [fs]. apply lookup_insert_eq.
Qed.

End ReadBack.

(** X9.  What [save_colors] writes, [read_file] reads back line by line:
    a list of lines without line boundaries comes back unchanged, empty
    lines included.  The empty list is the exception: its document is one
    newline, which reads back as one empty line. *)
Theorem save_colors_read_back (E : env) (lines : list pystr)
    (name msg : pystr) (w w1 w2 : world) :
  forallb no_linebreak lines = true ->
  save_colors E lines name msg w = (w1, Done ()) ->
  fs w2 !! path_join (CACHE_DIR E) name
    = fs w1 !! path_join (CACHE_DIR E) name ->
  snd (read_file (path_join (CACHE_DIR E) name) w2)
  = Done (match lines with [] => [[]] | _ => lines end).
Proof.
  intros Hlines Hsave Hsame.
  rewrite (save_colors_done E lines name msg w w1 Hsave) in Hsame.
  rewrite (read_file_present _ _ _ Hsame). cbn [snd].
  by rewrite (document_read_back lines Hlines).
Qed.

Lemma save_colors_read_back_witness :
  snd (read_file (lit "/home/u/.cache/wal/colors")
         (fst (save_colors E_demo [lit "#111111"; []; lit "#222222"]
                 (lit "colors") (lit "plain hex colors") (world_init ∅))))
  = Done [lit "#111111"; []; lit "#222222"].
Proof.
  apply (save_colors_read_back E_demo [lit "#111111"; []; lit "#222222"]
           (lit "colors") (lit "plain hex colors") (world_init ∅)
           (fst (save_colors E_demo [lit "#111111"; []; lit "#222222"]
                   (lit "colors") (lit "plain hex colors") (world_init ∅)))).
  - reflexivity.
  - vm_compute. reflexivity.
  - reflexivity.
Defined.

(** ** A cache hit *)



(** ** A cache miss, and the call after it *)

Lemma printable_not_linebreak c :
  is_printable c = true -> is_linebreak c = false.
Proof.
  unfold is_printable, is_linebreak. intros H.
  apply andb_true_iff in H as [H1 H2].
  apply N.leb_le in H1. apply N.ltb_lt in H2.
  repeat match goal with
         | |- context [?a <=? ?b] => destruct (N.leb_spec a b)
         | |- context [?a =? ?b] => destruct (N.eqb_spec a b)
         end; try reflexivity; lia.
Qed.

Lemma printable_no_linebreak l :
  forallb is_printable l = true -> no_linebreak l = true.
Proof.
  unfold no_linebreak. rewrite !forallb_forall. intros H c Hc.
  by rewrite (printable_not_linebreak c (H c Hc)).
Qed.

Lemma hex_digit_printable d : d < 16 -> is_printable (hex_digit d) = true.
Proof.
  intros Hd. unfold hex_digit, is_printable.
  destruct (N.ltb_spec d 10); apply andb_true_iff; split;
    first [apply N.leb_le | apply N.ltb_lt]; lia.
Qed.

Lemma repr_byte_printable q c :
  q = 34 \/ q = 39 -> c < 256 ->
  forallb is_printable (repr_byte q c) = true.
Proof.
  intros Hq Hc. unfold repr_byte.
  destruct ((c =? q) || (c =? 92)) eqn:H1.
  { apply orb_true_iff in H1 as [H1|H1]; apply N.eqb_eq in H1; subst c;
      [destruct Hq as [->| ->]|]; reflexivity. }
  destruct (c =? 9); [reflexivity|].
  destruct (c =? 10); [reflexivity|].
  destruct (c =? 13); [reflexivity|].
  destruct ((c <? 32) || (127 <=? c)) eqn:H2.
  - change (lit "\x") with [92; 120]. cbn [app forallb].
    rewrite !hex_digit_printable; [reflexivity | |].
    + change 15 with (N.ones 4). rewrite N.land_ones.
      apply N.mod_lt. discriminate.
    + rewrite N.shiftr_div_pow2. change (2 ^ 4) with 16.
      apply N.Div0.div_lt_upper_bound. lia.
  - apply orb_false_iff in H2 as [H2 H3].
    apply N.ltb_ge in H2. apply N.leb_gt in H3.
    cbn [forallb]. unfold is_printable.
    rewrite (proj2 (N.leb_le 32 c) H2), (proj2 (N.ltb_lt c 127) H3).
    reflexivity.
Qed.

Lemma repr_bytes_printable q b :
  q = 34 \/ q = 39 -> Forall (fun c => c < 256) b ->
  forallb is_printable (flat_map (repr_byte q) b) = true.
Proof.
  intros Hq Hb. induction Hb as [|c b Hc Hb IH]; [reflexivity|].
  cbn [flat_map]. rewrite forallb_app, IH.
  by rewrite (repr_byte_printable q c Hq Hc).
Qed.

Lemma bytes_repr_printable b :
  Forall (fun c => c < 256) b -> forallb is_printable (bytes_repr b) = true.
Proof.
  intros Hb. unfold bytes_repr.
  destruct (existsb (N.eqb 39) b && negb (existsb (N.eqb 34) b)).
  - change (forallb is_printable
              (98 :: 34 :: flat_map (repr_byte 34) b ++ [34]) = true).
    cbn [forallb]. rewrite forallb_app, repr_bytes_printable; auto.
  - change (forallb is_printable
              (98 :: 39 :: flat_map (repr_byte 39) b ++ [39]) = true).
    cbn [forallb]. rewrite forallb_app, repr_bytes_printable; auto.
Qed.

Lemma search_hash6_within (P : N -> bool) s :
  forall m, search_hash6 s = Some m ->
            forallb P s = true -> forallb P m = true.
Proof.
  induction s as [|c rest IH]; intros m; cbn [search_hash6]; [discriminate|].
  cbn [forallb]. intros Hm Hs. apply andb_true_iff in Hs as [Hc Hrest].
  destruct ((c =? 35) && six_dots rest).
  - injection Hm as <-. cbn [forallb]. rewrite Hc. cbn [andb].
    rewrite forallb_forall in Hrest |- *. intros x Hx. apply Hrest.
    apply list_elem_of_In. apply list_elem_of_In in Hx.
    by apply (subseteq_take 6 rest).
  - by apply IH.
Qed.

Lemma hex_tokens_printable raws :
  forall tokens,
    Forall (Forall (fun c => c < 256)) raws ->
    hex_tokens raws = Ok tokens ->
    Forall (fun t => forallb is_printable t = true) tokens.
Proof.
  induction raws as [|col raws IH]; intros tokens Hraws; cbn [hex_tokens].
  - intros [= <-]. constructor.
  - apply Forall_cons in Hraws as [Hcol Hraws]. unfold hex_token.
    destruct (search_hash6 (bytes_repr col)) as [m|] eqn:Hm; [|discriminate].
    rewrite result_bind_ok.
    destruct (hex_tokens raws) as [ts|e]; [|discriminate].
    rewrite result_bind_ok. intros [= <-]. constructor.
    + apply (search_hash6_within is_printable _ m Hm).
      by apply bytes_repr_printable.
    + by apply IH.
Qed.

Lemma token_second t :
  is_token t = true -> exists ch, t !! 1%nat = Some ch.
Proof.
  destruct t as [|c [|ch rest]]; cbn; try discriminate.
  - rewrite andb_false_r. discriminate.
  - by exists ch.
Qed.

Lemma token_not_empty t : is_token t = true -> t <> [].
Proof. by destruct t. Qed.

Lemma int_of_char_error nd ch e :
  int_of_char nd ch = Raise e -> e = ValueError.
Proof.
  unfold int_of_char.
  destruct (ch <? 128); [destruct (_ && _) | destruct (nd ch)];
    by intros [= <-].
Qed.

Lemma sort_colors_tokens_error nd tokens e :
  (16 <= length tokens)%nat ->
  Forall (fun t => is_token t = true) tokens ->
  sort_colors nd tokens = Raise e -> e = ValueError.
Proof.
  intros Hlen Hall Hsort.
  destruct (set_grey nd tokens) as [g|e'] eqn:Hg.
  { destruct (sort_colors_shape nd tokens g Hlen Hg) as (p & Hp & _).
    rewrite Hp in Hsort. discriminate Hsort. }
  rewrite (sort_colors_grey_error nd tokens e' Hlen Hg) in Hsort.
  injection Hsort as <-.
  destruct (at_least_16 tokens Hlen)
    as (a0&a1&a2&a3&a4&a5&a6&a7&a8&a9&a10&a11&a12&a13&a14&a15&t&->).
  apply Forall_cons in Hall as [Ha0 _].
  destruct (token_second a0 Ha0) as [ch Hch].
  unfold set_grey, getitem in Hg. cbn [app lookup list_lookup] in Hg.
  rewrite result_bind_ok, Hch, result_bind_ok in Hg.
  destruct (int_of_char nd ch) as [key|e''] eqn:Hk.
  - discriminate Hg.
  - injection Hg as <-. by apply (int_of_char_error nd ch).
Qed.

Lemma sort_colors_members nd raw p :
  sort_colors nd raw = Ok p ->
  length p = 16%nat /\ forall c, c ∈ p -> c ∈ raw \/ c ∈ grey_shades.
Proof.
  intros Hp.
  assert (16 <= length raw)%nat as Hlen.
  { destruct (decide (length raw < 16)%nat) as [Hshort|]; [|lia].
    rewrite (sort_colors_short_run nd raw Hshort) in Hp. discriminate Hp. }
  destruct (set_grey nd raw) as [g|e] eqn:Hg.
  2: { rewrite (sort_colors_grey_error nd raw e Hlen Hg) in Hp.
       discriminate Hp. }
  destruct (set_grey_inv nd raw g Hg) as (c0&ch&key&c7&H0&H1&Hk&H7&Hgrey).
  assert (g ∈ raw \/ g ∈ grey_shades) as Hgin.
  { subst g. unfold dict_get. destruct (grey_table !! key) as [s|] eqn:Hs.
    - right. by apply (grey_table_shades key).
    - left. by apply (list_elem_of_lookup_2 raw 7%nat). }
  destruct (at_least_16 raw Hlen)
    as (a0&a1&a2&a3&a4&a5&a6&a7&a8&a9&a10&a11&a12&a13&a14&a15&t&->).
  unfold sort_colors in Hp. rewrite Hg in Hp. injection Hp as <-.
  split; [reflexivity|]. intros c Hc. cbn [app] in Hc.
  repeat (apply elem_of_cons in Hc as [->|Hc];
          [first [ exact Hgin
                 | left; repeat first [ apply list_elem_of_here
                                      | apply list_elem_of_further ] ]|]).
  by apply elem_of_nil in Hc.
Qed.

Lemma grey_shades_printable g :
  g ∈ grey_shades -> forallb is_printable g = true /\ g <> [].
Proof.
  unfold grey_shades. intros Hg.
  repeat (apply elem_of_cons in Hg as [->|Hg]; [by split|]).
  by apply elem_of_nil in Hg.
Qed.

Section CacheMiss.

Context (E : env).

Lemma is_file_run path w :
  is_file path w
  = (with_log w (log w ++ [EvIsFile path]),
     Done (bool_decide (is_Some (fs w !! path)))).
Proof. reflexivity. Qed.

Lemma print_run text w :
  print text w = (with_log w (log w ++ [EvPrint (text ++ [10])]), Done ()).
Proof. reflexivity. Qed.

Lemma notify_run msg w :
  exists w',
    notify E msg w = (w', Done ()) /\
    fs w' = fs w /\ ct w' = ct w /\ args_notify w' = args_notify w.
Proof.
  unfold notify. destruct (which E _ && args_notify w).
  - by eexists.
  - by exists w.
Qed.

Lemma lift_raise {A} e w : lift (Raise e : result A) w = (w, Fail e).
Proof. reflexivity. Qed.

(** A miss, case by case. *)
Lemma get_colors_miss_cases fuel img w :
  unwritable E (wal_file E) = false ->
  fs w !! cache_file_of E img = None ->
  exists w' o,
    get_colors E fuel img w = (w', o) /\
    ct w' = ct w /\ args_notify w' = args_notify w /\
    match o with
    | Done colors =>
      fs w' = <[cache_file_of E img := join [10] colors]>
                (<[wal_file E := img]> (fs w)) /\
      exists n tokens,
        hex_tokens (tail (convert E n img)) = Ok tokens /\
        (16 <= length tokens)%nat /\
        sort_colors (nd_value E) tokens = Ok colors
    | Fail e =>
      fs w' = <[wal_file E := img]> (fs w) /\
      (e = AttributeError \/ e = ValueError \/ e = OSError)
    | Exit _ => False
    | Diverge => fs w' = <[wal_file E := img]> (fs w)
    end.
Proof.
  intros Hw Hc. unfold get_colors.
  rewrite (bind_done _ _ _ _ _ (save_file_ok E _ _ _ Hw)).
  rewrite (bind_done _ _ _ _ _ (is_file_run _ _)).
  rewrite bool_decide_eq_false_2.
  2: { cbn [fs]. rewrite lookup_insert_ne by apply cache_file_not_wal.
       rewrite Hc. by intros [? ?]. }
  rewrite (bind_done _ _ _ _ _ (print_run _ _)).
  match goal with
  | |- context [(notify E ?msg ≫= _) ?w0] =>
    destruct (notify_run msg w0) as (w1 & Hrun1 & Hfs1 & Hct1 & Hn1)
  end.
  rewrite (bind_done _ _ _ _ _ Hrun1).
  cbn [with_log fs ct args_notify] in Hfs1, Hct1, Hn1.
  destruct (gen_colors_cases E img fuel w1)
    as (w2 & added & Hfs2 & Hct2 & Hn2 & _ & _ & Hgen).
  rewrite Hfs1 in Hfs2. rewrite Hct1 in Hct2. rewrite Hn1 in Hn2.
  destruct Hgen as [Hgen|[Hgen|(tokens & Hgen & Hlen & Hall & n & Hn)]].
  { rewrite (bind_diverge _ _ _ _ Hgen). by exists w2, Diverge. }
  { rewrite (bind_fail _ _ _ _ _ Hgen). exists w2, (Fail AttributeError).
    split_and!; try done. by left. }
  rewrite (bind_done _ _ _ _ _ Hgen).
  destruct (sort_colors (nd_value E) tokens) as [colors|e] eqn:Hsort.
  2: { rewrite (bind_fail _ _ _ _ _ (lift_raise e w2)).
       exists w2, (Fail e). split_and!; try done.
       right. left.
       by apply (sort_colors_tokens_error (nd_value E) tokens). }
  rewrite (bind_done _ _ _ _ _ (lift_ok colors w2)).
  destruct (unwritable E (cache_file_of E img)) eqn:Hcw.
  { rewrite (bind_fail _ _ _ _ _ (save_file_refused E _ _ _ Hcw)).
    eexists _, (Fail OSError). split; [reflexivity|].
    cbn [fs ct args_notify]. split_and!; try done. by right; right. }
  rewrite (bind_done _ _ _ _ _ (save_file_ok E _ _ _ Hcw)).
  rewrite (bind_done _ _ _ _ _ (print_run _ _)).
  match goal with
  | |- context [(notify E ?msg ≫= _) ?w0] =>
    destruct (notify_run msg w0) as (w3 & Hrun3 & Hfs3 & Hct3 & Hn3)
  end.
  rewrite (bind_done _ _ _ _ _ Hrun3).
  cbn [with_log fs ct args_notify] in Hfs3, Hct3, Hn3.
  exists w3, (Done colors). split; [reflexivity|].
  rewrite Hfs3, Hct3, Hn3, Hfs2. split_and!; try done.
  by exists n, tokens.
Qed.

(** The colours of a completed miss are cut by no line boundary. *)
Lemma sorted_tokens_lines n img tokens colors :
  octet_lines E img ->
  hex_tokens (tail (convert E n img)) = Ok tokens ->
  sort_colors (nd_value E) tokens = Ok colors ->
  forallb no_linebreak colors = true /\ last colors <> Some [].
Proof.
  intros Hoct Htok Hsort.
  assert (Forall (fun t => forallb is_printable t = true /\ t <> []) tokens)
    as Htokens.
  { pose proof (hex_tokens_printable _ tokens
                  (Forall_tail _ _ (Hoct n)) Htok) as Hpr.
    destruct (hex_tokens_ok _ tokens Htok) as [_ Hshape].
    rewrite Forall_forall in Hpr, Hshape |- *. intros t Ht.
    split; [by apply Hpr | by apply token_not_empty, Hshape]. }
  destruct (sort_colors_members _ tokens colors Hsort) as [Hlen Hmem].
  assert (forall c, c ∈ colors -> forallb is_printable c = true /\ c <> [])
    as Hcolors.
  { intros c Hc. destruct (Hmem c Hc) as [Hin|Hin].
    - rewrite Forall_forall in Htokens. by apply Htokens.
    - by apply grey_shades_printable. }
  split.
  - apply forallb_forall. intros c Hc. apply printable_no_linebreak.
    apply Hcolors. by apply list_elem_of_In.
  - intros Hlast. apply last_Some in Hlast as [front ->].
    destruct (Hcolors []) as [_ Hne]; [|by apply Hne].
    apply elem_of_app. right. apply list_elem_of_here.
Qed.

End CacheMiss.



(** X11.  [get_colors] never exits the process and never touches the
    shared lists; when it raises, it is with [OSError] (a file that
    cannot be written), [AttributeError] (a line of [convert] without a
    token) or [ValueError] (the grey key), never with [IndexError]: the
    tokens it hands to the mapper are always at least sixteen. *)
Theorem get_colors_failures (E : env) (fuel : nat) (img : pystr) (w : world) :
  ct (fst (get_colors E fuel img w)) = ct w /\
  (forall code, snd (get_colors E fuel img w) <> Exit code) /\
  (forall e, snd (get_colors E fuel img w) = Fail e ->
             e = OSError \/ e = AttributeError \/ e = ValueError).
Proof.
  destruct (unwritable E (wal_file E)) eqn:Hw.
  { rewrite (get_colors_refused E fuel img w Hw). cbn [fst snd ct].
    split; [done|]. split; [done|]. intros e [= <-]. by left. }
  destruct (fs w !! cache_file_of E img) as [content|] eqn:Hc.
  { rewrite (get_colors_hit E fuel img w content Hw Hc). cbn [fst snd ct].
    split; [done|]. split; done. }
  destruct (get_colors_miss_cases E fuel img w Hw Hc)
    as (w' & o & -> & Hct & _ & Ho).
  cbn [fst snd]. split; [exact Hct|]. split.
  - intros code ->. destruct Ho.
  - intros e ->. destruct Ho as [_ [->|[->| ->]]]; auto.
Qed.

(** X12.  Once [get_colors] has returned a palette for an image whose
    [convert] output is made of octets, every later call for that image
    returns the same palette without calling [convert], as long as the
    cache file is as the first call left it: what a miss writes is what a
    hit reads. *)
Theorem get_colors_again (E : env) (fuel fuel' : nat) (img : pystr)
    (w w1 w2 : world) (colors : list pystr) :
  octet_lines E img ->
  get_colors E fuel img w = (w1, Done colors) ->
  fs w2 !! cache_file_of E img = fs w1 !! cache_file_of E img ->
  snd (get_colors E fuel' img w2) = Done colors /\
  requests (log (fst (get_colors E fuel' img w2))) = requests (log w2).
Proof.
  intros Hoct Hrun Hsame.
  destruct (unwritable E (wal_file E)) eqn:Hw.
  { rewrite (get_colors_refused E fuel img w Hw) in Hrun. discriminate Hrun. }
  assert (exists content,
            fs w1 !! cache_file_of E img = Some content /\
            splitlines (universal_newlines content) = colors)
    as (content & Hcontent & Hlines).
  { destruct (fs w !! cache_file_of E img) as [content|] eqn:Hc.
    - rewrite (get_colors_hit E fuel img w content Hw Hc) in Hrun.
      injection Hrun as <- <-. exists content. split; [|reflexivity].
      cbn [fs]. by rewrite lookup_insert_ne by apply cache_file_not_wal.
    - destruct (get_colors_miss_cases E fuel img w Hw Hc)
        as (w' & o & Hrun' & _ & _ & Ho).
      rewrite Hrun in Hrun'. injection Hrun' as <- <-.
      destruct Ho as (Hfs & n & tokens & Htok & _ & Hsort).
      exists (join [10] colors). split.
      + rewrite Hfs. apply lookup_insert_eq.
      + destruct (sorted_tokens_lines E n img tokens colors Hoct Htok Hsort)
          as [Hlines Hlast].
        by apply joined_lines_read_back. }
  rewrite Hcontent in Hsame.
  rewrite (get_colors_hit E fuel' img w2 content Hw Hsame).
  cbn [fst snd log]. split; [by rewrite Hlines|].
  unfold requests. rewrite omap_app. cbn. by rewrite app_nil_r.
Qed.

Lemma get_colors_again_witness :
  snd (get_colors E_demo 0 (lit "/a/b.jpg")
         (fst (get_colors E_demo 3 (lit "/a/b.jpg") (world_init ∅))))
  = Done (repeat (lit "#1A2B3C") 8 ++ [lit "#666666"]
          ++ repeat (lit "#1A2B3C") 7).
Proof.
  apply (get_colors_again E_demo 3 0 (lit "/a/b.jpg") (world_init ∅)
           (fst (get_colors E_demo 3 (lit "/a/b.jpg") (world_init ∅)))
           (fst (get_colors E_demo 3 (lit "/a/b.jpg") (world_init ∅)))).
  - intros n. unfold E_demo, convert.
    apply Forall_forall. intros l Hl. apply list_elem_of_In in Hl.
    apply repeat_spec in Hl. subst l.
    apply Forall_forall. intros c Hc. vm_compute in Hc.
    repeat (apply elem_of_cons in Hc as [->|Hc]; [reflexivity|]).
    by apply elem_of_nil in Hc.
  - vm_compute. reflexivity.
  - reflexivity.
Defined.

(** ** Palettes that [send_sequences] cannot send *)

Lemma fromhex_two c d rest :
  fromhex (c :: d :: rest)
  = if is_space c then fromhex (d :: rest)
    else match hex_value c, hex_value d with
         | Some h, Some l => cons (16 * h + l) <$> fromhex rest
         | _, _ => Raise ValueError
         end.
Proof. reflexivity. Qed.

Lemma fromhex_error_bounded n :
  forall s e, (length s <= n)%nat -> fromhex s = Raise e -> e = ValueError.
Proof.
  induction n as [|n IH]; intros s e Hlen.
  - destruct s; [discriminate | cbn in Hlen; lia].
  - destruct s as [|c [|d rest]].
    + discriminate.
    + cbn [fromhex]. destruct (is_space c); [discriminate | by intros [= <-]].
    + rewrite fromhex_two. destruct (is_space c).
      * apply IH. cbn in Hlen |- *. lia.
      * destruct (hex_value c), (hex_value d); try by intros [= <-].
        destruct (fromhex rest) as [bs|e'] eqn:Hrest; [discriminate|].
        intros [= <-]. apply (IH rest); [cbn in Hlen; lia | exact Hrest].
Qed.

Lemma fromhex_error s e : fromhex s = Raise e -> e = ValueError.
Proof. by apply (fromhex_error_bounded (length s)). Qed.

Lemma hex_to_rgb_error c e : hex_to_rgb c = Raise e -> e = ValueError.
Proof.
  unfold hex_to_rgb. destruct (fromhex (strip 35 c)) as [bs|e'] eqn:Hbs.
  - rewrite result_bind_ok.
    destruct bs as [|r [|g [|b [|]]]]; by intros [= <-].
  - intros [= <-]. by apply (fromhex_error (strip 35 c)).
Qed.

Section Unsendable.

Context (E : env).

Lemma set_color_fails index color w :
  convertible color = false ->
  exists w',
    set_color index color w = (w', Fail ValueError) /\
    fs w' = fs w /\ log w' = log w /\ args_notify w' = args_notify w.
Proof.
  unfold convertible. intros H.
  destruct (hex_to_rgb color) as [rgb|e] eqn:Hrgb; [discriminate H|].
  rewrite (hex_to_rgb_error color e Hrgb) in Hrgb.
  unfold set_color. rewrite Hrgb. step_appends.
  rewrite (bind_fail _ _ _ _ _ (lift_raise ValueError _)).
  by eexists.
Qed.

Lemma for_each_set_color_fails colors :
  forall start w,
    forallb convertible colors = false ->
    exists w',
      for_each (fun '(num, color) => set_color num color)
               (enumerate_from start colors) w
      = (w', Fail ValueError) /\
      fs w' = fs w /\ log w' = log w /\ args_notify w' = args_notify w.
Proof.
  induction colors as [|c rest IH]; intros start w Hbad; [discriminate Hbad|].
  cbn [forallb] in Hbad. cbn [enumerate_from for_each].
  destruct (convertible c) eqn:Hc.
  - unfold convertible in Hc.
    destruct (hex_to_rgb c) as [rgb|] eqn:Hrgb; [|discriminate Hc].
    rewrite (bind_done _ _ _ _ _ (set_color_run start c rgb w Hrgb)).
    destruct (IH (start + 1)%Z
                (with_ct w (ct_app (ct w) (color_lines start c rgb))) Hbad)
      as (w' & Hrun & Hfs & Hlog & Hn).
    by exists w'.
  - destruct (set_color_fails start c w Hc) as (w' & Hrun & Hfs & Hlog & Hn).
    exists w'. by rewrite (bind_fail _ _ _ _ _ Hrun).
Qed.

Lemma send_sequences_unsendable colors vte w :
  (16 <= length colors)%nat -> forallb convertible colors = false ->
  exists w',
    send_sequences E colors vte w = (w', Fail ValueError) /\
    fs w' = fs w /\ log w' = log w /\ args_notify w' = args_notify w.
Proof.
  intros Hlen Hbad.
  destruct (lookup_lt_is_Some_2 colors 0) as [c0 H0]; [lia|].
  destruct (lookup_lt_is_Some_2 colors 15) as [c15 H15]; [lia|].
  unfold send_sequences.
  rewrite (bind_done _ _ _ _ _ (special_step _ _ 10 _ _ H15)).
  rewrite (bind_done _ _ _ _ _ (special_step _ _ 11 _ _ H0)).
  rewrite (bind_done _ _ _ _ _ (special_step _ _ 12 _ _ H15)).
  rewrite (bind_done _ _ _ _ _ (special_step _ _ 13 _ _ H15)).
  rewrite (bind_done _ _ _ _ _ (special_step _ _ 14 _ _ H0)).
  rewrite (bind_done _ _ _ _ _ (vte_step _ _ vte _ H0)).
  match goal with
  | |- context [(for_each _ (enumerate_from ?s colors) ≫= _) ?w0] =>
    destruct (for_each_set_color_fails colors s w0 Hbad)
      as (w' & Hrun & Hfs & Hlog & Hn)
  end.
  rewrite (bind_fail _ _ _ _ _ Hrun). by exists w'.
Qed.

End Unsendable.

(** X13.  With fewer than sixteen colours [send_sequences] raises
    [IndexError] at its first statement: nothing has been appended to the
    shared lists, written to a terminal or printed. *)
Theorem send_sequences_short (E : env) (colors : list pystr) (vte : bool)
    (w : world) :
  (length colors < 16)%nat ->
  send_sequences E colors vte w = (w, Fail IndexError).
Proof.
  intros Hlen. unfold send_sequences.
  assert (getitem colors 15 = Raise IndexError) as Hget.
  { unfold getitem. by rewrite lookup_ge_None_2 by lia. }
  rewrite bind_assoc_run, Hget.
  by rewrite (bind_fail _ _ _ _ _ (lift_raise IndexError w)).
Qed.

Lemma send_sequences_short_witness :
  send_sequences E_demo (take 15 pal_demo) false (world_init ∅)
  = (world_init ∅, Fail IndexError).
Proof.
  apply (send_sequences_short E_demo (take 15 pal_demo) false (world_init ∅)).
  cbn. lia.
Defined.

(** X14.  When a palette of sixteen or more entries contains one that
    [hex_to_rgb] does not accept, [send_sequences] raises [ValueError]
    while it builds the lists: no terminal and no file has been written
    and nothing has been printed, wherever in the palette the entry is. *)
Theorem send_sequences_bad_colour (E : env) (colors : list pystr)
    (vte : bool) (w : world) :
  (16 <= length colors)%nat -> forallb convertible colors = false ->
  snd (send_sequences E colors vte w) = Fail ValueError /\
  fs (fst (send_sequences E colors vte w)) = fs w /\
  log (fst (send_sequences E colors vte w)) = log w.
Proof.
  intros Hlen Hbad.
  destruct (send_sequences_unsendable E colors vte w Hlen Hbad)
    as (w' & -> & Hfs & Hlog & _).
  by split_and!.
Qed.

Lemma send_sequences_bad_colour_witness :
  snd (send_sequences E_demo (pal_demo ++ [lit "#12345"]) true
         (world_init ∅)) = Fail ValueError /\
  fs (fst (send_sequences E_demo (pal_demo ++ [lit "#12345"]) true
             (world_init ∅))) = fs (world_init ∅) /\
  log (fst (send_sequences E_demo (pal_demo ++ [lit "#12345"]) true
              (world_init ∅))) = log (world_init ∅).
Proof.
  apply (send_sequences_bad_colour E_demo (pal_demo ++ [lit "#12345"]) true
           (world_init ∅)).
  - cbn. lia.
  - reflexivity.
Defined.

(** ** Which files each part of the program may change *)

Section Frame.

Context (E : env) (P : pystr -> Prop).

Lemma frame_refl w : frame P w w.
Proof. by intros x _. Qed.

Lemma frame_trans w1 w2 w3 : frame P w1 w2 -> frame P w2 w3 -> frame P w1 w3.
Proof. intros H1 H2 x Hx. by rewrite (H2 x Hx), (H1 x Hx). Qed.

Lemma confined_bind {A B} (m : M A) (f : A -> M B) :
  confined P m -> (forall a, confined P (f a)) -> confined P (m ≫= f).
Proof.
  intros Hm Hf w. unfold mbind, M_bind. specialize (Hm w).
  destruct (m w) as [w1 [a|e|c|]]; cbn [fst] in *; try exact Hm.
  eapply frame_trans; [exact Hm | apply Hf].
Qed.

Lemma confined_ret {A} (a : A) : confined P (mret a : M A).
Proof. intros w. apply frame_refl. Qed.

Lemma confined_lift {A} (r : result A) : confined P (lift r).
Proof. intros w. destruct r; apply frame_refl. Qed.

Lemma confined_raise {A} e : confined P (@raise A e).
Proof. intros w. apply frame_refl. Qed.

Lemma confined_exit {A} code : confined P (@exit A code).
Proof. intros w. apply frame_refl. Qed.

Lemma confined_emit ev : confined P (emit ev).
Proof. by intros w x _. Qed.

Lemma confined_print text : confined P (print text).
Proof. apply confined_emit. Qed.

Lemma confined_get_ct : confined P get_ct.
Proof. intros w. apply frame_refl. Qed.

Lemma confined_modify_ct f : confined P (modify_ct f).
Proof. by intros w x _. Qed.

Lemma confined_is_file path : confined P (is_file path).
Proof. by intros w x _. Qed.

Lemma confined_read_file path : confined P (read_file path).
Proof.
  intros w. unfold read_file. destruct (fs w !! path); by intros x _.
Qed.

Lemma confined_save_file colors path :
  P path -> confined P (save_file E colors path).
Proof.
  intros Hp w x Hx. unfold save_file. destruct (unwritable E path).
  - reflexivity.
  - cbn. apply lookup_insert_ne. by intros ->.
Qed.

Lemma confined_notify msg : confined P (notify E msg).
Proof.
  intros w. unfold notify. destruct (which E _ && args_notify w);
    by intros x _.
Qed.

Lemma confined_disown cmd : confined P (disown cmd).
Proof. apply confined_emit. Qed.

Lemma confined_for_each {A} (body : A -> M unit) xs :
  (forall x, x ∈ xs -> confined P (body x)) ->
  confined P (for_each body xs).
Proof.
  induction xs as [|x xs IH]; intros Hbody; cbn [for_each].
  - apply confined_ret.
  - apply confined_bind; [apply Hbody, list_elem_of_here|].
    intros _. apply IH. intros y Hy. by apply Hbody, list_elem_of_further.
Qed.

Lemma confined_imagemagick n img : confined P (imagemagick E n img).
Proof. by intros w x _. Qed.

Lemma confined_gen_colors fuel img : confined P (gen_colors E fuel img).
Proof.
  intros w x _.
  by destruct (gen_colors_cases E img fuel w)
    as (w' & added & <- & _ & _ & _ & _ & [-> | [-> | (ts & -> & _)]]).
Qed.

End Frame.

Lemma confined_weaken (P Q : pystr -> Prop) {A} (m : M A) :
  (forall x, P x -> Q x) -> confined P m -> confined Q m.
Proof. intros HPQ Hm w x Hx. apply Hm. intros HP. by apply Hx, HPQ. Qed.

(** Takes a computation apart down to the steps above. *)
Ltac confined_steps :=
  repeat first
    [ apply confined_ret | apply confined_lift | apply confined_raise
    | apply confined_exit | apply confined_print | apply confined_emit
    | apply confined_get_ct | apply confined_modify_ct
    | apply confined_is_file | apply confined_read_file
    | apply confined_notify | apply confined_disown
    | apply confined_imagemagick | apply confined_gen_colors
    | apply confined_bind; [|intros ?]
    | match goal with
      | |- confined _ (if ?b then _ else _) => destruct b
      | |- confined _ (match ?x with _ => _ end) => destruct x
      end ].

Section FrameOfParts.

Context (E : env).

Lemma confined_set_special P index color :
  confined P (set_special index color).
Proof.
  unfold set_special, xrdb_append, sequences_append. confined_steps.
Qed.

Lemma confined_set_color P index color : confined P (set_color index color).
Proof.
  unfold set_color, xrdb_append, sequences_append, shell_append, css_append,
    scss_append, putty_append.
  confined_steps.
Qed.

Lemma confined_send_sequences colors vte :
  confined (fun x => x ∈ terminals E) (send_sequences E colors vte).
Proof.
  unfold send_sequences.
  repeat first
    [ apply confined_set_special | apply confined_ret | apply confined_lift
    | apply confined_print | apply confined_get_ct
    | apply confined_for_each
    | apply confined_bind; [|intros ?]
    | match goal with
      | |- confined _ (if ?b then _ else _) => destruct b
      end ].
  - intros [num color] _. apply confined_set_color.
  - intros term Hterm. by apply confined_save_file.
Qed.

Lemma export_path_member name :
  name ∈ export_files -> path_join (CACHE_DIR E) name ∈ export_paths E.
Proof. intros H. unfold export_paths. by apply list_elem_of_fmap_2. Qed.

Lemma confined_save_colors P lines name msg :
  P (path_join (CACHE_DIR E) name) ->
  confined P (save_colors E lines name msg).
Proof.
  intros HP. unfold save_colors.
  apply confined_bind; [by apply confined_save_file|].
  intros _. apply confined_print.
Qed.

Lemma confined_export_colors colors :
  confined (fun x => x ∈ export_paths E) (export_colors E colors).
Proof.
  unfold export_colors, export_rofi, export_emacs, reload_xrdb, reload_i3,
    css_append, xrdb_append.
  repeat first
    [ apply confined_ret | apply confined_lift | apply confined_emit
    | apply confined_get_ct | apply confined_modify_ct
    | apply confined_disown
    | apply confined_save_colors
    | apply confined_bind; [|intros ?]
    | match goal with
      | |- confined _ (if ?b then _ else _) => destruct b
      end ].
  all: apply export_path_member; unfold export_files;
    repeat first [apply list_elem_of_here | apply list_elem_of_further].
Qed.

End FrameOfParts.

(** X15.  Whatever palette it is given and however it ends,
    [send_sequences] changes no file other than its targets: the entries
    of [/dev/pts/] with names of fewer than four characters and the
    sequence file in the cache directory. *)
Theorem send_sequences_writes_terminals (E : env) (colors : list pystr)
    (vte : bool) (w : world) (x : pystr) :
  x ∉ terminals E ->
  fs (fst (send_sequences E colors vte w)) !! x = fs w !! x.
Proof. intros Hx. by apply (confined_send_sequences E colors vte w). Qed.

Lemma send_sequences_writes_terminals_witness :
  fs (fst (send_sequences E_demo pal_demo false (world_init cache_demo)))
    !! lit "/dev/pts/ptmx"
  = fs (world_init cache_demo) !! lit "/dev/pts/ptmx".
Proof.
  apply (send_sequences_writes_terminals E_demo pal_demo false
           (world_init cache_demo) (lit "/dev/pts/ptmx")).
  intros Hin. vm_compute in Hin.
  repeat (apply elem_of_cons in Hin as [Hin|Hin]; [discriminate Hin|]).
  by apply elem_of_nil in Hin.
Defined.

(** X16.  Whatever palette it is given and however it ends,
    [export_colors] changes no file other than its six documents in the
    cache directory. *)
Theorem export_colors_writes_documents (E : env) (colors : list pystr)
    (w : world) (x : pystr) :
  x ∉ export_paths E ->
  fs (fst (export_colors E colors w)) !! x = fs w !! x.
Proof. intros Hx. by apply (confined_export_colors E colors w). Qed.

Lemma export_colors_writes_documents_witness :
  fs (fst (export_colors E_demo pal_demo (world_init cache_demo)))
    !! lit "/home/u/.cache/wal/sequences"
  = fs (world_init cache_demo) !! lit "/home/u/.cache/wal/sequences".
Proof.
  apply (export_colors_writes_documents E_demo pal_demo
           (world_init cache_demo) (lit "/home/u/.cache/wal/sequences")).
  intros Hin. vm_compute in Hin.
  repeat (apply elem_of_cons in Hin as [Hin|Hin]; [discriminate Hin|]).
  by apply elem_of_nil in Hin.
Defined.

(** ** Decoding text without a backslash, and how decoding fails *)

Section EscapeMore.

Context (ucn : pybytes -> option N).

Lemma fmap_raise {A B} (f : A -> B) (r : result A) e :
  f <$> r = Raise e -> r = Raise e.
Proof. destruct r; [discriminate | by intros [= ->]]. Qed.

Lemma utf8_char_error c e : utf8_char c = Raise e -> e = UnicodeEncodeError.
Proof.
  unfold utf8_char.
  repeat match goal with
         | |- context [if ?b then _ else _] => destruct b
         end; by intros [= <-].
Qed.

Lemma utf8_encode_error s e :
  utf8_encode s = Raise e -> e = UnicodeEncodeError.
Proof.
  induction s as [|c rest IH]; cbn [utf8_encode]; [discriminate|].
  destruct (utf8_char c) as [bs|e'] eqn:Hc.
  - rewrite result_bind_ok.
    destruct (utf8_encode rest) as [more|e'']; [discriminate|].
    intros [= <-]. by apply IH.
  - intros [= <-]. by apply (utf8_char_error c).
Qed.

Lemma unicode_escape_error bs :
  forall st e, unicode_escape ucn st bs = Raise e -> e = UnicodeDecodeError.
Proof.
  induction bs as [|b rest IH]; intros st e H.
  - destruct st; cbn in H; congruence.
  - destruct st; cbn [unicode_escape] in H;
      repeat match type of H with
             | context [if ?c then _ else _] => destruct c
             | context [match ?x with _ => _ end] => destruct x eqn:?
             end;
      try discriminate H; try (by injection H as <-);
      repeat (apply fmap_raise in H); try (by eapply IH);
      try (injection H as <-; by eapply IH).
Qed.

Lemma fix_escape_error s e :
  fix_escape ucn s = Raise e ->
  e = UnicodeEncodeError \/ e = UnicodeDecodeError.
Proof.
  unfold fix_escape. destruct (utf8_encode s) as [bs|e'] eqn:Hbs.
  - rewrite result_bind_ok. intros H. right.
    by apply (unicode_escape_error bs Plain).
  - intros [= <-]. left. by apply (utf8_encode_error s).
Qed.

Lemma lor_high_not_backslash h x :
  N.testbit h 7 = true -> N.lor h x <> 92.
Proof.
  intros Hh Heq.
  assert (N.testbit (N.lor h x) 7 = true) as Hbit
    by (by rewrite N.lor_spec, Hh).
  rewrite Heq in Hbit. discriminate Hbit.
Qed.

Lemma utf8_char_no_backslash c bs :
  c <> 92 -> utf8_char c = Ok bs -> Forall (fun b => b <> 92) bs.
Proof.
  intros Hc. unfold utf8_char.
  repeat match goal with
         | |- context [if ?b then _ else _] => destruct b
         end; intros [= <-];
    repeat constructor; try exact Hc; by apply lor_high_not_backslash.
Qed.

Lemma unicode_escape_no_backslash bs :
  Forall (fun b => b <> 92) bs -> unicode_escape ucn Plain bs = Ok bs.
Proof.
  induction 1 as [|b bs Hb _ IH]; [reflexivity|].
  rewrite unicode_escape_plain by (by apply N.eqb_neq). by rewrite IH.
Qed.

Lemma utf8_encode_no_backslash s :
  forall bs,
    Forall (fun c => c <> 92) s -> utf8_encode s = Ok bs ->
    Forall (fun b => b <> 92) bs.
Proof.
  induction s as [|c rest IH]; intros bs Hs; cbn [utf8_encode].
  - intros [= <-]. constructor.
  - apply Forall_cons in Hs as [Hc Hrest].
    destruct (utf8_char c) as [cs|] eqn:Hcs; [|discriminate].
    rewrite result_bind_ok.
    destruct (utf8_encode rest) as [more|]; [|discriminate].
    rewrite result_bind_ok. intros [= <-]. apply Forall_app. split.
    + by apply (utf8_char_no_backslash c).
    + by apply IH.
Qed.

Lemma utf8_encode_all_ascii s :
  forallb (fun c => c <? 128) s = true -> utf8_encode s = Ok s.
Proof.
  induction s as [|c rest IH]; [reflexivity|]. cbn [forallb]. intros H.
  apply andb_true_iff in H as [Hc Hrest].
  apply utf8_encode_ascii; [exact Hc | by apply IH].
Qed.

Lemma fix_escape_plain_text s :
  Forall (fun c => c <> 92) s -> fix_escape ucn s = utf8_encode s.
Proof.
  intros Hs. unfold fix_escape.
  destruct (utf8_encode s) as [bs|e] eqn:Hbs; [|reflexivity].
  rewrite result_bind_ok. apply unicode_escape_no_backslash.
  by apply (utf8_encode_no_backslash s).
Qed.

End EscapeMore.

(** X17.  Text without a backslash is not decoded at all: [fix_escape]
    returns its UTF-8 bytes, each read as one character.  ASCII text
    therefore comes back unchanged, line breaks and control characters
    included, while every character from 128 upwards comes back as two
    or more. *)
Theorem fix_escape_no_backslash (ucn : pybytes -> option N) (s : pystr) :
  Forall (fun c => c <> 92) s ->
  fix_escape ucn s = utf8_encode s /\
  (forallb (fun c => c <? 128) s = true -> fix_escape ucn s = Ok s) /\
  (forall out, fix_escape ucn s = Ok out -> (length s <= length out)%nat).
Proof.
  intros Hs. rewrite (fix_escape_plain_text ucn s Hs).
  split; [reflexivity|]. split; [apply utf8_encode_all_ascii|].
  clear Hs. induction s as [|c rest IH]; intros out; cbn [utf8_encode].
  - intros [= <-]. reflexivity.
  - destruct (utf8_char c) as [cs|] eqn:Hcs; [|discriminate].
    rewrite result_bind_ok.
    destruct (utf8_encode rest) as [more|]; [|discriminate].
    rewrite result_bind_ok. intros [= <-].
    specialize (IH more eq_refl). rewrite length_app. cbn [length].
    assert (1 <= length cs)%nat; [|lia].
    unfold utf8_char in Hcs.
    repeat match type of Hcs with
           | context [if ?b then _ else _] => destruct b
           end;
      first [discriminate Hcs | injection Hcs as <-; cbn; lia].
Qed.

Lemma fix_escape_no_backslash_witness :
  fix_escape (fun _ => None) [99; 97; 102; 233; 10]
  = utf8_encode [99; 97; 102; 233; 10].
Proof.
  apply (fix_escape_no_backslash (fun _ => None) [99; 97; 102; 233; 10]).
  repeat constructor; discriminate.
Defined.

(** X18.  [reload_colors] never returns to its caller: it ends the
    process with status 0, whether or not there is a sequence file, or
    with the decoding error of [fix_escape].  It changes no file and none
    of the shared lists. *)
Theorem reload_colors_never_returns (E : env) (vte : bool) (w : world) :
  fs (fst (reload_colors E vte w)) = fs w /\
  ct (fst (reload_colors E vte w)) = ct w /\
  (snd (reload_colors E vte w) = Exit 0%Z \/
   snd (reload_colors E vte w) = Fail UnicodeEncodeError \/
   snd (reload_colors E vte w) = Fail UnicodeDecodeError).
Proof.
  unfold reload_colors.
  rewrite bind_assoc_run, (bind_done _ _ _ _ _ (is_file_run _ _)).
  destruct (fs w !! path_join (CACHE_DIR E) (lit "sequences"))
    as [content|] eqn:Hfile.
  - rewrite bool_decide_eq_true_2 by (by eexists).
    rewrite bind_assoc_run.
    match goal with
    | |- context [(read_file ?p ≫= _) ?w0] =>
      rewrite (bind_done _ _ _ _ _ (read_file_present p content w0 Hfile))
    end.
    rewrite bind_assoc_run.
    match goal with
    | |- context [lift (fix_escape ?u ?s)] =>
      destruct (fix_escape u s) as [out|e] eqn:Hout
    end.
    + rewrite (bind_done _ _ _ _ _ (lift_ok out _)).
      cbn. by split_and!; [..|left].
    + rewrite (bind_fail _ _ _ _ _ (lift_raise e _)). cbn [fst snd].
      split; [done|]. split; [done|]. right.
      destruct (fix_escape_error _ _ _ Hout) as [-> | ->]; [by left | by right].
  - rewrite bool_decide_eq_false_2 by (by intros [? ?]).
    cbn. by split_and!; [..|left].
Qed.

(** ** Setting the wallpaper *)

Section Wallpaper.

Context (E : env) (H : host).

Lemma popen_run prog args w :
  which E prog = true ->
  popen E (prog :: args) w
  = (with_log w (log w ++ [EvSpawn (prog :: args)]), Done ()).
Proof.
  intros Hw. unfold popen. cbn [getitem lookup list_lookup].
  rewrite (bind_done _ _ _ _ _ (lift_ok prog w)). by rewrite Hw.
Qed.

Lemma popen_missing prog args w :
  which E prog = false -> popen E (prog :: args) w = (w, Fail OSError).
Proof.
  intros Hw. unfold popen. cbn [getitem lookup list_lookup].
  rewrite (bind_done _ _ _ _ _ (lift_ok prog w)). by rewrite Hw.
Qed.

(** Whatever [get_desktop_env] returns counts as true. *)
Lemma get_desktop_env_truthy :
  truthy (get_desktop_env H) = bool_decide (is_Some (get_desktop_env H)).
Proof.
  unfold get_desktop_env.
  repeat match goal with
         | |- context [truthy (getenv H ?name)] =>
           destruct (getenv H name) as [[|? ?]|] eqn:?; cbn [truthy]
         end;
    first [ by rewrite bool_decide_eq_true_2 by (by eexists)
          | by rewrite bool_decide_eq_false_2 by (by intros [? ?]) ].
Qed.

Lemma no_keyword_cases desktop :
  forallb (fun k => negb (contains k desktop)) desktop_keywords = true ->
  contains (lit "xfce") desktop = false /\
  contains (lit "xubuntu") desktop = false /\
  contains (lit "muffin") desktop = false /\
  contains (lit "cinnamon") desktop = false /\
  contains (lit "gnome") desktop = false /\
  contains (lit "mate") desktop = false.
Proof.
  unfold desktop_keywords. cbn [forallb]. intros Hk.
  repeat (apply andb_true_iff in Hk as [?%negb_true_iff Hk]).
  by split_and!.
Qed.

Lemma set_wallpaper_detected d img w :
  get_desktop_env H = Some d ->
  set_wallpaper E H img w
  = (set_desktop_wallpaper E H d img;;
     print (lit "wallpaper: Set the new wallpaper");;
     mret (Some 0%Z)) w.
Proof.
  intros Hd. unfold set_wallpaper.
  rewrite get_desktop_env_truthy, Hd.
  by rewrite bool_decide_eq_true_2 by (by eexists).
Qed.

Lemma set_wallpaper_undetected img w :
  get_desktop_env H = None ->
  set_wallpaper E H img w
  = match find (fun s => which E s.1) fallback_setters with
    | Some (prog, opts) =>
      (with_log w
         (log w ++ [ EvSpawn (prog :: opts ++ [img]);
                     EvPrint (lit "wallpaper: Set the new wallpaper"
                              ++ [10]) ]),
       Done (Some 0%Z))
    | None =>
      (with_log w
         (log w ++ [EvPrint (lit "error: No wallpaper setter found."
                             ++ [10])]),
       Done None)
    end.
Proof.
  intros Hd. unfold set_wallpaper.
  rewrite get_desktop_env_truthy, Hd.
  rewrite bool_decide_eq_false_2 by (by intros [? ?]).
  unfold fallback_setters. cbn [find list_find fst].
  repeat match goal with
         | |- context [which E ?p] =>
           destruct (which E p) eqn:?;
           [ rewrite (bind_done _ _ _ _ _ (popen_run _ _ w ltac:(eassumption)));
             rewrite (bind_done _ _ _ _ _ (print_run _ _));
             cbn [with_log fs ct args_notify log decide_rel];
             rewrite <- ?app_assoc; reflexivity |]
         end.
  rewrite (bind_done _ _ _ _ _ (print_run _ _)). reflexivity.
Qed.

End Wallpaper.

(** X19.  On a desktop that is detected but whose name contains none of
    the six words [wal] knows, [set_wallpaper] starts no program at all,
    not even an installed fallback setter, yet prints that the wallpaper
    was set and returns 0. *)
Theorem set_wallpaper_unknown_desktop (E : env) (H : host) (d img : pystr)
    (w : world) :
  get_desktop_env H = Some d ->
  forallb (fun k => negb (contains k (str_lower H d))) desktop_keywords
    = true ->
  set_wallpaper E H img w
  = (with_log w
       (log w ++ [EvPrint (lit "wallpaper: Set the new wallpaper" ++ [10])]),
     Done (Some 0%Z)).
Proof.
  intros Hd Hk. rewrite (set_wallpaper_detected E H d img w Hd).
  destruct (no_keyword_cases _ Hk) as (H1 & H2 & H3 & H4 & H5 & H6).
  unfold set_desktop_wallpaper. rewrite H1, H2, H3, H4, H5, H6.
  reflexivity.
Qed.

Lemma set_wallpaper_unknown_desktop_witness :
  set_wallpaper E_demo H_kde (lit "/a/b.jpg") (world_init ∅)
  = (with_log (world_init ∅)
       (log (world_init ∅)
        ++ [EvPrint (lit "wallpaper: Set the new wallpaper" ++ [10])]),
     Done (Some 0%Z)).
Proof.
  apply (set_wallpaper_unknown_desktop E_demo H_kde (lit "KDE")
           (lit "/a/b.jpg") (world_init ∅)); reflexivity.
Defined.

(** X20.  Without a desktop session [set_wallpaper] starts exactly one
    program: the first of feh, nitrogen, bgs, hsetroot and habak that is
    on the search path, with its options and the image; it then prints
    that the wallpaper was set and returns 0.  When none of the five is
    installed it starts nothing, prints an error and returns [None]. *)
Theorem set_wallpaper_fallback (E : env) (H : host) (img : pystr)
    (w : world) :
  get_desktop_env H = None ->
  set_wallpaper E H img w
  = match find (fun s => which E s.1) fallback_setters with
    | Some (prog, opts) =>
      (with_log w
         (log w ++ [ EvSpawn (prog :: opts ++ [img]);
                     EvPrint (lit "wallpaper: Set the new wallpaper"
                              ++ [10]) ]),
       Done (Some 0%Z))
    | None =>
      (with_log w
         (log w ++ [EvPrint (lit "error: No wallpaper setter found."
                             ++ [10])]),
       Done None)
    end.
Proof. apply set_wallpaper_undetected. Qed.

Lemma set_wallpaper_fallback_witness :
  set_wallpaper E_demo H_bare (lit "/a/b.jpg") (world_init ∅)
  = (with_log (world_init ∅)
       [ EvSpawn [lit "feh"; lit "--bg-fill"; lit "/a/b.jpg"];
         EvPrint (lit "wallpaper: Set the new wallpaper" ++ [10]) ],
     Done (Some 0%Z)).
Proof.
  apply (set_wallpaper_fallback E_demo H_bare (lit "/a/b.jpg")
           (world_init ∅)).
  reflexivity.
Defined.

(** X21.  On a Cinnamon, GNOME or MATE desktop the wallpaper is set
    through [gsettings] and nothing else: when that program is not on
    the search path, [set_wallpaper] raises [OSError] before it has
    started or printed anything, whichever fallback setters are
    installed. *)
Theorem set_wallpaper_needs_gsettings (E : env) (H : host) (d img : pystr)
    (w : world) :
  get_desktop_env H = Some d ->
  contains (lit "xfce") (str_lower H d) = false ->
  contains (lit "xubuntu") (str_lower H d) = false ->
  existsb (fun k => contains k (str_lower H d))
    [lit "muffin"; lit "cinnamon"; lit "gnome"; lit "mate"] = true ->
  which E (lit "gsettings") = false ->
  set_wallpaper E H img w = (w, Fail OSError).
Proof.
  intros Hd H1 H2 Hk Hg. rewrite (set_wallpaper_detected E H d img w Hd).
  unfold set_desktop_wallpaper. rewrite H1, H2. cbn [orb existsb] in Hk |- *.
  destruct (contains (lit "muffin") (str_lower H d));
    [cbn [orb]; by rewrite (bind_fail _ _ _ _ _ (popen_missing E _ _ w Hg))|].
  destruct (contains (lit "cinnamon") (str_lower H d));
    [cbn [orb]; by rewrite (bind_fail _ _ _ _ _ (popen_missing E _ _ w Hg))|].
  destruct (contains (lit "gnome") (str_lower H d));
    [cbn [orb]; by rewrite (bind_fail _ _ _ _ _ (popen_missing E _ _ w Hg))|].
  destruct (contains (lit "mate") (str_lower H d));
    [cbn [orb]; by rewrite (bind_fail _ _ _ _ _ (popen_missing E _ _ w Hg))|].
  discriminate Hk.
Qed.

Lemma set_wallpaper_needs_gsettings_witness :
  which E_no_gsettings (lit "feh") = true /\
  set_wallpaper E_no_gsettings H_gnome (lit "/a/b.jpg") (world_init ∅)
  = (world_init ∅, Fail OSError).
Proof.
  split; [reflexivity|].
  apply (set_wallpaper_needs_gsettings E_no_gsettings H_gnome
           (lit "ubuntu:GNOME") (lit "/a/b.jpg") (world_init ∅));
    reflexivity.
Defined.

(** ** Choosing the image *)

Section Image.

Context (E : env) (H : host).

Lemma get_image_no_convert img w :
  which E (lit "convert") = false ->
  get_image E H img w
  = (with_log w
       (log w ++ [EvPrint ((lit "error: imagemagick not found, exiting..."
                            ++ [10] ++
                            lit "error: wal requires imagemagick to function.")
                           ++ [10])]),
     Exit 1%Z).
Proof.
  intros Hc. unfold get_image. rewrite Hc. cbn [negb].
  rewrite bind_assoc_run. by rewrite (bind_done _ _ _ _ _ (print_run _ _)).
Qed.

Lemma get_image_checked img w :
  which E (lit "convert") = true ->
  get_image E H img w
  = (wal_img ←
       (if bool_decide (is_Some (fs w !! path_str (Path img)))
        then mret (Path img)
        else if is_dir H (path_str (Path img)) then
          current_is_file ← is_file (wal_file E);
          current_img ←
            (if current_is_file : bool then
               current_img ← read_file (wal_file E);
               first ← lift (getitem current_img 0);
               mret (Some (basename first))
             else mret None);
          wal_img ← lift (choice H (candidates H (path_str (Path img))
                                               current_img));
          mret (path_div (Path img) wal_img)
        else
          print (lit "error: No valid image file found.");;
          exit 1%Z);
     print (lit "image: Using image " ++ path_str wal_img);;
     mret (path_str wal_img))
      (with_log w (log w ++ [EvIsFile (path_str (Path img))])).
Proof.
  intros Hc. unfold get_image. rewrite Hc. cbn [negb].
  rewrite (bind_done _ _ _ _ _ (ret_run () w)).
  by rewrite (bind_done _ _ _ _ _ (is_file_run _ _)).
Qed.

Lemma get_image_file img w :
  which E (lit "convert") = true ->
  is_Some (fs w !! path_str (Path img)) ->
  get_image E H img w
  = (with_log w
       (log w ++ [ EvIsFile (path_str (Path img));
                   EvPrint ((lit "image: Using image " ++ path_str (Path img))
                            ++ [10]) ]),
     Done (path_str (Path img))).
Proof.
  intros Hc Hf. rewrite (get_image_checked img w Hc).
  rewrite bool_decide_eq_true_2 by exact Hf.
  rewrite (bind_done _ _ _ _ _ (ret_run _ _)).
  rewrite (bind_done _ _ _ _ _ (print_run _ _)).
  unfold with_log. cbn [fs ct args_notify log]. by rewrite <- app_assoc.
Qed.

Lemma get_image_invalid img w :
  which E (lit "convert") = true ->
  fs w !! path_str (Path img) = None ->
  is_dir H (path_str (Path img)) = false ->
  get_image E H img w
  = (with_log w
       (log w ++ [ EvIsFile (path_str (Path img));
                   EvPrint (lit "error: No valid image file found."
                            ++ [10]) ]),
     Exit 1%Z).
Proof.
  intros Hc Hf Hd. rewrite (get_image_checked img w Hc).
  rewrite bool_decide_eq_false_2 by (rewrite Hf; by intros [? ?]).
  rewrite Hd, !bind_assoc_run.
  rewrite (bind_done _ _ _ _ _ (print_run _ _)).
  unfold with_log. cbn [fs ct args_notify log]. by rewrite <- app_assoc.
Qed.

(** The name of the current wallpaper as directory mode finds it:
    nothing when there is no record, an exception when the record is
    empty. *)
Lemma get_image_directory img w :
  which E (lit "convert") = true ->
  fs w !! path_str (Path img) = None ->
  is_dir H (path_str (Path img)) = true ->
  let dir := path_str (Path img) in
  let asked := log w ++ [EvIsFile dir; EvIsFile (wal_file E)] in
  let pick current read :=
    match choice H (candidates H dir current) with
    | Ok name =>
      (with_log w
         (asked ++ read ++
          [EvPrint ((lit "image: Using image "
                     ++ path_str (path_div (Path img) name)) ++ [10])]),
       Done (path_str (path_div (Path img) name)))
    | Raise e => (with_log w (asked ++ read), Fail e)
    end in
  get_image E H img w
  = match fs w !! wal_file E with
    | None => pick None []
    | Some content =>
      match splitlines (universal_newlines content) with
      | [] => (with_log w (asked ++ [EvRead (wal_file E)]), Fail IndexError)
      | first :: _ => pick (Some (basename first)) [EvRead (wal_file E)]
      end
    end.
Proof.
  intros Hc Hf Hd. cbv zeta. rewrite (get_image_checked img w Hc).
  rewrite bool_decide_eq_false_2 by (rewrite Hf; by intros [? ?]).
  rewrite Hd, !bind_assoc_run.
  rewrite (bind_done _ _ _ _ _ (is_file_run _ _)).
  cbn [with_log fs ct args_notify log].
  destruct (fs w !! wal_file E) as [content|] eqn:Hrec.
  - rewrite bool_decide_eq_true_2 by (by eexists).
    rewrite !bind_assoc_run.
    match goal with
    | |- context [(read_file ?p ≫= _) ?w0] =>
      rewrite (bind_done _ _ _ _ _ (read_file_present p content w0 Hrec))
    end.
    destruct (splitlines (universal_newlines content)) as [|first rest].
    + rewrite bind_assoc_run.
      change (getitem (@nil pystr) 0) with (@Raise pystr IndexError).
      rewrite (bind_fail _ _ _ _ _ (lift_raise IndexError _)).
      unfold with_log. cbn [fs ct args_notify log].
      by rewrite <- !app_assoc.
    + rewrite bind_assoc_run.
      change (getitem (first :: rest) 0) with (Ok first).
      rewrite (bind_done _ _ _ _ _ (lift_ok first _)).
      rewrite (bind_done _ _ _ _ _ (ret_run _ _)).
      destruct (choice H (candidates H (path_str (Path img))
                                      (Some (basename first))))
        as [name|e].
      * rewrite bind_assoc_run, (bind_done _ _ _ _ _ (lift_ok name _)).
        rewrite (bind_done _ _ _ _ _ (ret_run _ _)).
        rewrite (bind_done _ _ _ _ _ (print_run _ _)).
        unfold with_log. cbn [fs ct args_notify log].
        by rewrite <- !app_assoc.
      * rewrite bind_assoc_run, (bind_fail _ _ _ _ _ (lift_raise e _)).
        unfold with_log. cbn [fs ct args_notify log].
        by rewrite <- !app_assoc.
  - rewrite bool_decide_eq_false_2 by (by intros [? ?]).
    rewrite !bind_assoc_run, (bind_done _ _ _ _ _ (ret_run _ _)).
    destruct (choice H (candidates H (path_str (Path img)) None))
      as [name|e].
    + rewrite bind_assoc_run, (bind_done _ _ _ _ _ (lift_ok name _)).
      rewrite (bind_done _ _ _ _ _ (ret_run _ _)).
      rewrite (bind_done _ _ _ _ _ (print_run _ _)).
      unfold with_log. cbn [fs ct args_notify log].
      by rewrite <- !app_assoc, ?app_nil_r.
    + rewrite bind_assoc_run, (bind_fail _ _ _ _ _ (lift_raise e _)).
      unfold with_log. cbn [fs ct args_notify log].
      by rewrite <- !app_assoc, ?app_nil_r.
Qed.

Lemma choice_member {A} (seq : list A) x :
  choice H seq = Ok x -> x ∈ seq.
Proof.
  unfold choice, getitem. destruct seq as [|a seq]; [discriminate|].
  destruct (_ !! _) as [y|] eqn:Hy; [|discriminate].
  intros [= <-]. by apply (list_elem_of_lookup_2 _ _ _ Hy).
Qed.

Lemma choice_error {A} (seq : list A) e :
  choice H seq = Raise e -> seq = [].
Proof.
  unfold choice, getitem. destruct seq as [|a seq]; [done|].
  destruct (_ !! _) as [y|] eqn:Hy; [discriminate|].
  apply lookup_ge_None in Hy.
  pose proof (Nat.mod_upper_bound (randbelow H (length (a :: seq)))
                (length (a :: seq))) as Hlt.
  cbn [length] in Hy, Hlt. lia.
Qed.

Lemma candidates_member dir current name :
  name ∈ candidates H dir current <->
  name ∈ listdir H dir /\ endswith_any file_types name = true /\
  Some name <> current.
Proof.
  unfold candidates. rewrite list_elem_of_filter. tauto.
Qed.

End Image.

Lemma get_image_effects_run (E : env) (H : host) (img : pystr) (w : world) :
  fs (fst (get_image E H img w)) = fs w /\
  ct (fst (get_image E H img w)) = ct w /\
  args_notify (fst (get_image E H img w)) = args_notify w /\
  (exists added,
      log (fst (get_image E H img w)) = log w ++ added /\
      forallb image_event added = true) /\
  (forall code, snd (get_image E H img w) = Exit code -> code = 1%Z) /\
  (forall e, snd (get_image E H img w) = Fail e -> e = IndexError) /\
  (forall p, snd (get_image E H img w) = Done p ->
             which E (lit "convert") = true).
Proof.
  destruct (which E (lit "convert")) eqn:Hc.
  2: { rewrite (get_image_no_convert E H img w Hc). cbn [fst snd with_log].
       cbn [fs ct args_notify log].
       split_and!; try done; [by eexists | by intros code [= <-]]. }
  destruct (fs w !! path_str (Path img)) as [content|] eqn:Hf.
  { rewrite (get_image_file E H img w Hc) by (by eexists).
    cbn [fst snd with_log]. cbn [fs ct args_notify log].
    split_and!; try done. by eexists. }
  destruct (is_dir H (path_str (Path img))) eqn:Hd.
  2: { rewrite (get_image_invalid E H img w Hc Hf Hd). cbn [fst snd with_log].
       cbn [fs ct args_notify log].
       split_and!; try done; [by eexists | by intros code [= <-]]. }
  rewrite (get_image_directory E H img w Hc Hf Hd).
  destruct (fs w !! wal_file E) as [record|];
    [destruct (splitlines (universal_newlines record)) as [|first rest]|].
  2,3: match goal with
       | |- context [choice ?h ?seq] =>
         destruct (choice h seq) as [name|e] eqn:Hpick;
         [|apply choice_error in Hpick as Hnone; rewrite Hnone in Hpick;
           injection Hpick as <-]
       end.
  all: cbn [fst snd with_log]; cbn [fs ct args_notify log];
    split_and!; try done;
    try (by intros ? [= <-]);
    rewrite <- ?app_assoc; eexists; split; [reflexivity|];
    rewrite ?forallb_app; reflexivity.
Qed.


(** X23.  When [get_image] is given a directory and returns, the path it
    returns is the directory joined with one of its entries; that entry
    ends in one of the five image suffixes, in lower case, and is not the
    file name of the wallpaper on record. *)
Theorem get_image_directory_choice (E : env) (H : host) (img p : pystr)
    (w w' : world) :
  fs w !! path_str (Path img) = None ->
  get_image E H img w = (w', Done p) ->
  exists name,
    name ∈ listdir H (path_str (Path img)) /\
    endswith_any file_types name = true /\
    p = path_str (path_div (Path img) name) /\
    forall content first rest,
      fs w !! wal_file E = Some content ->
      splitlines (universal_newlines content) = first :: rest ->
      name <> basename first.
Proof.
  intros Hf Hrun.
  destruct (which E (lit "convert")) eqn:Hc.
  2: { rewrite (get_image_no_convert E H img w Hc) in Hrun.
       discriminate Hrun. }
  destruct (is_dir H (path_str (Path img))) eqn:Hd.
  2: { rewrite (get_image_invalid E H img w Hc Hf Hd) in Hrun.
       discriminate Hrun. }
  rewrite (get_image_directory E H img w Hc Hf Hd) in Hrun.
  destruct (fs w !! wal_file E) as [record|];
    [destruct (splitlines (universal_newlines record)) as [|first rest]
       eqn:Hlines|];
    [discriminate Hrun| |].
  all: match type of Hrun with
       | context [choice ?h ?seq] =>
         destruct (choice h seq) as [name|e] eqn:Hpick;
         [|discriminate Hrun]
       end;
    injection Hrun as <- <-;
    apply choice_member, candidates_member in Hpick as (Hin & Hsuf & Hcur);
    exists name; split_and!; try done.
  intros content first' rest' [= <-] Hl ->. rewrite Hlines in Hl.
  injection Hl as <- <-. by apply Hcur.
Qed.

Lemma get_image_directory_choice_witness :
  exists name,
    name ∈ listdir H_pictures (path_str (Path (lit "/pics/"))) /\
    endswith_any file_types name = true /\
    lit "/pics/a.png" = path_str (path_div (Path (lit "/pics/")) name) /\
    forall content first rest,
      fs (world_init record_demo) !! wal_file E_demo = Some content ->
      splitlines (universal_newlines content) = first :: rest ->
      name <> basename first.
Proof.
  apply (get_image_directory_choice E_demo H_pictures (lit "/pics/")
           (lit "/pics/a.png") (world_init record_demo)
           (fst (get_image E_demo H_pictures (lit "/pics/")
                   (world_init record_demo)))).
  - reflexivity.
  - vm_compute. reflexivity.
Defined.

(** X24.  When every image in the directory is the wallpaper on record,
    or the directory holds no image at all, [get_image] neither returns
    nor exits: [random.choice] raises [IndexError] on the empty list of
    candidates, and nothing is printed. *)
Theorem get_image_nothing_to_choose (E : env) (H : host) (img : pystr)
    (w : world) :
  which E (lit "convert") = true ->
  fs w !! path_str (Path img) = None ->
  is_dir H (path_str (Path img)) = true ->
  (forall name,
      name ∈ listdir H (path_str (Path img)) ->
      endswith_any file_types name = true ->
      exists content first rest,
        fs w !! wal_file E = Some content /\
        splitlines (universal_newlines content) = first :: rest /\
        name = basename first) ->
  snd (get_image E H img w) = Fail IndexError /\
  forallb (fun ev => negb (is_print ev))
    (drop (length (log w)) (log (fst (get_image E H img w)))) = true.
Proof.
  intros Hc Hf Hd Hall.
  rewrite (get_image_directory E H img w Hc Hf Hd).
  assert (forall current,
            (forall content first rest,
                fs w !! wal_file E = Some content ->
                splitlines (universal_newlines content) = first :: rest ->
                current = Some (basename first)) ->
            is_Some (fs w !! wal_file E) \/
              candidates H (path_str (Path img)) current = [] ->
            candidates H (path_str (Path img)) current = []) as Hnone.
  { intros current Hcur _. apply elem_of_nil_inv. intros name Hname.
    apply candidates_member in Hname as (Hin & Hsuf & Hne).
    destruct (Hall name Hin Hsuf) as (content & first & rest & Hr & Hl & ->).
    apply Hne. symmetry. by apply (Hcur content first rest). }
  destruct (fs w !! wal_file E) as [record|] eqn:Hrec;
    [destruct (splitlines (universal_newlines record)) as [|first rest]
       eqn:Hlines|].
  - cbn [fst snd with_log log]. split; [done|].
    rewrite <- app_assoc, drop_app_length. reflexivity.
  - rewrite Hnone.
    + cbn [choice fst snd with_log log]. split; [done|].
      rewrite <- !app_assoc, drop_app_length. reflexivity.
    + intros content first' rest' [= <-] Hl. rewrite Hlines in Hl.
      by injection Hl as <- <-.
    + left. by eexists.
  - rewrite Hnone.
    + cbn [choice fst snd with_log log]. split; [done|].
      rewrite <- !app_assoc, drop_app_length. reflexivity.
    + intros content first rest Hr. discriminate Hr.
    + right. apply elem_of_nil_inv. intros name Hname.
      apply candidates_member in Hname as (Hin & Hsuf & _).
      destruct (Hall name Hin Hsuf) as (content & _ & _ & Hr & _).
      discriminate Hr.
Qed.

Lemma get_image_nothing_to_choose_witness :
  snd (get_image E_demo H_single (lit "/pics") (world_init record_demo))
  = Fail IndexError.
Proof.
  apply (get_image_nothing_to_choose E_demo H_single (lit "/pics")
           (world_init record_demo)); try reflexivity.
  intros name Hin Hsuf. exists (lit "/pics/b.jpg"), (lit "/pics/b.jpg"), [].
  split; [reflexivity|]. split; [reflexivity|].
  vm_compute in Hin.
  apply elem_of_cons in Hin as [->|Hin]; [discriminate Hsuf|].
  apply elem_of_cons in Hin as [->|Hin]; [reflexivity|].
  by apply elem_of_nil in Hin.
Defined.

(** X25.  An empty wallpaper record stops directory mode: the record is
    read, its first line does not exist, and [get_image] raises
    [IndexError] whatever the directory holds. *)
Theorem get_image_empty_record (E : env) (H : host) (img content : pystr)
    (w : world) :
  which E (lit "convert") = true ->
  fs w !! path_str (Path img) = None ->
  is_dir H (path_str (Path img)) = true ->
  fs w !! wal_file E = Some content ->
  splitlines (universal_newlines content) = [] ->
  get_image E H img w
  = (with_log w
       (log w ++ [ EvIsFile (path_str (Path img)); EvIsFile (wal_file E);
                   EvRead (wal_file E) ]),
     Fail IndexError).
Proof.
  intros Hc Hf Hd Hrec Hlines.
  rewrite (get_image_directory E H img w Hc Hf Hd), Hrec, Hlines.
  by rewrite <- app_assoc.
Qed.

Lemma get_image_empty_record_witness :
  get_image E_demo H_pictures (lit "/pics")
    (world_init {[ lit "/home/u/.cache/wal/wal" := [] ]})
  = (with_log (world_init {[ lit "/home/u/.cache/wal/wal" := [] ]})
       (log (world_init {[ lit "/home/u/.cache/wal/wal" := [] ]})
        ++ [ EvIsFile (path_str (Path (lit "/pics")));
             EvIsFile (wal_file E_demo); EvRead (wal_file E_demo) ]),
     Fail IndexError).
Proof.
  apply (get_image_empty_record E_demo H_pictures (lit "/pics") []
           (world_init {[ lit "/home/u/.cache/wal/wal" := [] ]}));
    reflexivity.
Defined.

(** ** Which files the rest of the program may change *)

Section FrameOfRest.

Context (E : env) (H : host) (P : pystr -> Prop).

Lemma confined_popen cmd : confined P (popen E cmd).
Proof.
  unfold popen. apply confined_bind; [apply confined_lift|].
  intros prog. destruct (which E prog);
    [apply confined_emit | apply confined_raise].
Qed.

Lemma confined_set_notify b : confined P (set_notify b).
Proof. by intros w x _. Qed.

Lemma confined_redirected {A} (m : M A) :
  confined P m -> confined P (redirected m).
Proof. intros Hm w x Hx. by apply (Hm w x Hx). Qed.

Lemma confined_get_image img : confined P (get_image E H img).
Proof.
  intros w x _. by destruct (get_image_effects_run E H img w) as (-> & _).
Qed.

Lemma confined_set_wallpaper img : confined P (set_wallpaper E H img).
Proof.
  unfold set_wallpaper, set_desktop_wallpaper, xfconf.
  repeat first
    [ apply confined_ret | apply confined_print | apply confined_disown
    | apply confined_popen
    | apply confined_bind; [|intros ?]
    | match goal with
      | |- confined _ (if ?b then _ else _) => destruct b
      end ].
Qed.

Lemma confined_reload_colors vte : confined P (reload_colors E vte).
Proof.
  unfold reload_colors.
  repeat first
    [ apply confined_ret | apply confined_lift | apply confined_emit
    | apply confined_exit | apply confined_is_file | apply confined_read_file
    | apply confined_bind; [|intros ?]
    | match goal with
      | |- confined _ (if ?b then _ else _) => destruct b
      end ].
Qed.

Lemma confined_get_colors fuel img :
  P (wal_file E) -> P (cache_file_of E img) ->
  confined P (get_colors E fuel img).
Proof.
  intros Hwal Hcache. unfold get_colors.
  repeat first
    [ apply confined_ret | apply confined_lift | apply confined_print
    | apply confined_notify | apply confined_is_file
    | apply confined_read_file | apply confined_gen_colors
    | by apply confined_save_file
    | apply confined_bind; [|intros ?]
    | match goal with
      | |- confined _ (if ?b then _ else _) => destruct b
      end ].
Qed.

End FrameOfRest.

Lemma starts_with_app_same pre s : starts_with pre (pre ++ s) = true.
Proof.
  induction pre as [|c pre IH]; [reflexivity|].
  cbn [app starts_with]. by rewrite N.eqb_refl, IH.
Qed.

Lemma starts_with_prefix pre q s :
  starts_with (pre ++ q) s = true -> starts_with pre s = true.
Proof.
  revert s. induction pre as [|c pre IH]; intros s; [reflexivity|].
  destruct s as [|d s]; [done|]. cbn [app starts_with]. intros Hs.
  apply andb_true_iff in Hs as [-> Hs]. by apply IH.
Qed.

Section OwnPaths.

Context (E : env).

Lemma own_path_cache name : own_path E (path_join (CACHE_DIR E) name).
Proof.
  left. unfold path_join. rewrite app_assoc. apply starts_with_app_same.
Qed.

Lemma own_path_terminal x : x ∈ terminals E -> own_path E x.
Proof.
  unfold terminals. intros Hx. apply elem_of_app in Hx as [Hx|Hx].
  - apply list_elem_of_fmap in Hx as (term & -> & _).
    right. apply starts_with_app_same.
  - apply list_elem_of_singleton in Hx as ->. apply own_path_cache.
Qed.

Lemma own_path_export x : x ∈ export_paths E -> own_path E x.
Proof.
  unfold export_paths. intros Hx.
  apply list_elem_of_fmap in Hx as (name & -> & _). apply own_path_cache.
Qed.

Lemma own_path_cache_file img : own_path E (cache_file_of E img).
Proof.
  unfold cache_file_of. left. unfold path_join.
  rewrite <- !app_assoc, (app_assoc (CACHE_DIR E)).
  apply starts_with_app_same.
Qed.

Lemma confined_rmtree_schemes :
  confined (own_path E) (rmtree (path_join (CACHE_DIR E) (lit "schemes"))).
Proof.
  intros w x Hx. unfold rmtree. cbn [fst fs].
  destruct (fs w !! x) as [content|] eqn:Hfile.
  - apply map_lookup_filter_Some. split; [exact Hfile|]. cbn [fst].
    destruct (starts_with _ x) eqn:Hpre; [|reflexivity].
    exfalso. apply Hx. left. unfold path_join in Hpre.
    rewrite <- !app_assoc, (app_assoc (CACHE_DIR E)) in Hpre.
    by apply starts_with_prefix in Hpre.
  - apply map_lookup_filter_None. left. exact Hfile.
Qed.

End OwnPaths.

(** ** What the log of a run can contain *)

Lemma discreet_refl w : discreet w w.
Proof. exists []. by rewrite app_nil_r. Qed.

Lemma discreet_trans w1 w2 w3 :
  discreet w1 w2 -> discreet w2 w3 -> discreet w1 w3.
Proof.
  intros (a1 & Hl1 & Hq1) (a2 & Hl2 & Hq2). exists (a1 ++ a2). split.
  - by rewrite Hl2, Hl1, app_assoc.
  - intros Hoff. destruct (Hq1 Hoff) as [Hoff2 Ha1].
    destruct (Hq2 Hoff2) as [Hoff3 Ha2].
    by rewrite forallb_app, Ha1, Ha2.
Qed.

Lemma discreet_same_log w w' :
  log w' = log w -> args_notify w' = args_notify w -> discreet w w'.
Proof.
  intros Hl Hn. exists []. rewrite app_nil_r. split; [done|].
  intros Hoff. by rewrite Hn.
Qed.

Section Unobtrusive.

Context (E : env) (H : host).

Lemma unobtrusive_bind {A B} (m : M A) (f : A -> M B) :
  unobtrusive m -> (forall a, unobtrusive (f a)) -> unobtrusive (m ≫= f).
Proof.
  intros Hm Hf w. unfold mbind, M_bind. specialize (Hm w).
  destruct (m w) as [w1 [a|e|c|]]; cbn [fst] in *; try exact Hm.
  eapply discreet_trans; [exact Hm | apply Hf].
Qed.

Lemma unobtrusive_ret {A} (a : A) : unobtrusive (mret a : M A).
Proof. intros w. apply discreet_refl. Qed.

Lemma unobtrusive_lift {A} (r : result A) : unobtrusive (lift r).
Proof. intros w. destruct r; apply discreet_refl. Qed.

Lemma unobtrusive_raise {A} e : unobtrusive (@raise A e).
Proof. intros w. apply discreet_refl. Qed.

Lemma unobtrusive_exit {A} code : unobtrusive (@exit A code).
Proof. intros w. apply discreet_refl. Qed.

Lemma unobtrusive_emit ev :
  is_notification ev = false -> unobtrusive (emit ev).
Proof.
  intros Hev w. exists [ev]. split; [reflexivity|].
  intros Hoff. cbn. by rewrite Hev.
Qed.

Lemma unobtrusive_print text : unobtrusive (print text).
Proof. by apply unobtrusive_emit. Qed.

Lemma unobtrusive_get_ct : unobtrusive get_ct.
Proof. intros w. apply discreet_refl. Qed.

Lemma unobtrusive_modify_ct f : unobtrusive (modify_ct f).
Proof. intros w. by apply discreet_same_log. Qed.

Lemma unobtrusive_is_file path : unobtrusive (is_file path).
Proof. by apply unobtrusive_emit. Qed.

Lemma unobtrusive_read_file path : unobtrusive (read_file path).
Proof.
  intros w. unfold read_file. destruct (fs w !! path).
  - by apply unobtrusive_emit.
  - apply discreet_refl.
Qed.

Lemma unobtrusive_save_file colors path :
  unobtrusive (save_file E colors path).
Proof.
  unfold save_file. destruct (unwritable E path).
  - apply unobtrusive_bind; [by apply unobtrusive_emit|].
    intros _. apply unobtrusive_raise.
  - apply unobtrusive_bind; [|intros _; by apply unobtrusive_emit].
    intros w. by apply discreet_same_log.
Qed.

Lemma unobtrusive_notify msg : unobtrusive (notify E msg).
Proof.
  intros w. unfold notify.
  destruct (which E _ && args_notify w) eqn:Hon.
  - eexists. split; [reflexivity|]. intros Hoff.
    rewrite Hoff, andb_false_r in Hon. discriminate Hon.
  - apply discreet_refl.
Qed.

Lemma unobtrusive_disown cmd : unobtrusive (disown cmd).
Proof. by apply unobtrusive_emit. Qed.

Lemma unobtrusive_popen prog args :
  prog <> lit "notify-send" -> unobtrusive (popen E (prog :: args)).
Proof.
  intros Hprog. unfold popen.
  apply unobtrusive_bind; [apply unobtrusive_lift|]. cbn [getitem].
  intros prog'. destruct (which E prog'); [|apply unobtrusive_raise].
  intros w. eexists. split; [reflexivity|]. intros Hoff. split; [done|].
  cbn [forallb is_notification]. by rewrite bool_decide_eq_false_2.
Qed.

Lemma unobtrusive_for_each {A} (body : A -> M unit) xs :
  (forall x, unobtrusive (body x)) -> unobtrusive (for_each body xs).
Proof.
  intros Hbody. induction xs as [|x xs IH]; cbn [for_each].
  - apply unobtrusive_ret.
  - apply unobtrusive_bind; [apply Hbody | intros _; apply IH].
Qed.

Lemma unobtrusive_set_notify_off : unobtrusive (set_notify false).
Proof. intros w. exists []. by rewrite app_nil_r. Qed.

Lemma unobtrusive_rmtree d : unobtrusive (rmtree d).
Proof. intros w. by apply discreet_same_log. Qed.

Lemma unobtrusive_redirected {A} (m : M A) :
  unobtrusive m -> unobtrusive (redirected m).
Proof.
  intros Hm w. destruct (Hm w) as (added & Hlog & Hoff).
  unfold redirected. cbn [fst with_log log args_notify].
  rewrite Hlog, drop_app_length.
  eexists. split; [reflexivity|]. intros Hq.
  destruct (Hoff Hq) as [Hn Hadded]. split; [exact Hn|].
  apply forallb_forall. intros ev Hev. apply list_elem_of_In in Hev.
  apply list_elem_of_filter in Hev as [_ Hev]. apply list_elem_of_In in Hev.
  rewrite forallb_forall in Hadded. by apply Hadded.
Qed.

Lemma unobtrusive_gen_colors fuel img : unobtrusive (gen_colors E fuel img).
Proof.
  intros w.
  destruct (gen_colors_cases E img fuel w)
    as (w' & added & _ & _ & Hn & Hlog & Hev & Hrun).
  assert (fst (gen_colors E fuel img w) = w') as ->
    by (by destruct Hrun as [-> | [-> | (ts & -> & _)]]).
  exists added. split; [exact Hlog|]. intros Hoff.
  split; [by rewrite Hn|]. apply forallb_forall. intros ev Hin.
  rewrite forallb_forall in Hev. specialize (Hev ev Hin).
  by destruct ev.
Qed.

Lemma unobtrusive_get_image img : unobtrusive (get_image E H img).
Proof.
  intros w.
  destruct (get_image_effects_run E H img w)
    as (_ & _ & Hn & (added & Hlog & Hev) & _).
  exists added. split; [exact Hlog|]. intros Hoff.
  split; [by rewrite Hn|]. apply forallb_forall. intros ev Hin.
  rewrite forallb_forall in Hev. specialize (Hev ev Hin).
  by destruct ev.
Qed.

End Unobtrusive.

(** Takes a computation apart down to the steps above. *)
Ltac unobtrusive_steps_with known :=
  repeat first
    [ known
    | lazymatch goal with
      | |- unobtrusive (mret _) => apply unobtrusive_ret
      | |- unobtrusive (lift _) => apply unobtrusive_lift
      | |- unobtrusive (raise _) => apply unobtrusive_raise
      | |- unobtrusive (exit _) => apply unobtrusive_exit
      | |- unobtrusive (print _) => apply unobtrusive_print
      | |- unobtrusive get_ct => apply unobtrusive_get_ct
      | |- unobtrusive (modify_ct _) => apply unobtrusive_modify_ct
      | |- unobtrusive (is_file _) => apply unobtrusive_is_file
      | |- unobtrusive (read_file _) => apply unobtrusive_read_file
      | |- unobtrusive (save_file _ _ _) => apply unobtrusive_save_file
      | |- unobtrusive (notify _ _) => apply unobtrusive_notify
      | |- unobtrusive (disown _) => apply unobtrusive_disown
      | |- unobtrusive (gen_colors _ _ _) => apply unobtrusive_gen_colors
      | |- unobtrusive (get_image _ _ _) => apply unobtrusive_get_image
      | |- unobtrusive (set_notify false) => apply unobtrusive_set_notify_off
      | |- unobtrusive (rmtree _) => apply unobtrusive_rmtree
      | |- unobtrusive (popen _ _) => apply unobtrusive_popen; discriminate
      | |- unobtrusive (emit _) => apply unobtrusive_emit; reflexivity
      | |- unobtrusive (for_each _ _) =>
        apply unobtrusive_for_each; intros ?
      | |- unobtrusive (_ ≫= _) => apply unobtrusive_bind; [|intros ?]
      | |- unobtrusive (if ?b then _ else _) => destruct b
      | |- unobtrusive (let '(_, _) := ?x in _) => destruct x
      end ].

Ltac unobtrusive_steps := unobtrusive_steps_with fail.

Section UnobtrusiveParts.

Context (E : env) (H : host).

Lemma unobtrusive_get_colors fuel img : unobtrusive (get_colors E fuel img).
Proof. unfold get_colors. unobtrusive_steps. Qed.

Lemma unobtrusive_send_sequences colors vte :
  unobtrusive (send_sequences E colors vte).
Proof.
  unfold send_sequences, set_special, set_color, xrdb_append,
    sequences_append, shell_append, css_append, scss_append, putty_append.
  unobtrusive_steps.
Qed.

Lemma unobtrusive_export_colors colors :
  unobtrusive (export_colors E colors).
Proof.
  unfold export_colors, save_colors, export_rofi, export_emacs, reload_xrdb,
    reload_i3, css_append, xrdb_append.
  unobtrusive_steps.
Qed.

Lemma unobtrusive_reload_colors vte : unobtrusive (reload_colors E vte).
Proof. unfold reload_colors. unobtrusive_steps. Qed.

Lemma unobtrusive_set_wallpaper img : unobtrusive (set_wallpaper E H img).
Proof.
  unfold set_wallpaper, set_desktop_wallpaper, xfconf. unobtrusive_steps.
Qed.

Lemma unobtrusive_process_args fuel argc args :
  unobtrusive (process_args E H fuel argc args).
Proof.
  unfold process_args, create_cache_dir, plain_assign.
  apply unobtrusive_bind; [unobtrusive_steps|]. intros _.
  assert (forall (m : M unit),
             unobtrusive m ->
             unobtrusive ((if arg_q args then redirected else id) m))
    as Hwrap.
  { intros m Hm. destruct (arg_q args);
      [by apply unobtrusive_redirected | exact Hm]. }
  apply Hwrap.
  unobtrusive_steps_with
    ltac:(idtac; match goal with
          | |- unobtrusive (get_colors _ _ _) => apply unobtrusive_get_colors
          | |- unobtrusive (send_sequences _ _ _) =>
            apply unobtrusive_send_sequences
          | |- unobtrusive (export_colors _ _) =>
            apply unobtrusive_export_colors
          | |- unobtrusive (reload_colors _ _) =>
            apply unobtrusive_reload_colors
          | |- unobtrusive (set_wallpaper _ _ _) =>
            apply unobtrusive_set_wallpaper
          end).
Qed.

Lemma confined_process_args fuel argc args :
  confined (own_path E) (process_args E H fuel argc args).
Proof.
  unfold process_args, create_cache_dir, plain_assign.
  apply confined_bind;
    [destruct (negb _); [|apply confined_ret];
     apply confined_bind; [apply confined_print|];
     intros _; apply confined_exit|].
  intros _.
  assert (forall (m : M unit),
             confined (own_path E) m ->
             confined (own_path E) ((if arg_q args then redirected else id) m))
    as Hwrap.
  { intros m Hm. destruct (arg_q args);
      [by apply confined_redirected | exact Hm]. }
  apply Hwrap.
  repeat lazymatch goal with
    | |- confined _ (mret _) => apply confined_ret
    | |- confined _ (print _) => apply confined_print
    | |- confined _ (exit _) => apply confined_exit
    | |- confined _ get_ct => apply confined_get_ct
    | |- confined _ (modify_ct _) => apply confined_modify_ct
    | |- confined _ (disown _) => apply confined_disown
    | |- confined _ (set_notify _) => apply confined_set_notify
    | |- confined _ (rmtree _) => apply confined_rmtree_schemes
    | |- confined _ (reload_colors _ _) => apply confined_reload_colors
    | |- confined _ (get_image _ _ _) => apply confined_get_image
    | |- confined _ (set_wallpaper _ _ _) => apply confined_set_wallpaper
    | |- confined _ (get_colors _ _ _) =>
      apply confined_get_colors;
        [apply own_path_cache | apply own_path_cache_file]
    | |- confined _ (send_sequences _ _ _) =>
      apply (confined_weaken _ _ _ (own_path_terminal E)),
        confined_send_sequences
    | |- confined _ (export_colors _ _) =>
      apply (confined_weaken _ _ _ (own_path_export E)),
        confined_export_colors
    | |- confined _ (_ ≫= _) => apply confined_bind; [|intros ?]
    | |- confined _ (if ?b then _ else _) => destruct b
    end.
Qed.

End UnobtrusiveParts.

(** ** The command line *)

Lemma bind_exit {A B} (m : M A) (f : A -> M B) w w' code :
  m w = (w', Exit code) -> (m ≫= f) w = (w', Exit code).
Proof. intros Hm. unfold mbind, M_bind. by rewrite Hm. Qed.



Section Arguments.

Context (E : env) (H : host).



Lemma unobtrusive_use_image fuel args image :
  unobtrusive (use_image E H fuel args image).
Proof.
  unfold use_image, plain_assign.
  unobtrusive_steps_with
    ltac:(idtac; match goal with
          | |- unobtrusive (get_colors _ _ _) => apply unobtrusive_get_colors
          | |- unobtrusive (send_sequences _ _ _) =>
            apply unobtrusive_send_sequences
          | |- unobtrusive (export_colors _ _) =>
            apply unobtrusive_export_colors
          | |- unobtrusive (set_wallpaper _ _ _) =>
            apply unobtrusive_set_wallpaper
          end).
Qed.

Lemma unobtrusive_after_flags fuel args :
  unobtrusive (after_flags E H fuel args).
Proof.
  unfold after_flags.
  unobtrusive_steps_with
    ltac:(idtac; match goal with
          | |- unobtrusive (use_image _ _ _ _ _) =>
            apply unobtrusive_use_image
          | |- unobtrusive (reload_colors _ _) =>
            apply unobtrusive_reload_colors
          end).
Qed.

(** The run once an argument was given. *)
Lemma process_args_run fuel argc args w :
  (1 < argc)%nat ->
  process_args E H fuel argc args w
  = (if arg_q args then redirected else id)
      ((if arg_q args then set_notify false else mret ());;
       (if arg_c args then
          rmtree (path_join (CACHE_DIR E) (lit "schemes"));;
          create_cache_dir
        else mret ());;
       after_flags E H fuel args) w.
Proof.
  intros Hargc. unfold process_args.
  apply Nat.ltb_lt in Hargc. rewrite Hargc. cbn [negb].
  by rewrite (bind_done _ _ _ _ _ (ret_run () w)).
Qed.

(** The state in which [-r], [-v], [-i] and [-o] are looked at. *)
Lemma flags_run fuel args w :
  ((if arg_q args then set_notify false else mret ());;
   (if arg_c args then
      rmtree (path_join (CACHE_DIR E) (lit "schemes"));;
      create_cache_dir
    else mret ());;
   after_flags E H fuel args) w
  = after_flags E H fuel args
      {| fs := if arg_c args then cleared E (fs w) else fs w;
         ct := ct w;
         args_notify := if arg_q args then false else args_notify w;
         log := log w |}.
Proof.
  destruct w as [files lists note events].
  destruct (arg_q args), (arg_c args); reflexivity.
Qed.

Lemma redirected_run {A} (m : M A) w w' o added :
  m w = (w', o) -> log w' = log w ++ added ->
  redirected m w
  = (with_log w' (log w ++ filter (fun ev => is_print ev = false) added), o).
Proof.
  intros Hm Hlog. unfold redirected. rewrite Hm. cbn [fst snd].
  by rewrite Hlog, drop_app_length.
Qed.

(** What is known of the inner run carries over to the whole. *)
Lemma process_args_from_flags fuel argc args w w' o added :
  (1 < argc)%nat ->
  after_flags E H fuel args
    {| fs := if arg_c args then cleared E (fs w) else fs w;
       ct := ct w;
       args_notify := if arg_q args then false else args_notify w;
       log := log w |} = (w', o) ->
  log w' = log w ++ added ->
  process_args E H fuel argc args w
  = (if arg_q args
     then with_log w'
            (log w ++ filter (fun ev => is_print ev = false) added)
     else w', o).
Proof.
  intros Hargc Hrun Hlog. rewrite (process_args_run fuel argc args w Hargc).
  destruct (arg_q args) eqn:Hq.
  - apply redirected_run; [|exact Hlog].
    pose proof (flags_run fuel args w) as Hflags.
    rewrite Hq in Hflags. by rewrite Hflags.
  - unfold id. pose proof (flags_run fuel args w) as Hflags.
    rewrite Hq in Hflags. by rewrite Hflags.
Qed.

Lemma reload_colors_cases vte w :
  exists w' o added,
    reload_colors E vte w = (w', o) /\
    fs w' = fs w /\ ct w' = ct w /\ log w' = log w ++ added /\
    forallb image_event added = true /\
    (o = Exit 0%Z \/ o = Fail UnicodeEncodeError \/
     o = Fail UnicodeDecodeError).
Proof.
  unfold reload_colors.
  rewrite bind_assoc_run, (bind_done _ _ _ _ _ (is_file_run _ _)).
  destruct (fs w !! path_join (CACHE_DIR E) (lit "sequences"))
    as [content|] eqn:Hfile.
  - rewrite bool_decide_eq_true_2 by (by eexists).
    rewrite bind_assoc_run.
    match goal with
    | |- context [(read_file ?p ≫= _) ?w0] =>
      rewrite (bind_done _ _ _ _ _ (read_file_present p content w0 Hfile))
    end.
    rewrite bind_assoc_run.
    match goal with
    | |- context [lift (fix_escape ?u ?s)] =>
      destruct (fix_escape u s) as [out|e] eqn:Hout
    end.
    + rewrite (bind_done _ _ _ _ _ (lift_ok out _)).
      eexists _, _, [_; _; _]. split; [reflexivity|].
      cbn [with_log emit fst fs ct log]. rewrite <- !app_assoc.
      split_and!; try done. by left.
    + rewrite (bind_fail _ _ _ _ _ (lift_raise e _)).
      eexists _, _, [_; _]. split; [reflexivity|].
      cbn [with_log fs ct log]. rewrite <- !app_assoc.
      split_and!; try done. right.
      destruct (fix_escape_error _ _ _ Hout) as [-> | ->]; [by left | by right].
  - rewrite bool_decide_eq_false_2 by (by intros [? ?]).
    eexists _, _, [_]. split; [reflexivity|].
    cbn [with_log fs ct log]. split_and!; try done. by left.
Qed.

End Arguments.

(** X26.  With [-r] the run ends in [reload_colors]: with status 0 or
    with a decoding error, and never by returning.  Whatever else is on
    the command line is not looked at: the run only asks for the sequence
    file, reads it and prints, no list is changed, and no file either
    unless [-c] was given too. *)
Theorem process_args_reload_first (E : env) (H : host) (fuel argc : nat)
    (args : Args) (w : world) :
  (1 < argc)%nat -> arg_r args = true ->
  (snd (process_args E H fuel argc args w) = Exit 0%Z \/
   snd (process_args E H fuel argc args w) = Fail UnicodeEncodeError \/
   snd (process_args E H fuel argc args w) = Fail UnicodeDecodeError) /\
  ct (fst (process_args E H fuel argc args w)) = ct w /\
  (arg_c args = false -> fs (fst (process_args E H fuel argc args w)) = fs w) /\
  exists added,
    log (fst (process_args E H fuel argc args w)) = log w ++ added /\
    forallb image_event added = true.
Proof.
  intros Hargc Hr.
  set (w0 := {| fs := if arg_c args then cleared E (fs w) else fs w;
                ct := ct w;
                args_notify := if arg_q args then false else args_notify w;
                log := log w |}).
  destruct (reload_colors_cases E (arg_t args) w0)
    as (w' & o & added & Hrun & Hfs & Hct & Hlog & Hev & Ho).
  assert (after_flags E H fuel args w0 = (w', o)) as Hflags.
  { unfold after_flags. rewrite Hr.
    destruct Ho as [-> | [-> | ->]];
      [by rewrite (bind_exit _ _ _ _ _ Hrun)
      |by rewrite (bind_fail _ _ _ _ _ Hrun)..]. }
  rewrite (process_args_from_flags E H fuel argc args w w' o added
             Hargc Hflags Hlog).
  cbn [fst snd]. split; [exact Ho|].
  destruct (arg_q args); cbn [with_log ct fs log].
  - split; [exact Hct|]. split.
    + intros Hc. rewrite Hfs. subst w0. cbn [fs]. by rewrite Hc.
    + eexists. split; [reflexivity|].
      apply forallb_forall. intros ev Hin. apply list_elem_of_In in Hin.
      apply list_elem_of_filter in Hin as [_ Hin].
      apply list_elem_of_In in Hin.
      rewrite forallb_forall in Hev. by apply Hev.
  - split; [exact Hct|]. split.
    + intros Hc. rewrite Hfs. subst w0. cbn [fs]. by rewrite Hc.
    + by exists added.
Qed.

Lemma process_args_reload_first_witness :
  snd (process_args E_demo H_bare 3 6 args_reload (world_init files_demo))
  = Exit 0%Z /\
  fs (fst (process_args E_demo H_bare 3 6 args_reload
             (world_init files_demo))) = files_demo.
Proof.
  destruct (process_args_reload_first E_demo H_bare 3 6 args_reload
              (world_init files_demo)) as (Ho & _ & Hfs & _).
  - lia.
  - reflexivity.
  - split; [|by apply Hfs].
    destruct Ho as [Ho|[Ho|Ho]]; [exact Ho| |];
      vm_compute in Ho; discriminate Ho.
Defined.

(** X27.  With [-v] and without [-r] the run prints the version and ends
    with status 0: [-i] and [-o] are not looked at, no list is changed,
    and no file either unless [-c] was given too.  With [-q] as well,
    not even the version is shown. *)
Theorem process_args_version (E : env) (H : host) (fuel argc : nat)
    (args : Args) (w : world) :
  (1 < argc)%nat -> arg_r args = false -> arg_v args = true ->
  snd (process_args E H fuel argc args w) = Exit 0%Z /\
  ct (fst (process_args E H fuel argc args w)) = ct w /\
  (arg_c args = false -> fs (fst (process_args E H fuel argc args w)) = fs w) /\
  log (fst (process_args E H fuel argc args w))
  = log w ++ (if arg_q args then []
              else [EvPrint ((lit "wal " ++ version) ++ [10])]).
Proof.
  intros Hargc Hr Hv.
  set (w0 := {| fs := if arg_c args then cleared E (fs w) else fs w;
                ct := ct w;
                args_notify := if arg_q args then false else args_notify w;
                log := log w |}).
  assert (after_flags E H fuel args w0
          = (with_log w0 (log w0 ++ [EvPrint ((lit "wal " ++ version) ++ [10])]),
             Exit 0%Z)) as Hflags.
  { unfold after_flags. rewrite Hr, Hv.
    rewrite (bind_done _ _ _ _ _ (ret_run () w0)).
    rewrite bind_assoc_run.
    by rewrite (bind_done _ _ _ _ _ (print_run _ _)). }
  rewrite (process_args_from_flags E H fuel argc args w _ _ _
             Hargc Hflags eq_refl).
  cbn [fst snd]. split; [done|].
  destruct (arg_q args); cbn [with_log ct fs log]; subst w0; cbn [fs ct].
  - split; [done|]. split; [by intros ->|]. reflexivity.
  - split; [done|]. split; [by intros ->|]. reflexivity.
Qed.

Lemma process_args_version_witness :
  snd (process_args E_demo H_bare 3 4 args_version (world_init files_demo))
  = Exit 0%Z /\
  log (fst (process_args E_demo H_bare 3 4 args_version
              (world_init files_demo)))
  = [EvPrint (lit "wal 0.1.6" ++ [10])].
Proof.
  destruct (process_args_version E_demo H_bare 3 4 args_version
              (world_init files_demo)) as (Ho & _ & _ & Hlog).
  - lia.
  - reflexivity.
  - reflexivity.
  - split; [exact Ho | exact Hlog].
Defined.

(** X28.  With [-q] nothing that the run does shows: after the argument
    check no line is printed and no desktop notification is sent,
    whichever other options are given and however the run ends. *)
Theorem process_args_quiet (E : env) (H : host) (fuel argc : nat)
    (args : Args) (w : world) :
  (1 < argc)%nat -> arg_q args = true ->
  exists added,
    log (fst (process_args E H fuel argc args w)) = log w ++ added /\
    forallb (fun ev => negb (is_print ev) && negb (is_notification ev))
            added = true.
Proof.
  intros Hargc Hq.
  set (w0 := {| fs := if arg_c args then cleared E (fs w) else fs w;
                ct := ct w;
                args_notify := if arg_q args then false else args_notify w;
                log := log w |}).
  destruct (unobtrusive_after_flags E H fuel args w0)
    as (added & Hlog & Hoff).
  destruct Hoff as [_ Hquiet]; [subst w0; cbn; by rewrite Hq|].
  destruct (after_flags E H fuel args w0) as [w' o] eqn:Hflags.
  cbn [fst] in Hlog.
  rewrite (process_args_from_flags E H fuel argc args w w' o added
             Hargc Hflags Hlog).
  rewrite Hq. cbn [fst with_log log]. eexists. split; [reflexivity|].
  apply forallb_forall. intros ev Hin. apply list_elem_of_In in Hin.
  apply list_elem_of_filter in Hin as [Hprint Hin].
  apply list_elem_of_In in Hin.
  rewrite forallb_forall in Hquiet. by rewrite Hprint, (Hquiet ev Hin).
Qed.

Lemma process_args_quiet_witness :
  exists added,
    log (fst (process_args E_demo H_bare 3 5 args_quiet
                (world_init files_demo))) = [] ++ added /\
    forallb (fun ev => negb (is_print ev) && negb (is_notification ev))
            added = true.
Proof.
  apply (process_args_quiet E_demo H_bare 3 5 args_quiet
           (world_init files_demo)).
  - lia.
  - reflexivity.
Defined.



(** X30.  However it is called and however it ends, [process_args]
    changes no file outside the cache directory and [/dev/pts/]: the
    image, the directory it was chosen from and every other file are as
    they were. *)
Theorem process_args_own_files (E : env) (H : host) (fuel argc : nat)
    (args : Args) (w : world) (x : pystr) :
  ~ own_path E x ->
  fs (fst (process_args E H fuel argc args w)) !! x = fs w !! x.
Proof. intros Hx. by apply (confined_process_args E H fuel argc args w). Qed.

Lemma process_args_own_files_witness :
  fs (fst (process_args E_demo H_bare 3 5 args_clear
             (world_init files_demo))) !! lit "/a/b.jpg"
  = fs (world_init files_demo) !! lit "/a/b.jpg".
Proof.
  apply (process_args_own_files E_demo H_bare 3 5 args_clear
           (world_init files_demo) (lit "/a/b.jpg")).
  intros [Hx|Hx]; vm_compute in Hx; discriminate Hx.
Defined.
